(** * DevStart: a shallow embedding of the project scaffolder

    The development follows the three Python modules of the repository:

    - [devstart/generators/project.py]: [_escape_toml_string], [_write_file],
      [_write_init], the [_generate_*] groups and [generate_project];
    - [devstart/prompts/interactive.py]: [prompt_for_config];
    - [devstart/cli/main.py]: [_validate_project_name],
      [_validate_python_version], [_print_config_summary],
      [_print_file_tree], [_print_success] and the command [new].

    Python values are modelled as they are used: [str] as [string] (its
    characters are code points, here restricted to 0..255), the untyped
    configuration [dict] as a [gmap string value], [pathlib.Path] as the list
    of its components, the file system as a finite map from paths to nodes,
    exceptions as a sum type threaded through a state-and-error monad.

    What lies outside these modules is a parameter of the functions that
    use it: the constants of [devstart/defaults.py], the names in
    [sys.stdlib_module_names], the rendering of the Jinja templates, and
    the reader of console markup of Rich, which decides whether a cell of
    the configuration summary can be shown. *)

From Stdlib Require Import String Ascii List Bool Arith Lia.
From stdpp Require Import base option list strings gmap.

Local Open Scope string_scope.
Local Open Scope list_scope.

(* ===================================================================== *)
(** * Characters and strings *)
(* ===================================================================== *)

(** The double quote (U+0022), the backslash (U+005C) and the line feed
    (U+000A), named once. *)
Definition dquote : ascii := Eval cbv in ascii_of_nat 34.
Definition backslash : ascii := Eval cbv in ascii_of_nat 92.
Definition newline : ascii := Eval cbv in ascii_of_nat 10.

Definition is_ascii_lower (c : ascii) : bool := (("a" <=? c) && (c <=? "z"))%char.
Definition is_ascii_upper (c : ascii) : bool := (("A" <=? c) && (c <=? "Z"))%char.
Definition is_ascii_digit (c : ascii) : bool := (("0" <=? c) && (c <=? "9"))%char.

(** The character class [[a-zA-Z_]]. *)
Definition is_ident_start (c : ascii) : bool :=
  is_ascii_lower c || is_ascii_upper c || (c =? "_")%char.

(** The character class [[a-zA-Z0-9_]]. *)
Definition is_word_char (c : ascii) : bool :=
  is_ascii_lower c || is_ascii_upper c || is_ascii_digit c || (c =? "_")%char.

(** [str.isdigit] on one character.  Among the code points below 256 it
    holds of the ASCII digits and of the superscripts U+00B2, U+00B3 and
    U+00B9. *)
Definition py_isdigit (c : ascii) : bool :=
  is_ascii_digit c
  || (c =? ascii_of_nat 178)%char || (c =? ascii_of_nat 179)%char
  || (c =? ascii_of_nat 185)%char.

(** Every character of [s] satisfies [p]. *)
Fixpoint all_chars (p : ascii -> bool) (s : string) : bool :=
  match s with
  | EmptyString => true
  | String c s' => p c && all_chars p s'
  end.

Fixpoint map_chars (f : ascii -> ascii) (s : string) : string :=
  match s with
  | EmptyString => EmptyString
  | String c s' => String (f c) (map_chars f s')
  end.

(** [s.replace(old, new)] for a pattern [old] of one character: every
    occurrence of the character is replaced, left to right. *)
Fixpoint replace_char (old : ascii) (new : string) (s : string) : string :=
  match s with
  | EmptyString => EmptyString
  | String c s' =>
      if (c =? old)%char then new +:+ replace_char old new s'
      else String c (replace_char old new s')
  end.

Definition startswith (p s : string) : bool := String.prefix p s.

Definition endswith (p s : string) : bool :=
  (String.length p <=? String.length s)%nat
  && String.eqb (substring (String.length s - String.length p) (String.length p) s) p.

(** [Some t] when [s] is [t] followed by one final line feed. *)
Fixpoint strip_final_newline (s : string) : option string :=
  match s with
  | EmptyString => None
  | String c s' =>
      match s' with
      | EmptyString => if (c =? newline)%char then Some EmptyString else None
      | String _ _ => String c <$> strip_final_newline s'
      end
  end.

(* ===================================================================== *)
(** * The three regular expressions of [cli/main.py] *)
(* ===================================================================== *)

(** [re.match("^" body "$", s)] without [re.MULTILINE]: the match starts at
    position 0 and must end where [$] holds, which is at the end of the
    string or just before a line feed that is its last character.  [body]
    decides whether the pattern between the anchors spans a whole string. *)
Definition re_match_anchored (body : string -> bool) (s : string) : bool :=
  body s
  || match strip_final_newline s with
     | Some t => body t
     | None => false
     end.

(** [[a-zA-Z_][a-zA-Z0-9_]*] spans the whole of [s]. *)
Definition identifier_body (s : string) : bool :=
  match s with
  | EmptyString => false
  | String c s' => is_ident_start c && all_chars is_word_char s'
  end.

(** The longest prefix of [s] whose characters satisfy [p], and the rest. *)
Fixpoint span_chars (p : ascii -> bool) (s : string) : string * string :=
  match s with
  | EmptyString => (EmptyString, EmptyString)
  | String c s' =>
      if p c then let '(a, r) := span_chars p s' in (String c a, r)
      else (EmptyString, s)
  end.

(** [\d+\.\d+] spans the whole of [s].  A run of [\d] cannot cross the dot,
    so the greedy first run is the only candidate.  In a pattern on [str],
    [\d] is the class of all Unicode decimal digits; among the code points
    of this model, which are those below U+0100, these are the ASCII
    digits, so a version written with other digits (Arabic-Indic ones, say),
    which the code accepts too, is outside the model. *)
Definition version_body (s : string) : bool :=
  match span_chars is_ascii_digit s with
  | (String _ _, String "." (String c r)) => all_chars is_ascii_digit (String c r)
  | _ => false
  end.

(** [re.match(r"^[a-zA-Z_][a-zA-Z0-9_]*$", name)] *)
Definition re_match_identifier (name : string) : bool :=
  re_match_anchored identifier_body name.

(** [re.match(r"^\d+\.\d+$", version)] *)
Definition re_match_version (version : string) : bool :=
  re_match_anchored version_body version.

(** [re.sub(r"[^a-zA-Z0-9_]", "_", s)] *)
Definition re_sub_nonword (s : string) : string :=
  map_chars (fun c => if is_word_char c then c else "_"%char) s.

(* ===================================================================== *)
(** * [generators/project.py]: escaping *)
(* ===================================================================== *)

(** [value.replace("\\", "\\\\").replace('"', '\\"')] *)
Definition _escape_toml_string (value : string) : string :=
  replace_char dquote (String backslash (String dquote EmptyString))
    (replace_char backslash (String backslash (String backslash EmptyString)) value).

(** ** The reader of the target format

    The build descriptor is TOML, read back by [tomllib].  What follows is
    the grammar of a TOML basic string (TOML 1.0, section "String"), from
    just after the opening quote: characters up to the first unescaped
    double quote, where a backslash introduces an escape and the control
    characters other than tab (U+0000 to U+0008, U+000A to U+001F, U+007F)
    may not appear unescaped.  The result is the decoded text and what
    follows the closing quote.  The escapes [\uXXXX] and [\UXXXXXXXX] are
    part of TOML but not of this model, which has no code point above 255:
    they are read as an error. *)
Definition toml_illegal_char (c : ascii) : bool :=
  ((c <? " ") && negb (c =? ascii_of_nat 9) || (c =? ascii_of_nat 127))%char.

Definition toml_escape (e : ascii) : option ascii :=
  if (e =? "b")%char then Some (ascii_of_nat 8)
  else if (e =? "t")%char then Some (ascii_of_nat 9)
  else if (e =? "n")%char then Some (ascii_of_nat 10)
  else if (e =? "f")%char then Some (ascii_of_nat 12)
  else if (e =? "r")%char then Some (ascii_of_nat 13)
  else if (e =? dquote)%char then Some dquote
  else if (e =? backslash)%char then Some backslash
  else None.

Fixpoint toml_parse_basic_string (s : string) : option (string * string) :=
  match s with
  | EmptyString => None
  | String c s' =>
      if (c =? dquote)%char then Some (EmptyString, s')
      else if (c =? backslash)%char then
        match s' with
        | EmptyString => None
        | String e s'' =>
            match toml_escape e with
            | Some d =>
                match toml_parse_basic_string s'' with
                | Some (v, rest) => Some (String d v, rest)
                | None => None
                end
            | None => None
            end
        end
      else if toml_illegal_char c then None
      else
        match toml_parse_basic_string s' with
        | Some (v, rest) => Some (String c v, rest)
        | None => None
        end
  end.

(** A string embedded between double quotes, as the build-descriptor
    template does with the escaped description and author. *)
Definition toml_quote (escaped : string) (rest : string) : string :=
  escaped +:+ String dquote rest.

Definition author_example : string :=
  "O'Brien " +:+ String dquote ("Bob" +:+ String dquote EmptyString).

(* ===================================================================== *)
(** * Python values, the configuration dictionary, exceptions *)
(* ===================================================================== *)

(** What a configuration entry can hold: [None], a [bool] or a [str]. *)
Inductive value : Type :=
  | VNone
  | VBool (b : bool)
  | VStr (s : string).

Global Instance value_eq_dec : EqDecision value.
Proof. solve_decision. Defined.

(** Truth value testing: [None], [False] and the empty string are false. *)
Definition truthy (v : value) : bool :=
  match v with
  | VNone => false
  | VBool b => b
  | VStr s => negb (String.eqb s "")
  end.

(** [x or y] *)
Definition py_or (x y : value) : value := if truthy x then x else y.

(** [v is None] *)
Definition is_none (v : value) : bool :=
  match v with VNone => true | _ => false end.

(** [isinstance(v, str)] *)
Definition is_str (v : value) : bool :=
  match v with VStr _ => true | _ => false end.

(** [str(v)] *)
Definition py_str (v : value) : string :=
  match v with
  | VNone => "None"
  | VBool true => "True"
  | VBool false => "False"
  | VStr s => s
  end.

Definition of_option_str (o : option string) : value :=
  match o with Some s => VStr s | None => VNone end.

Definition of_option_bool (o : option bool) : value :=
  match o with Some b => VBool b | None => VNone end.

(** A [pathlib.Path]: the list of its components, outermost first.  [p / s]
    appends one component; that is what [pathlib] does when [s] is a plain
    file name (not empty, not ["."] or [".."], without a separator), which
    every component joined in this program is, project names included once
    they are validated.  A name with a separator would be split into
    several components, and [".."] resolved by the file system: the
    statements about where a run writes are for validated names. *)
Abbreviation path := (list string).

Definition pjoin (p : path) (s : string) : path := p ++ [s].

(** [p.parent]; the root is its own parent. *)
Definition parent (p : path) : path := removelast p.

(** [p.name]: the last component, empty for the root. *)
Definition path_name (p : path) : string := List.last p "".

Inductive errno : Type := EEXIST | ENOENT | ENOTDIR | EISDIR | EACCES.

(** The two [FileExistsError]s that [generate_project] raises itself, told
    apart by their message: "Current directory ... is not empty" (the
    specification's DestinationNotEmptyError) and "Directory ... already
    exists" (its DestinationExistsError). *)
Inductive dest_failure : Type := CwdNotEmpty | DirectoryExists.

(** What the command prints before [raise typer.Exit(code=1)]. *)
Inductive message : Type :=
  | NameRequired
  | InvalidName (hint : string)
  | KeywordName
  | DunderName
  | ReservedName
  | InvalidVersion
  | GenerationFailed.

Inductive exn : Type :=
  | KeyError (key : string)
  | TypeError
  | AttributeError
  | ValueError
  | FileExistsError (why : dest_failure)
  | OSError (e : errno) (p : path)
  | Exit (code : nat) (printed : message)
  | MarkupError
  | NotRenderableError.

Definition result (A : Type) : Type := (exn + A)%type.

Notation "'do' x <- e ; k" :=
  (match e with inl err => inl err | inr x => k end)
  (at level 10, x pattern, e at level 100, k at level 200,
   format "'do'  x  <-  e ;  '//' k").

(** [config[key]] *)
Definition subscript (config : gmap string value) (key : string) : result value :=
  match config !! key with
  | Some v => inr v
  | None => inl (KeyError key)
  end.

(** [config.get(key)] *)
Definition dict_get (config : gmap string value) (key : string) : value :=
  default VNone (config !! key).

(* ===================================================================== *)
(** * [cli/main.py]: validation *)
(* ===================================================================== *)

(** [keyword.kwlist] of CPython 3 (unchanged since 3.7). *)
Definition kwlist : list string :=
  [ "False"; "None"; "True"; "and"; "as"; "assert"; "async"; "await";
    "break"; "class"; "continue"; "def"; "del"; "elif"; "else"; "except";
    "finally"; "for"; "from"; "global"; "if"; "import"; "in"; "is";
    "lambda"; "nonlocal"; "not"; "or"; "pass"; "raise"; "return"; "try";
    "while"; "with"; "yield" ].

(** [keyword.iskeyword] *)
Definition iskeyword (s : string) : bool := bool_decide (s ∈ kwlist).

Definition _RESERVED_NAMES : gset string :=
  {[ "__init__"; "__main__"; "__pycache__"; "test"; "tests"; "setup"; "site" ]}.

(** [_validate_python_version]: returns, or prints and exits with code 1. *)
Definition _validate_python_version (version : string) : result unit :=
  if negb (re_match_version version) then inl (Exit 1 InvalidVersion)
  else inr tt.

(** [_validate_project_name].  [sys.stdlib_module_names] belongs to the
    interpreter that runs the tool and is a parameter here. *)
Definition _validate_project_name (stdlib_module_names : gset string)
    (name : string) : result unit :=
  if negb (re_match_identifier name) then
    inl (Exit 1 (InvalidName (re_sub_nonword name)))
  else if iskeyword name then inl (Exit 1 KeywordName)
  else if startswith "__" name && endswith "__" name then inl (Exit 1 DunderName)
  else if bool_decide (name ∈ _RESERVED_NAMES)
          || bool_decide (name ∈ stdlib_module_names)
  then inl (Exit 1 ReservedName)
  else inr tt.

(* ===================================================================== *)
(** * [devstart/defaults.py] and the interactive prompts *)
(* ===================================================================== *)

(** Modelled from the spec: the module [devstart/defaults.py] is not among
    the sources.  Its four constants (the built-in default project name,
    one-line description, author and runtime version) are the fields of
    this record, and every function that reads them takes it as a
    parameter. *)
Record defaults : Type := Defaults {
  DEFAULT_PROJECT_NAME : string;
  DEFAULT_DESCRIPTION : string;
  DEFAULT_AUTHOR : string;
  DEFAULT_PYTHON_VERSION : string;
}.

(** What the user types at each question of [prompt_for_config]: [None]
    stands for an empty line, which makes the prompt return its default. *)
Record answers : Type := Answers {
  ans_name : option string;
  ans_description : option string;
  ans_author : option string;
  ans_python : option string;
  ans_ci : option bool;
  ans_devcontainer : option bool;
  ans_precommit : option bool;
  ans_docker : option bool;
  ans_diagrams : option bool;
}.

(** [_StyledPrompt.ask(..., default=d)] and [_StyledConfirm.ask(..., default=d)] *)
Definition ask_text (reply : option string) (d : string) : value :=
  VStr (default d reply).

Definition ask_confirm (reply : option bool) (d : bool) : value :=
  VBool (default d reply).

(** [if config.get(key) is None: config[key] = asked] *)
Definition prompt_if_none (key : string) (asked : value)
    (config : gmap string value) : gmap string value :=
  if is_none (dict_get config key) then <[key := asked]> config else config.

Definition prompt_for_config (d : defaults) (a : answers)
    (config : gmap string value) : gmap string value :=
  let config := prompt_if_none "name" (ask_text (ans_name a) (DEFAULT_PROJECT_NAME d)) config in
  let config := prompt_if_none "description" (ask_text (ans_description a) (DEFAULT_DESCRIPTION d)) config in
  let config := prompt_if_none "author" (ask_text (ans_author a) (DEFAULT_AUTHOR d)) config in
  let config := prompt_if_none "python" (ask_text (ans_python a) (DEFAULT_PYTHON_VERSION d)) config in
  let config := prompt_if_none "ci" (ask_confirm (ans_ci a) true) config in
  let config := prompt_if_none "devcontainer" (ask_confirm (ans_devcontainer a) true) config in
  let config := prompt_if_none "precommit" (ask_confirm (ans_precommit a) true) config in
  let config := prompt_if_none "docker" (ask_confirm (ans_docker a) true) config in
  let config := prompt_if_none "diagrams" (ask_confirm (ans_diagrams a) true) config in
  config.

(* ===================================================================== *)
(** * [cli/main.py]: the command [new], up to generation *)
(* ===================================================================== *)

(** The arguments of [new] as Typer hands them over. *)
Record arguments : Type := MkArguments {
  arg_name : option string;
  arg_description : option string;
  arg_author : option string;
  arg_python : string;
  arg_ci : option bool;
  arg_devcontainer : option bool;
  arg_precommit : option bool;
  arg_docker : option bool;
  arg_diagrams : option bool;
  arg_continue : option bool;
  arg_no_interactive : bool;
}.

(** Lines 130-141: the dictionary literal. *)
Definition initial_config (a : arguments) : gmap string value :=
  <["continue" := of_option_bool (arg_continue a)]>
  (<["diagrams" := of_option_bool (arg_diagrams a)]>
  (<["docker" := of_option_bool (arg_docker a)]>
  (<["precommit" := of_option_bool (arg_precommit a)]>
  (<["devcontainer" := of_option_bool (arg_devcontainer a)]>
  (<["ci" := of_option_bool (arg_ci a)]>
  (<["python" := VStr (arg_python a)]>
  (<["author" := of_option_str (arg_author a)]>
  (<["description" := of_option_str (arg_description a)]>
  (<["name" := of_option_str (arg_name a)]> ∅))))))))).

(** The name derived from the base name of the working directory. *)
Definition converted_name (d : defaults) (cwd_name : string) : string :=
  let converted := re_sub_nonword cwd_name in
  match converted with
  | EmptyString => DEFAULT_PROJECT_NAME d
  | String c _ => if py_isdigit c then "_" +:+ converted else converted
  end.

(** Lines 143-154: the handling of ["."]. *)
Definition resolve_name (d : defaults) (cwd_name : string)
    (config : gmap string value) : result (gmap string value) :=
  do name <- subscript config "name";
  if decide (name = VStr ".") then
    inr (<["_use_cwd" := VBool true]>
           (<["name" := VStr (converted_name d cwd_name)]> config))
  else inr (<["_use_cwd" := VBool false]> config).

(** [config[key] = config[key] or d] *)
Definition default_or (key : string) (d : string)
    (config : gmap string value) : result (gmap string value) :=
  do v <- subscript config key;
  inr (<[key := py_or v (VStr d)]> config).

(** [if config[key] is None: config[key] = True] *)
Definition default_flag (key : string)
    (config : gmap string value) : result (gmap string value) :=
  do v <- subscript config key;
  inr (if is_none v then <[key := VBool true]> config else config).

(** Lines 157-171: the branch taken with [--no-interactive]. *)
Definition apply_defaults (d : defaults)
    (config : gmap string value) : result (gmap string value) :=
  do config <- default_or "name" (DEFAULT_PROJECT_NAME d) config;
  do config <- default_or "description" (DEFAULT_DESCRIPTION d) config;
  do config <- default_or "author" (DEFAULT_AUTHOR d) config;
  do config <- default_flag "ci" config;
  do config <- default_flag "devcontainer" config;
  do config <- default_flag "precommit" config;
  do config <- default_flag "docker" config;
  do config <- default_flag "diagrams" config;
  do config <- default_flag "continue" config;
  inr config.

(** Lines 175-180: the name must be a string, then the two validations in
    this order; the first that fails exits. *)
Definition validate (stdlib_module_names : gset string)
    (config : gmap string value) : result string :=
  do name <- subscript config "name";
  match name with
  | VStr project_name =>
      do _ <- _validate_project_name stdlib_module_names project_name;
      do python <- subscript config "python";
      do _ <- _validate_python_version (py_str python);
      inr project_name
  | _ => inl (Exit 1 NameRequired)
  end.

(* ===================================================================== *)
(** * The file system *)
(* ===================================================================== *)

Inductive node : Type :=
  | File (content : string)
  | Dir.

(** The part of the world the program acts on: the directory tree, as a
    finite map from absolute paths to nodes (the root is [[]]); the working
    directory; the paths the operating system refuses to create or to open
    for writing (permissions, quota, a read-only mount); and, as a record of
    what happened, the files written so far, oldest first. *)
Record world : Type := World {
  tree : gmap path node;
  cwd : path;
  denied : gset path;
  write_log : list path;
}.

Definition set_tree (f : gmap path node -> gmap path node) (w : world) : world :=
  {| tree := f (tree w); cwd := cwd w; denied := denied w; write_log := write_log w |}.

Definition log_write (p : path) (w : world) : world :=
  {| tree := tree w; cwd := cwd w; denied := denied w; write_log := write_log w ++ [p] |}.

(** A tree-shaped file system: the root is a directory, and whatever exists
    lies in a directory. *)
Definition wf_tree (t : gmap path node) : Prop :=
  t !! [] = Some Dir ∧ ∀ p x, is_Some (t !! (p ++ [x])) → t !! p = Some Dir.

Definition wf_world (w : world) : Prop :=
  wf_tree (tree w) ∧ tree w !! cwd w = Some Dir.

(** ** Computations with state and exceptions

    [SE S A]: a computation that reads and updates a state [S] and returns
    an [A] or raises.  The state survives an exception, as the effects of a
    Python function do. *)
Definition SE (S A : Type) : Type := S -> result A * S.

Definition se_ret {S A : Type} (a : A) : SE S A := fun s => (inr a, s).

Definition se_raise {S A : Type} (e : exn) : SE S A := fun s => (inl e, s).

Definition se_bind {S A B : Type} (m : SE S A) (k : A -> SE S B) : SE S B :=
  fun s =>
    match m s with
    | (inr a, s') => k a s'
    | (inl e, s') => (inl e, s')
    end.

Definition se_lift {S A : Type} (r : result A) : SE S A := fun s => (r, s).

Notation "x <- m ;; k" := (se_bind m (fun x => k))
  (at level 100, m at next level, right associativity,
   format "x  <-  m ;;  '//' k").
Notation "m ;; k" := (se_bind m (fun _ => k))
  (at level 100, right associativity, format "m ;;  '//' k").

(** [Path.cwd()]: [os.getcwd] fails with [FileNotFoundError] (errno
    [ENOENT]) when the working directory has been removed. *)
Definition get_cwd : SE world path :=
  fun w =>
    if bool_decide (is_Some (tree w !! cwd w)) then (inr (cwd w), w)
    else (inl (OSError ENOENT (cwd w)), w).

(** [p.exists()] *)
Definition path_exists (p : path) : SE world bool :=
  fun w => (inr (bool_decide (is_Some (tree w !! p))), w).

Definition is_dir (w : world) (p : path) : bool :=
  match tree w !! p with Some Dir => true | _ => false end.

(** [p.relative_to(root)] *)
Fixpoint relative_to (p root : path) {struct root} : result path :=
  match root, p with
  | [], _ => inr p
  | r :: root', c :: p' =>
      if String.eqb r c then relative_to p' root' else inl ValueError
  | _ :: _, [] => inl ValueError
  end.

(** The name of [p] when [p] is an entry of the directory [d]. *)
Definition entry_of (d p : path) : option string :=
  match relative_to p d with
  | inr [x] => Some x
  | _ => None
  end.

(** [d.iterdir()], as the names of the entries. *)
Definition iterdir (d : path) : SE world (list string) :=
  fun w =>
    match tree w !! d with
    | Some Dir => (inr (omap (entry_of d) (fst <$> map_to_list (tree w))), w)
    | Some (File _) => (inl (OSError ENOTDIR d), w)
    | None => (inl (OSError ENOENT d), w)
    end.

(** [os.mkdir(p)] *)
Definition os_mkdir (p : path) : SE world unit :=
  fun w =>
    match tree w !! p with
    | Some _ => (inl (OSError EEXIST p), w)
    | None =>
        match tree w !! parent p with
        | None => (inl (OSError ENOENT p), w)
        | Some (File _) => (inl (OSError ENOTDIR p), w)
        | Some Dir =>
            if bool_decide (p ∈ denied w) then (inl (OSError EACCES p), w)
            else (inr tt, set_tree (insert p Dir) w)
        end
    end.

(** [p.mkdir(parents=False, exist_ok=exist_ok)], as [pathlib] writes it: an
    error other than a missing parent is forgiven when [exist_ok] is set
    and [p] is a directory. *)
Definition mkdir_once (exist_ok : bool) (p : path) : SE world unit :=
  fun w =>
    match os_mkdir p w with
    | (inr tt, w') => (inr tt, w')
    | (inl (OSError ENOENT q), w') => (inl (OSError ENOENT q), w')
    | (inl e, w') => if exist_ok && is_dir w' p then (inr tt, w') else (inl e, w')
    end.

(** [p.mkdir(parents=True, exist_ok=True)] for [p = rev rp]: when the parent
    is missing it is made first, in the same way, and [p] is made after
    it. *)
Fixpoint mkdir_parents_rev (rp : list string) : SE world unit :=
  fun w =>
    match os_mkdir (rev rp) w with
    | (inr tt, w') => (inr tt, w')
    | (inl (OSError ENOENT q), w') =>
        match rp with
        | [] => (inl (OSError ENOENT q), w')
        | _ :: rp' =>
            match mkdir_parents_rev rp' w' with
            | (inr tt, w1) => mkdir_once true (rev rp) w1
            | (inl e, w1) => (inl e, w1)
            end
        end
    | (inl e, w') => if is_dir w' (rev rp) then (inr tt, w') else (inl e, w')
    end.

Definition mkdir_parents (p : path) : SE world unit := mkdir_parents_rev (rev p).

(** [p.write_text(content)]: the file is created or truncated.  No
    [encoding] is given, so the text is encoded as the locale says; the
    model takes an encoding that encodes every text, as UTF-8 does.  With
    an encoding that cannot encode [content] the call would open the file
    and then raise [UnicodeEncodeError], which is no [OSError]: that case
    is outside the model.  Plain ASCII texts are safe from it whatever the
    locale. *)
Definition write_text (p : path) (content : string) : SE world unit :=
  fun w =>
    match tree w !! p with
    | Some Dir => (inl (OSError EISDIR p), w)
    | Some (File _) =>
        if bool_decide (p ∈ denied w) then (inl (OSError EACCES p), w)
        else (inr tt, log_write p (set_tree (insert p (File content)) w))
    | None =>
        match tree w !! parent p with
        | None => (inl (OSError ENOENT p), w)
        | Some (File _) => (inl (OSError ENOTDIR p), w)
        | Some Dir =>
            if bool_decide (p ∈ denied w) then (inl (OSError EACCES p), w)
            else (inr tt, log_write p (set_tree (insert p (File content)) w))
        end
    end.

(* ===================================================================== *)
(** * [generators/project.py]: the generator *)
(* ===================================================================== *)

(** The state of a run of [generate_project]: the world, and the list
    [created] that every helper appends to. *)
Record gen_state : Type := GenState {
  gs_world : world;
  created : list path;
}.

Definition in_world {A : Type} (m : SE world A) : SE gen_state A :=
  fun s =>
    let '(r, w) := m (gs_world s) in
    (r, {| gs_world := w; created := created s |}).

(** [created.append(rel)] *)
Definition created_append (rel : path) : SE gen_state unit :=
  fun s => (inr tt, {| gs_world := gs_world s; created := created s ++ [rel] |}).

(** [_write_file(path, content, root=root, created=created)] *)
Definition _write_file (p : path) (content : string) (root : path) : SE gen_state unit :=
  in_world (mkdir_parents (parent p)) ;;
  in_world (write_text p content) ;;
  rel <- se_lift (relative_to p root) ;;
  created_append rel.

(** [_write_init(path, root=root, created=created)] *)
Definition _write_init (p : path) (root : path) : SE gen_state unit :=
  _write_file (pjoin p "__init__.py") "" root.

(** [Path / v]: a [TypeError] unless [v] is a string, which is joined as one
    component (see [path]). *)
Definition path_div (p : path) (v : value) : result path :=
  match v with
  | VStr s => inr (pjoin p s)
  | _ => inl TypeError
  end.

(** [_escape_toml_string(v)]: [v.replace] exists on strings only. *)
Definition escape_value (v : value) : result value :=
  match v with
  | VStr s => inr (VStr (_escape_toml_string s))
  | _ => inl AttributeError
  end.

(** Lines 75-86: the template context. *)
Definition build_context (config : gmap string value) (name : value)
    : result (gmap string value) :=
  do description <- subscript config "description";
  do description <- escape_value description;
  do author <- subscript config "author";
  do author <- escape_value author;
  do python <- subscript config "python";
  do ci <- subscript config "ci";
  do devcontainer <- subscript config "devcontainer";
  do precommit <- subscript config "precommit";
  do docker <- subscript config "docker";
  do diagrams <- subscript config "diagrams";
  do continue <- subscript config "continue";
  inr (<["continue" := continue]>
      (<["diagrams" := diagrams]>
      (<["docker" := docker]>
      (<["precommit" := precommit]>
      (<["devcontainer" := devcontainer]>
      (<["ci" := ci]>
      (<["python_version" := python]>
      (<["author" := author]>
      (<["description" := description]>
      (<["project_name" := name]> ∅)))))))))).

Section Generator.

(** [_render]: the templates are package data outside the sources; the
    rendering of a template in a context is a parameter. *)
Variable render : string -> gmap string value -> string.

Variable context : gmap string value.

Definition _generate_source_tree (src root : path) : SE gen_state unit :=
  _write_file (pjoin src "__init__.py") (render "base/init.py.j2" context) root ;;
  _write_file (pjoin src "__main__.py") (render "base/__main__.py.j2" context) root ;;
  _write_file (pjoin src "main.py") (render "base/main.py.j2" context) root.

Definition _generate_tests (root : path) : SE gen_state unit :=
  let tests := pjoin root "tests" in
  _write_init tests root ;;
  _write_file (pjoin tests "conftest.py") (render "base/conftest.py.j2" context) root ;;
  _write_file (pjoin tests "test_main.py") (render "base/test_main.py.j2" context) root.

Definition _generate_root_files (root : path) : SE gen_state unit :=
  _write_file (pjoin root "pyproject.toml") (render "base/pyproject.toml.j2" context) root ;;
  _write_file (pjoin root "README.md") (render "base/README.md.j2" context) root ;;
  _write_file (pjoin root ".gitignore") (render "base/gitignore.j2" context) root ;;
  _write_file (pjoin root "Makefile") (render "base/Makefile.j2" context) root ;;
  _write_file (pjoin root ".env") (render "base/env.j2" context) root.

Definition _generate_vscode (root : path) : SE gen_state unit :=
  let vscode := pjoin root ".vscode" in
  _write_file (pjoin vscode "launch.json") (render "base/vscode_launch.json.j2" context) root ;;
  _write_file (pjoin vscode "settings.json") (render "base/vscode_settings.json.j2" context) root.

Definition _generate_continue (root : path) : SE gen_state unit :=
  _write_file (pjoin (pjoin root ".continue") "config.yaml")
    (render "base/continue_config.yaml.j2" context) root.

Definition _generate_docker (root : path) : SE gen_state unit :=
  let docker := pjoin root "docker" in
  _write_file (pjoin docker "Dockerfile") (render "docker/Dockerfile.j2" context) root ;;
  _write_file (pjoin docker "docker-compose.yml") (render "docker/docker-compose.yml.j2" context) root ;;
  _write_file (pjoin root ".dockerignore") (render "docker/dockerignore.j2" context) root.

Definition _generate_ci (root : path) : SE gen_state unit :=
  let ci := pjoin (pjoin root ".github") "workflows" in
  _write_file (pjoin ci "ci.yml") (render "ci/ci.yml.j2" context) root.

Definition _generate_devcontainer (root : path) : SE gen_state unit :=
  let devcontainer := pjoin root ".devcontainer" in
  _write_file (pjoin devcontainer "devcontainer.json")
    (render "devcontainer/devcontainer.json.j2" context) root.

Definition _generate_precommit (root : path) : SE gen_state unit :=
  _write_file (pjoin root ".pre-commit-config.yaml")
    (render "precommit/pre-commit-config.yaml.j2" context) root.

Definition _generate_diagrams (root : path) : SE gen_state unit :=
  let diagrams := pjoin (pjoin root "docs") "diagrams" in
  _write_file (pjoin diagrams "class_diagram.puml")
    (render "diagrams/class_diagram.puml.j2" context) root.

(** [if config[key]: group] *)
Definition when_flag (config : gmap string value) (key : string)
    (group : SE gen_state unit) : SE gen_state unit :=
  flag <- se_lift (subscript config key) ;;
  if truthy flag then group else se_ret tt.

(** Lines 88-108: the calls that write, in the order of the source. *)
Definition generate_files (config : gmap string value) (src root : path)
    : SE gen_state unit :=
  _generate_source_tree src root ;;
  _generate_tests root ;;
  _generate_root_files root ;;
  _generate_vscode root ;;
  when_flag config "continue" (_generate_continue root) ;;
  when_flag config "docker" (_generate_docker root) ;;
  when_flag config "ci" (_generate_ci root) ;;
  when_flag config "devcontainer" (_generate_devcontainer root) ;;
  when_flag config "precommit" (_generate_precommit root) ;;
  when_flag config "diagrams" (_generate_diagrams root).

End Generator.

(** Lines 57-70: the destination and its pre-condition. *)
Definition resolve_destination (config : gmap string value) (name : value)
    : SE world path :=
  if truthy (dict_get config "_use_cwd") then
    root <- get_cwd ;;
    entries <- iterdir root ;;
    if existsb (fun x => negb (String.eqb x ".git")) entries
    then se_raise (FileExistsError CwdNotEmpty)
    else se_ret root
  else
    here <- get_cwd ;;
    root <- se_lift (path_div here name) ;;
    taken <- path_exists root ;;
    if (taken : bool) then se_raise (FileExistsError DirectoryExists)
    else se_ret root.

(** Runs the writing part on an empty [created] list; [return created]
    happens only when nothing was raised. *)
Definition with_created (m : SE gen_state unit) : SE world (list path) :=
  fun w =>
    match m {| gs_world := w; created := [] |} with
    | (inr _, s) => (inr (created s), gs_world s)
    | (inl e, s) => (inl e, gs_world s)
    end.

Definition generate_project (render : string -> gmap string value -> string)
    (config : gmap string value) : SE world (list path) :=
  name <- se_lift (subscript config "name") ;;
  root <- resolve_destination config name ;;
  src <- se_lift (path_div (pjoin root "src") name) ;;
  context <- se_lift (build_context config name) ;;
  with_created (generate_files render context config src root).

(* ===================================================================== *)
(** * [cli/main.py]: the configuration summary *)
(* ===================================================================== *)

Definition _yes : string := "[green]yes[/green]".
Definition _no : string := "[dim]no[/dim]".

(** [_yes if v else _no] *)
Definition yes_or_no (v : value) : value := VStr (if truthy v then _yes else _no).

(** [_print_config_summary]: the rows handed to [table.add_row], in order,
    each a label and the cell given for it.  The f-string of the first row
    formats the name as [str] does. *)
Definition _print_config_summary (config : gmap string value)
    : result (list (string * value)) :=
  do name <- subscript config "name";
  do description <- subscript config "description";
  do author <- subscript config "author";
  do python <- subscript config "python";
  do ci <- subscript config "ci";
  do devcontainer <- subscript config "devcontainer";
  do precommit <- subscript config "precommit";
  do docker <- subscript config "docker";
  do diagrams <- subscript config "diagrams";
  do continue <- subscript config "continue";
  inr [ ("Project", VStr ("[bold]" +:+ py_str name +:+ "[/bold]"));
        ("Description", description);
        ("Author", author);
        ("Python", python);
        ("CI", yes_or_no ci);
        ("Devcontainer", yes_or_no devcontainer);
        ("Pre-commit", yes_or_no precommit);
        ("Docker", yes_or_no docker);
        ("Diagrams", yes_or_no diagrams);
        ("Continue", yes_or_no continue) ].

(** [table.add_row(label, cell)] and [console.print(table)].  Rich is a
    library outside the sources.  [add_row] takes [None] as an empty cell
    and raises [NotRenderableError] for an object that is neither a string
    nor renderable; [console.print] reads each cell given as a string as
    console markup and raises [MarkupError] when the text holds a closing
    tag that closes nothing, as ["[/x]"] does.  Which texts the reader of
    markup accepts is the parameter [markup_ok]. *)
Definition renderable (cell : value) : bool :=
  match cell with VBool _ => false | _ => true end.

Definition cell_markup_ok (markup_ok : string -> bool) (cell : value) : bool :=
  match cell with VStr s => markup_ok s | _ => true end.

Definition show_table (markup_ok : string -> bool) (rows : list (string * value))
    : result unit :=
  if negb (forallb (fun row => renderable row.2) rows) then inl NotRenderableError
  else if negb (forallb (fun row => cell_markup_ok markup_ok row.2) rows)
  then inl MarkupError
  else inr tt.

(** [_print_config_summary(config)] as a step of [new]: the rows are built
    and the table is shown, or an exception is raised. *)
Definition show_summary (markup_ok : string -> bool) (config : gmap string value)
    : result unit :=
  do rows <- _print_config_summary config;
  show_table markup_ok rows.

(* ===================================================================== *)
(** * [cli/main.py]: the command [new] *)
(* ===================================================================== *)

(** [except FileExistsError] and [except OSError]: print and exit with
    code 1; any other exception propagates. *)
Definition exit_on_os_error {A : Type} (m : SE world A) : SE world A :=
  fun w =>
    match m w with
    | (inl (FileExistsError _), w') => (inl (Exit 1 GenerationFailed), w')
    | (inl (OSError _ _), w') => (inl (Exit 1 GenerationFailed), w')
    | other => other
    end.

(** Lines 130-173: the configuration handed to validation, with what the
    user answers to the prompts as [a]. *)
Definition resolve_config (d : defaults) (a : answers) (args : arguments)
    (cwd_name : string) : result (gmap string value) :=
  do config <- resolve_name d cwd_name (initial_config args);
  if arg_no_interactive args then apply_defaults d config
  else inr (prompt_for_config d a config).

(** Lines 144-146: [Path.cwd().name], read only when the name given is
    ["."]; no base name is read otherwise, and [resolve_name] uses none. *)
Definition cwd_name_if_dot (args : arguments) : SE world string :=
  if bool_decide (arg_name args = Some ".") then
    here <- get_cwd ;;
    se_ret (path_name here)
  else se_ret "".

(** The command: the configuration is resolved and validated, the summary
    is shown, and the project is generated; the result is the list handed
    to the file-tree display.  Only the generation stands in the [try]. *)
Definition new (d : defaults) (stdlib_module_names : gset string)
    (render : string -> gmap string value -> string)
    (markup_ok : string -> bool)
    (a : answers) (args : arguments) : SE world (list path) :=
  cwd_name <- cwd_name_if_dot args ;;
  config <- se_lift (resolve_config d a args cwd_name) ;;
  _ <- se_lift (validate stdlib_module_names config) ;;
  _ <- se_lift (show_summary markup_ok config) ;;
  exit_on_os_error (generate_project render config).

(* ===================================================================== *)
(** * [cli/main.py]: the file tree *)
(* ===================================================================== *)

(** A [rich.tree.Tree] object: its label and its children, which are
    objects too.  Objects live in a store and are named by their index in
    it, so that the dictionary [nodes] and the variable [current] of
    [_print_file_tree] refer to an object that is extended later; the root
    of the display is object 0. *)
Record tree_node : Type := TreeNode {
  label : string;
  children : list nat;
}.

(** [parent.add(label)]: a new object with this label joins the store, is
    appended to the children of [parent], and is returned. *)
Definition tree_add (parent : nat) (lbl : string) (objects : list tree_node)
    : nat * list tree_node :=
  let node := length objects in
  (node,
   alter (fun n => TreeNode (label n) (children n ++ [node])) parent objects
   ++ [TreeNode lbl []]).

(** The state of [_print_file_tree]: the objects, and [nodes]. *)
Record display : Type := Display {
  store : list tree_node;
  nodes : gmap string nat;
}.

(** ["/".join(parts)] *)
Definition join (parts : list string) : string := String.concat "/" parts.

Definition file_label (part : string) : string := "[green]" +:+ part +:+ "[/green]".
Definition dir_label (part : string) : string := "[bold]" +:+ part +:+ "/[/bold]".
Definition root_label (project_name : string) : string :=
  "[bold bright_blue]" +:+ project_name +:+ "/[/bold bright_blue]".

(** The body of the inner loop, for the part at index [i]; the state is the
    display and [current]. *)
Definition show_part (parts : list string) (st : display * nat)
    (i : nat) (part : string) : display * nat :=
  let '(d, current) := st in
  let key := join (take (i + 1) parts) in
  match nodes d !! key with
  | Some node => (d, node)
  | None =>
      let is_file := bool_decide (i = length parts - 1) in
      let lbl := if is_file then file_label part else dir_label part in
      let '(node, objects) := tree_add current lbl (store d) in
      ({| store := objects; nodes := <[key := node]> (nodes d) |}, node)
  end.

(** The inner loop: [for i, part in enumerate(parts)], from [current = tree]. *)
Definition show_path (d : display) (parts : path) : display :=
  fst (foldl (fun st ip => show_part parts st ip.1 ip.2) (d, 0) (imap pair parts)).

(** The order of relative paths in [pathlib]: that of their lists of
    parts, parts being compared as strings are, by code points. *)
Fixpoint path_ltb (a b : path) : bool :=
  match a, b with
  | _, [] => false
  | [], _ :: _ => true
  | x :: a', y :: b' =>
      match String.compare x y with
      | Lt => true
      | Gt => false
      | Eq => path_ltb a' b'
      end
  end.

(** [sorted(created)]: the sort is stable, so the result is the one of an
    insertion sort that puts an element before its equals to the right. *)
Fixpoint insert_sorted (p : path) (l : list path) : list path :=
  match l with
  | [] => [p]
  | q :: l' => if path_ltb q p then q :: insert_sorted p l' else p :: l
  end.

Definition sorted (l : list path) : list path := foldr insert_sorted [] l.

(** [_print_file_tree]: the display handed to [console.print]. *)
Definition _print_file_tree (project_name : string) (created : list path) : display :=
  foldl show_path
    {| store := [TreeNode (root_label project_name) []]; nodes := ∅ |}
    (sorted created).

(* ===================================================================== *)
(** * [cli/main.py]: the next steps *)
(* ===================================================================== *)

(** [_print_success]: the lines of [steps], which the panel shows under
    "Next steps"; [cd_cmd] is empty in current-directory mode, and an empty
    command adds no line. *)
Definition _print_success (project_name : string) (config : gmap string value)
    : list string :=
  let cd_cmd :=
    if negb (truthy (dict_get config "_use_cwd")) then "cd " +:+ project_name else "" in
  (if truthy (VStr cd_cmd) then ["  [bold]$[/bold] " +:+ cd_cmd] else [])
  ++ [ "  [bold]$[/bold] make setup";
       "  [bold]$[/bold] uv run python -m " +:+ project_name ].

(* ===================================================================== *)
(** * Notions used to state the properties *)
(* ===================================================================== *)

(** Text that a TOML basic string can hold as it is once backslashes and
    double quotes are escaped: no control character other than tab. *)
Definition toml_plain (s : string) : bool :=
  all_chars (fun c => negb (toml_illegal_char c)) s.

(** The shape "digits, dot, digits". *)
Definition two_component (s : string) : Prop :=
  ∃ a b, s = a +:+ "." +:+ b ∧ a ≠ "" ∧ b ≠ ""
         ∧ all_chars is_ascii_digit a = true ∧ all_chars is_ascii_digit b = true.

(** The three text fields and the six feature flags of a configuration. *)
Definition text_keys : list string := ["name"; "description"; "author"].

Definition flag_keys : list string :=
  ["ci"; "devcontainer"; "precommit"; "docker"; "diagrams"; "continue"].

(** Every text field holds a string and every flag a boolean. *)
Definition populated (config : gmap string value) : Prop :=
  (∀ k, k ∈ text_keys → ∃ s, config !! k = Some (VStr s))
  ∧ (∀ k, k ∈ flag_keys → ∃ b, config !! k = Some (VBool b)).

(** Populated, and no text field is the empty string. *)
Definition complete (config : gmap string value) : Prop :=
  (∀ k, k ∈ text_keys → ∃ s, config !! k = Some (VStr s) ∧ s ≠ "")
  ∧ (∀ k, k ∈ flag_keys → ∃ b, config !! k = Some (VBool b)).

(** A bare identifier: not empty, made of letters, digits and underscores,
    and not starting with a digit. *)
Definition bare_identifier (s : string) : Prop :=
  all_chars is_word_char s = true
  ∧ ∃ c r, s = String c r ∧ is_ascii_digit c = false.


(** The name derived from a directory's base name, in the words of the
    specification: every character outside [[A-Za-z0-9_]] becomes an
    underscore; an empty result falls back to the default name; a result
    starting with a digit gets an underscore in front. *)
Definition spec_resolved_name (d : defaults) (base : string) : string :=
  let replaced := map_chars (fun c => if is_word_char c then c else "_"%char) base in
  if String.eqb replaced "" then DEFAULT_PROJECT_NAME d
  else
    match replaced with
    | String c _ => if is_ascii_digit c then String "_" replaced else replaced
    | EmptyString => replaced
    end.

(** Placeholder constants for [devstart/defaults.py], used where an example
    needs a concrete record; the project name is the one the test-suite
    observes ([new -y] creates [myproject]). *)
Definition example_defaults : defaults :=
  {| DEFAULT_PROJECT_NAME := "myproject";
     DEFAULT_DESCRIPTION := "A Python project";
     DEFAULT_AUTHOR := "Author";
     DEFAULT_PYTHON_VERSION := "3.14" |}.

(** A configuration as [new] builds it. *)
Definition example_config (description : string) (continue : value)
    (use_cwd : bool) : gmap string value :=
  <["_use_cwd" := VBool use_cwd]>
  (<["continue" := continue]>
  (<["diagrams" := VBool true]>
  (<["docker" := VBool false]>
  (<["precommit" := VBool true]>
  (<["devcontainer" := VBool false]>
  (<["ci" := VBool true]>
  (<["python" := VStr "3.14"]>
  (<["author" := VStr "Test Author"]>
  (<["description" := VStr description]>
  (<["name" := VStr "testproject"]> ∅)))))))))).

(* ===================================================================== *)
(** * The file system and the table of a run: notions for the proofs *)
(* ===================================================================== *)

(** [w'] is [w] with directories added. *)
Definition grows (w w' : world) : Prop :=
  cwd w' = cwd w ∧ denied w' = denied w ∧ write_log w' = write_log w
  ∧ ∀ q, tree w' !! q = tree w !! q ∨ (tree w !! q = None ∧ tree w' !! q = Some Dir).

Definition is_file (w : world) (p : path) : Prop := ∃ c, tree w !! p = Some (File c).

(** The entries of [created] are, in order, the files written since the
    log was [log0], relative to [root]; each of them is a file. *)
Definition tracks (root : path) (log0 : list path) (s : gen_state) : Prop :=
  write_log (gs_world s) = log0 ++ (app root <$> created s)
  ∧ Forall (fun rel => is_file (gs_world s) (root ++ rel)) (created s).

(** The writing part of a run, as a table of root-relative paths and
    contents processed in order. *)
Fixpoint write_all (root : path) (plan : list (path * string)) : SE gen_state unit :=
  match plan with
  | [] => se_ret tt
  | (rel, content) :: plan' =>
      _write_file (root ++ rel) content root ;; write_all root plan'
  end.

Definition strict_prefix (a b : path) : Prop := a `prefix_of` b ∧ a ≠ b.

(** What the destination looks like during a run that has written [ws]:
    the file system is tree-shaped, the strict ancestors of [root] are
    directories and [root] is no file, nothing is refused at or below
    [root], and below [root] (the [.git] entry apart) the files are the
    written ones and the directories their ancestors. *)
Record dest_inv (root : path) (w : world) (ws : list path) : Prop := DestInv {
  di_wf : wf_tree (tree w);
  di_above : ∀ q, q `prefix_of` root → q ≠ root → tree w !! q = Some Dir;
  di_root : ∀ c, tree w !! root ≠ Some (File c);
  di_file : ∀ rel c, tree w !! (root ++ rel) = Some (File c) → rel ≠ [] →
            rel ∈ ws ∨ head rel = Some ".git";
  di_dir : ∀ rel, tree w !! (root ++ rel) = Some Dir → rel ≠ [] →
           (∃ q, q ∈ ws ∧ strict_prefix rel q) ∨ head rel = Some ".git";
  di_denied : ∀ q, q ∈ denied w → ¬ root `prefix_of` q;
}.

(** A path of the table that can be written next to the written ones. *)
Definition fits (ws : list path) (rel : path) : Prop :=
  rel ≠ [] ∧ head rel ≠ Some ".git"
  ∧ ∀ q, q ∈ ws → ¬ strict_prefix q rel ∧ ¬ strict_prefix rel q.

(** A table all of whose paths fit next to each other. *)
Fixpoint fits_all (ws : list path) (rels : list path) : Prop :=
  match rels with
  | [] => True
  | rel :: rels' => fits ws rel ∧ fits_all (ws ++ [rel]) rels'
  end.

(** The six feature flags, as booleans. *)
Record flags : Type := Flags {
  f_continue : bool;
  f_docker : bool;
  f_ci : bool;
  f_devcontainer : bool;
  f_precommit : bool;
  f_diagrams : bool;
}.

(** The thirteen paths written whatever the flags are. *)
Definition always_paths (name : string) : list path :=
  [ ["src"; name; "__init__.py"]; ["src"; name; "__main__.py"]; ["src"; name; "main.py"];
    ["tests"; "__init__.py"]; ["tests"; "conftest.py"]; ["tests"; "test_main.py"];
    ["pyproject.toml"]; ["README.md"]; [".gitignore"]; ["Makefile"]; [".env"];
    [".vscode"; "launch.json"]; [".vscode"; "settings.json"] ].

Definition group_when (b : bool) {A : Type} (group : list A) : list A :=
  if b then group else [].

(** The paths of the groups whose flag is set, in emission order. *)
Definition optional_paths (f : flags) : list path :=
  group_when (f_continue f) [ [".continue"; "config.yaml"] ]
  ++ group_when (f_docker f)
       [ ["docker"; "Dockerfile"]; ["docker"; "docker-compose.yml"]; [".dockerignore"] ]
  ++ group_when (f_ci f) [ [".github"; "workflows"; "ci.yml"] ]
  ++ group_when (f_devcontainer f) [ [".devcontainer"; "devcontainer.json"] ]
  ++ group_when (f_precommit f) [ [".pre-commit-config.yaml"] ]
  ++ group_when (f_diagrams f) [ ["docs"; "diagrams"; "class_diagram.puml"] ].

Definition expected_paths (name : string) (f : flags) : list path :=
  always_paths name ++ optional_paths f.

Section Plan.

Variable render : string -> gmap string value -> string.
Variable context : gmap string value.

Definition plan_source_tree (name : string) : list (path * string) :=
  [ (["src"; name; "__init__.py"], render "base/init.py.j2" context);
    (["src"; name; "__main__.py"], render "base/__main__.py.j2" context);
    (["src"; name; "main.py"], render "base/main.py.j2" context) ].

Definition plan_tests : list (path * string) :=
  [ (["tests"; "__init__.py"], "");
    (["tests"; "conftest.py"], render "base/conftest.py.j2" context);
    (["tests"; "test_main.py"], render "base/test_main.py.j2" context) ].

Definition plan_root_files : list (path * string) :=
  [ (["pyproject.toml"], render "base/pyproject.toml.j2" context);
    (["README.md"], render "base/README.md.j2" context);
    ([".gitignore"], render "base/gitignore.j2" context);
    (["Makefile"], render "base/Makefile.j2" context);
    ([".env"], render "base/env.j2" context) ].

Definition plan_vscode : list (path * string) :=
  [ ([".vscode"; "launch.json"], render "base/vscode_launch.json.j2" context);
    ([".vscode"; "settings.json"], render "base/vscode_settings.json.j2" context) ].

Definition plan_continue : list (path * string) :=
  [ ([".continue"; "config.yaml"], render "base/continue_config.yaml.j2" context) ].

Definition plan_docker : list (path * string) :=
  [ (["docker"; "Dockerfile"], render "docker/Dockerfile.j2" context);
    (["docker"; "docker-compose.yml"], render "docker/docker-compose.yml.j2" context);
    ([".dockerignore"], render "docker/dockerignore.j2" context) ].

Definition plan_ci : list (path * string) :=
  [ ([".github"; "workflows"; "ci.yml"], render "ci/ci.yml.j2" context) ].

Definition plan_devcontainer : list (path * string) :=
  [ ([".devcontainer"; "devcontainer.json"],
     render "devcontainer/devcontainer.json.j2" context) ].

Definition plan_precommit : list (path * string) :=
  [ ([".pre-commit-config.yaml"], render "precommit/pre-commit-config.yaml.j2" context) ].

Definition plan_diagrams : list (path * string) :=
  [ (["docs"; "diagrams"; "class_diagram.puml"],
     render "diagrams/class_diagram.puml.j2" context) ].

(** The table of a run: what [generate_files] writes, in order. *)
Definition file_plan (name : string) (f : flags) : list (path * string) :=
  plan_source_tree name ++ plan_tests ++ plan_root_files ++ plan_vscode
  ++ group_when (f_continue f) plan_continue
  ++ group_when (f_docker f) plan_docker
  ++ group_when (f_ci f) plan_ci
  ++ group_when (f_devcontainer f) plan_devcontainer
  ++ group_when (f_precommit f) plan_precommit
  ++ group_when (f_diagrams f) plan_diagrams.

End Plan.

(** The flags as [generate_project] reads them: by truth value. *)
Definition config_flags (config : gmap string value) : flags :=
  {| f_continue := truthy (dict_get config "continue");
     f_docker := truthy (dict_get config "docker");
     f_ci := truthy (dict_get config "ci");
     f_devcontainer := truthy (dict_get config "devcontainer");
     f_precommit := truthy (dict_get config "precommit");
     f_diagrams := truthy (dict_get config "diagrams") |}.

(** Two paths with the same first component have the same depth: then
    neither is a strict prefix of the other. *)
Definition level_heads (a b : path) : bool :=
  match a, b with
  | x :: _, y :: _ => if String.eqb x y then Nat.eqb (length a) (length b) else true
  | _, _ => false
  end.

Definition fitsb (ws : list path) (rel : path) : bool :=
  match rel with
  | [] => false
  | x :: _ => negb (String.eqb x ".git") && forallb (level_heads rel) ws
  end.

Fixpoint fits_allb (ws : list path) (rels : list path) : bool :=
  match rels with
  | [] => true
  | rel :: rels' => fitsb ws rel && fits_allb (ws ++ [rel]) rels'
  end.

(** The root that [generate_project] writes to. *)
Definition destination (config : gmap string value) (name : string) (w : world) : path :=
  if truthy (dict_get config "_use_cwd") then cwd w else pjoin (cwd w) name.

(** The pre-condition on the destination: in current-directory mode the
    working directory has no entry other than [.git]; otherwise nothing
    exists at the destination. *)
Definition destination_free (config : gmap string value) (name : string)
    (w : world) : Prop :=
  if truthy (dict_get config "_use_cwd")
  then ∀ x, is_Some (tree w !! (cwd w ++ [x])) → x = ".git"
  else tree w !! (cwd w ++ [name]) = None.

(** Nothing at or below [root] is refused by the operating system. *)
Definition writable_below (root : path) (w : world) : Prop :=
  ∀ q, q ∈ denied w → ¬ root `prefix_of` q.

(** A configuration [generate_project] can read: the name, description and
    author are strings, the version and the six flags are present. *)
Definition readable (config : gmap string value) (name : string) : Prop :=
  config !! "name" = Some (VStr name)
  ∧ (∃ s, config !! "description" = Some (VStr s))
  ∧ (∃ s, config !! "author" = Some (VStr s))
  ∧ is_Some (config !! "python")
  ∧ ∀ k, k ∈ flag_keys → is_Some (config !! k).


(** A fully populated configuration: every text field a string, every
    flag a boolean. *)
Definition fully_populated (config : gmap string value) (name : string) (f : flags) : Prop :=
  config !! "name" = Some (VStr name)
  ∧ (∃ s, config !! "description" = Some (VStr s))
  ∧ (∃ s, config !! "author" = Some (VStr s))
  ∧ (∃ s, config !! "python" = Some (VStr s))
  ∧ config !! "continue" = Some (VBool (f_continue f))
  ∧ config !! "docker" = Some (VBool (f_docker f))
  ∧ config !! "ci" = Some (VBool (f_ci f))
  ∧ config !! "devcontainer" = Some (VBool (f_devcontainer f))
  ∧ config !! "precommit" = Some (VBool (f_precommit f))
  ∧ config !! "diagrams" = Some (VBool (f_diagrams f))
  ∧ ∃ b, config !! "_use_cwd" = Some (VBool b).

Global Instance node_eq_dec : EqDecision node.
Proof. solve_decision. Defined.

(** A decision procedure for [wf_tree]. *)
Definition wf_treeb (t : gmap path node) : bool :=
  bool_decide (t !! [] = Some Dir)
  && forallb (fun p => match p with
                       | [] => true
                       | _ :: _ => bool_decide (t !! parent p = Some Dir)
                       end) (fst <$> map_to_list t).

(** A decision procedure for "the working directory has no entry other
    than [.git]". *)
Definition only_gitb (w : world) : bool :=
  match iterdir (cwd w) w with
  | (inr entries, _) => negb (existsb (fun x => negb (String.eqb x ".git")) entries)
  | _ => false
  end.

(** Example worlds: a home directory that is empty, that holds a [.git]
    directory, a directory named like the project, an unrelated file, or in
    which the [tests] directory of the project cannot be created. *)
Definition home_tree : gmap path node :=
  <[ ["home"; "dev"] := Dir ]> (<[ ["home"] := Dir ]> (<[ [] := Dir ]> ∅)).

Definition world_of (t : gmap path node) (refused : gset path) : world :=
  {| tree := t; cwd := ["home"; "dev"]; denied := refused; write_log := [] |}.

Definition empty_home : world := world_of home_tree ∅.

Definition git_home : world :=
  world_of (<[ ["home"; "dev"; ".git"; "HEAD"] := File "ref: refs/heads/main" ]>
           (<[ ["home"; "dev"; ".git"] := Dir ]> home_tree)) ∅.

Definition taken_home : world :=
  world_of (<[ ["home"; "dev"; "testproject"] := Dir ]> home_tree) ∅.

Definition busy_home : world :=
  world_of (<[ ["home"; "dev"; "somefile.txt"] := File "hello" ]> home_tree) ∅.

Definition refusing_home : world :=
  world_of home_tree {[ ["home"; "dev"; "testproject"; "tests"] ]}.

(** A rendering for the examples: the template's name stands for its text. *)
Definition example_render (template : string) (context : gmap string value) : string :=
  template.

(** A reader of markup for the examples, in the manner of Rich's: a tag is
    a bracketed text that starts with a lower-case letter, [#], [@] or [/];
    a closing tag closes the innermost open tag of its name ([[/]] the
    innermost one), and a text is refused when a closing tag closes
    nothing.  [tag] is the text read since an opening bracket, [pending]
    the open tags, innermost first. *)
Definition tag_start (c : ascii) : bool :=
  (is_ascii_lower c || (c =? "#") || (c =? "@") || (c =? "/"))%char.

Fixpoint close_tag (name : string) (pending : list string) : option (list string) :=
  match pending with
  | [] => None
  | t :: pending' =>
      if String.eqb name "" || String.eqb name t then Some pending'
      else cons t <$> close_tag name pending'
  end.

Fixpoint balanced (s : string) (tag : option string) (pending : list string) : bool :=
  match s with
  | EmptyString => true
  | String c s' =>
      match tag with
      | None => balanced s' (if (c =? "[")%char then Some "" else None) pending
      | Some t =>
          if (c =? "[")%char then balanced s' (Some "") pending
          else if (c =? "]")%char then
            match t with
            | String "/" name =>
                match close_tag name pending with
                | Some pending' => balanced s' None pending'
                | None => false
                end
            | String c0 _ => balanced s' None (if tag_start c0 then t :: pending else pending)
            | EmptyString => balanced s' None pending
            end
          else balanced s' (Some (t +:+ String c "")) pending
      end
  end.

Definition example_markup (s : string) : bool := balanced s None [].


(** What the defaulting step does to a text field and to a flag. *)
Definition defaulted_text (d : string) (v : value) : value := py_or v (VStr d).

Definition defaulted_flag (v : value) : value := if is_none v then VBool true else v.

(** The nine keys the defaulting step reads. *)
Definition default_keys : list string := text_keys ++ flag_keys.

(** A configuration on which the defaulting step has nothing left to do. *)
Definition settled (d : defaults) (config : gmap string value) : Prop :=
  (∃ v, config !! "name" = Some v ∧ defaulted_text (DEFAULT_PROJECT_NAME d) v = v)
  ∧ (∃ v, config !! "description" = Some v
          ∧ defaulted_text (DEFAULT_DESCRIPTION d) v = v)
  ∧ (∃ v, config !! "author" = Some v ∧ defaulted_text (DEFAULT_AUTHOR d) v = v)
  ∧ ∀ k, k ∈ flag_keys → ∃ v, config !! k = Some v ∧ defaulted_flag v = v.

(** The flags of a non-interactive run: those given, the others on. *)
Definition default_flags (args : arguments) : flags :=
  {| f_continue := default true (arg_continue args);
     f_docker := default true (arg_docker args);
     f_ci := default true (arg_ci args);
     f_devcontainer := default true (arg_devcontainer args);
     f_precommit := default true (arg_precommit args);
     f_diagrams := default true (arg_diagrams args) |}.

(** Arguments for the examples: [new NAME --python VERSION --no-docker -y]. *)
Definition example_arguments (name version : string) : arguments :=
  {| arg_name := Some name; arg_description := None; arg_author := None;
     arg_python := version; arg_ci := None; arg_devcontainer := None;
     arg_precommit := None; arg_docker := Some false; arg_diagrams := None;
     arg_continue := None; arg_no_interactive := true |}.

Definition no_answers : answers :=
  Answers None None None None None None None None None.


(** The keys [generate_project] reads with [config[key]]: the eight its
    docstring lists, and [diagrams] and [continue]. *)
Definition required_keys : list string :=
  ["name"; "description"; "author"; "python"; "ci"; "devcontainer"; "precommit";
   "docker"; "diagrams"; "continue"].

(** [w'] is [w] with nodes added at or below [root]: what existed is as it
    was, and so are the working directory and what the system refuses. *)
Definition adds_below (root : path) (w w' : world) : Prop :=
  cwd w' = cwd w ∧ denied w' = denied w
  ∧ ∀ q, tree w' !! q = tree w !! q ∨ (tree w !! q = None ∧ root `prefix_of` q).

(** An error of the operating system. *)
Definition is_os_error (e : exn) : Prop := ∃ en p, e = OSError en p.

(** A configuration that lacks the key [continue], as a caller that follows
    the docstring of [generate_project] would build it. *)
Definition docstring_config : gmap string value :=
  delete "continue" (delete "diagrams" (example_config "A test project" (VBool true) false)).

Definition all_flags : flags := Flags true true true true true true.

(** Two runs for the examples: one that succeeds, one that is refused the
    [tests] directory half-way. *)
Definition example_run : result (list path) * world :=
  generate_project example_render (example_config "A test project" (VBool true) false)
    empty_home.

Definition refused_run : result (list path) * world :=
  generate_project example_render (example_config "A test project" (VBool true) false)
    refusing_home.

(** The nine keys [prompt_for_config] asks about. *)
Definition prompt_keys : list string :=
  ["name"; "description"; "author"; "python"; "ci"; "devcontainer"; "precommit";
   "docker"; "diagrams"].

(** What one question does to an entry: an entry that is missing or [None]
    takes the answer, any other is kept. *)
Definition prompted (asked : value) (entry : option value) : option value :=
  if is_none (default VNone entry) then Some asked else entry.

(** The name entry after the block of [new] that handles ["."]. *)
Definition resolved_name (d : defaults) (base : string) (args : arguments) : value :=
  match arg_name args with
  | Some n => if decide (n = ".") then VStr (converted_name d base) else VStr n
  | None => VNone
  end.

(** Whether [new] scaffolds into the working directory. *)
Definition use_cwd (args : arguments) : bool := bool_decide (arg_name args = Some ".").

(** The flags of an interactive run: those given on the command line, else
    the answers, [True] on an empty line; [continue] is not asked. *)
Definition interactive_flags (a : answers) (args : arguments) : flags :=
  {| f_continue := default false (arg_continue args);
     f_docker := default (default true (ans_docker a)) (arg_docker args);
     f_ci := default (default true (ans_ci a)) (arg_ci args);
     f_devcontainer := default (default true (ans_devcontainer a)) (arg_devcontainer args);
     f_precommit := default (default true (ans_precommit a)) (arg_precommit args);
     f_diagrams := default (default true (ans_diagrams a)) (arg_diagrams args) |}.

(** The answers with another reply to the question about the version. *)
Definition with_python_answer (a : answers) (reply : option string) : answers :=
  {| ans_name := ans_name a; ans_description := ans_description a;
     ans_author := ans_author a; ans_python := reply; ans_ci := ans_ci a;
     ans_devcontainer := ans_devcontainer a; ans_precommit := ans_precommit a;
     ans_docker := ans_docker a; ans_diagrams := ans_diagrams a |}.

(** Arguments for the examples: [new] with no argument at all, and
    [new . -y]. *)
Definition bare_arguments : arguments :=
  {| arg_name := None; arg_description := None; arg_author := None;
     arg_python := "3.14"; arg_ci := None; arg_devcontainer := None;
     arg_precommit := None; arg_docker := None; arg_diagrams := None;
     arg_continue := None; arg_no_interactive := false |}.

Definition dot_arguments : arguments :=
  {| arg_name := Some "."; arg_description := None; arg_author := None;
     arg_python := "3.14"; arg_ci := None; arg_devcontainer := None;
     arg_precommit := None; arg_docker := None; arg_diagrams := None;
     arg_continue := Some false; arg_no_interactive := true |}.

Definition example_answers : answers :=
  Answers (Some "webshop") None (Some "Ada") None None (Some false) None None (Some false).

(** No character of [s] is the path separator. *)
Definition separator_free (s : string) : bool :=
  all_chars (fun c => negb (c =? "/")%char) s.

(** The first file of each optional group. *)
Definition continue_file : path := [".continue"; "config.yaml"].
Definition docker_file : path := ["docker"; "Dockerfile"].
Definition ci_file : path := [".github"; "workflows"; "ci.yml"].
Definition devcontainer_file : path := [".devcontainer"; "devcontainer.json"].
Definition precommit_file : path := [".pre-commit-config.yaml"].
Definition diagrams_file : path := ["docs"; "diagrams"; "class_diagram.puml"].

(** The rows of the summary for the configuration of the examples. *)
Definition example_rows : list (string * value) :=
  match _print_config_summary (example_config "A test project" (VBool true) false) with
  | inr rows => rows
  | inl _ => []
  end.

(** The inner loop by recursion on the parts that remain, [seen] being the
    parts already walked through. *)
Fixpoint show_parts (seen rest : list string) (current : nat) (d : display) : display :=
  match rest with
  | [] => d
  | part :: rest' =>
      let key := join (seen ++ [part]) in
      match nodes d !! key with
      | Some node => show_parts (seen ++ [part]) rest' node d
      | None =>
          let lbl := if bool_decide (rest' = []) then file_label part else dir_label part in
          show_parts (seen ++ [part]) rest' (length (store d))
            {| store := (tree_add current lbl (store d)).2;
               nodes := <[key := length (store d)]> (nodes d) |}
      end
  end.

(** The object shown at a position: one walks down from the root, at each
    step to a child labelled as a file or as a directory of that name. *)
Inductive shown (objects : list tree_node) : list string -> nat -> Prop :=
  | shown_root : shown objects [] 0
  | shown_child pre part parent pn node n :
      shown objects pre parent ->
      objects !! parent = Some pn -> node ∈ children pn ->
      objects !! node = Some n ->
      label n = file_label part ∨ label n = dir_label part ->
      shown objects (pre ++ [part]) node.

(** The created paths are those of files: none is empty, none is a strict
    prefix of another, and no part holds a separator. *)
Definition file_paths (created : list path) : Prop :=
  (∀ p, p ∈ created → p ≠ [] ∧ Forall (fun part => separator_free part = true) p)
  ∧ (∀ p q, p ∈ created → q ∈ created → p `prefix_of` q → p = q).

(** The object that [nodes] holds for a prefix; the root for the empty one. *)
Definition node_at (d : display) (pre : list string) : option nat :=
  match pre with
  | [] => Some 0
  | _ :: _ => nodes d !! join pre
  end.

Definition parts_ok (pre : list string) : Prop :=
  Forall (fun part => separator_free part = true) pre.

(** [C] lists the prefixes that have an object and [F] those among them
    that are labelled as files; the keys of [nodes] are the keys of the
    prefixes of [C], each object hangs below the object of the prefix one
    part shorter, and the children of an object are the objects of the
    prefixes one part longer. *)
Record tree_inv (top : string) (C F : list (list string)) (d : display) : Prop := TreeInv {
  ti_root : ∃ rn, store d !! 0 = Some rn ∧ label rn = top;
  ti_dom : ∀ key node, nodes d !! key = Some node → ∃ pre, pre ∈ C ∧ key = join pre;
  ti_cov : ∀ pre, pre ∈ C → pre ≠ [] ∧ parts_ok pre ∧ is_Some (nodes d !! join pre);
  ti_closed : ∀ pre x, pre ++ [x] ∈ C → pre = [] ∨ pre ∈ C;
  ti_node : ∀ pre x node,
    pre ++ [x] ∈ C → nodes d !! join (pre ++ [x]) = Some node →
    0 < node
    ∧ ∃ n parent pn,
        store d !! node = Some n
        ∧ label n = (if bool_decide (pre ++ [x] ∈ F) then file_label x else dir_label x)
        ∧ node_at d pre = Some parent
        ∧ store d !! parent = Some pn ∧ node ∈ children pn;
  ti_child : ∀ parent pn node,
    store d !! parent = Some pn → node ∈ children pn →
    ∃ pre x, pre ++ [x] ∈ C ∧ node_at d pre = Some parent
             ∧ nodes d !! join (pre ++ [x]) = Some node;
  ti_inj : ∀ pre pre' node,
    pre ∈ C → pre' ∈ C →
    nodes d !! join pre = Some node → nodes d !! join pre' = Some node → pre = pre';
  ti_bound : ∀ key node, nodes d !! key = Some node → node < length (store d);
  ti_nodup : ∀ id n, store d !! id = Some n → NoDup (children n);
  ti_files : ∀ q, q ∈ F → q ∈ C;
}.

(** The prefixes of the paths of [P] that are not empty. *)
Definition covers (P : list path) (q : list string) : Prop :=
  q ≠ [] ∧ ∃ p, p ∈ P ∧ q `prefix_of` p.

(** A decision procedure for [file_paths]. *)
Definition file_pathsb (created : list path) : bool :=
  bool_decide
    (Forall (fun p => p ≠ [] ∧ Forall (fun part => separator_free part = true) p) created
     ∧ Forall (fun p => Forall (fun q => p `prefix_of` q → p = q) created) created).

(** Runs of [new] that succeed: with a name and [-y], with ["."] and [-y]
    in a directory that holds [.git], and with the prompts answered. *)
Definition example_new : result (list path) * world :=
  new example_defaults ∅ example_render example_markup no_answers
    (example_arguments "myapp" "3.13") empty_home.

Definition example_dot_new : result (list path) * world :=
  new example_defaults ∅ example_render example_markup no_answers dot_arguments git_home.

Definition example_interactive_new : result (list path) * world :=
  new example_defaults ∅ example_render example_markup example_answers bare_arguments
    empty_home.

(** The arguments with [--no-interactive] set or not. *)
Definition with_no_interactive (args : arguments) (y : bool) : arguments :=
  {| arg_name := arg_name args; arg_description := arg_description args;
     arg_author := arg_author args; arg_python := arg_python args;
     arg_ci := arg_ci args; arg_devcontainer := arg_devcontainer args;
     arg_precommit := arg_precommit args; arg_docker := arg_docker args;
     arg_diagrams := arg_diagrams args; arg_continue := arg_continue args;
     arg_no_interactive := y |}.

(** No text given on the command line is the empty string. *)
Definition no_empty_text (args : arguments) : Prop :=
  arg_name args ≠ Some "" ∧ arg_description args ≠ Some "" ∧ arg_author args ≠ Some "".

(** [new] asks for the working directory, which is gone. *)
Definition cwd_gone (args : arguments) (w : world) : bool :=
  bool_decide (arg_name args = Some ".")
  && negb (bool_decide (is_Some (tree w !! cwd w))).

(** Plain ASCII text, which every locale encoding encodes. *)
Definition ascii_text (s : string) : bool :=
  all_chars (fun c => (c <? ascii_of_nat 128)%char) s.

(** Every text of the table is plain ASCII. *)
Definition ascii_contents (plan : list (path * string)) : bool :=
  forallb (fun entry => ascii_text entry.2) plan.

(** The keys of the dictionary that [new] builds. *)
Definition config_keys : list string :=
  ["name"; "description"; "author"; "python"; "ci"; "devcontainer"; "precommit";
   "docker"; "diagrams"; "continue"; "_use_cwd"].

(* ===================================================================== *)
(** * Worked examples *)
(* ===================================================================== *)

Example escape_author_example :
  _escape_toml_string author_example
  = "O'Brien \" +:+ String dquote ("Bob\" +:+ String dquote EmptyString).
Proof. reflexivity. Qed.

Example roundtrip_author_example :
  toml_parse_basic_string (toml_quote (_escape_toml_string author_example) "")
  = Some (author_example, "").
Proof. reflexivity. Qed.

Example re_match_version_examples :
  map re_match_version ["banana"; "3"; "3.14.1"; "3.13"; "3.14"; ""; "."; "3."; ".1"]
  = [false; false; false; true; true; false; false; false; false].
Proof. reflexivity. Qed.

Example re_match_identifier_examples :
  map re_match_identifier ["123bad"; "my-project"; "my project"; "_"; "_private"; "a1"; ""]
  = [false; false; false; true; true; true; false].
Proof. reflexivity. Qed.


(* ===================================================================== *)
(** * Strings: escaping and the regular expressions *)
(* ===================================================================== *)

Lemma escape_cons c s :
  _escape_toml_string (String c s) =
    if (c =? backslash)%char
    then String backslash (String backslash (_escape_toml_string s))
    else if (c =? dquote)%char
    then String backslash (String dquote (_escape_toml_string s))
    else String c (_escape_toml_string s).
Proof.
  unfold _escape_toml_string. simpl.
  destruct (Ascii.eqb_spec c backslash) as [->|Hb]; [reflexivity|].
  simpl. destruct (Ascii.eqb_spec c dquote) as [->|Hq]; reflexivity.
Qed.

Lemma toml_roundtrip_plain s rest :
  toml_plain s = true ->
  toml_parse_basic_string (toml_quote (_escape_toml_string s) rest) = Some (s, rest).
Proof.
  unfold toml_quote, toml_plain. induction s as [|c s IH]; intros H.
  - reflexivity.
  - simpl in H. apply andb_true_iff in H as [Hc Hs]. specialize (IH Hs).
    rewrite escape_cons.
    destruct (Ascii.eqb_spec c backslash) as [->|Hb].
    + simpl. simpl in IH. rewrite IH. reflexivity.
    + destruct (Ascii.eqb_spec c dquote) as [->|Hq].
      * simpl. simpl in IH. rewrite IH. reflexivity.
      * simpl. apply Ascii.eqb_neq in Hb, Hq. rewrite Hb, Hq.
        apply negb_true_iff in Hc. rewrite Hc. simpl in IH. rewrite IH. reflexivity.
Qed.

Lemma toml_roundtrip_only_plain s rest :
  toml_parse_basic_string (toml_quote (_escape_toml_string s) rest) = Some (s, rest) ->
  toml_plain s = true.
Proof.
  unfold toml_quote, toml_plain. induction s as [|c s IH]; intros H.
  - reflexivity.
  - rewrite escape_cons in H. simpl. apply andb_true_iff.
    destruct (Ascii.eqb_spec c backslash) as [->|Hb].
    + split; [reflexivity|]. apply IH. simpl in H.
      destruct (toml_parse_basic_string _) as [[v r]|]; [|discriminate].
      congruence.
    + destruct (Ascii.eqb_spec c dquote) as [->|Hq].
      * split; [reflexivity|]. apply IH. simpl in H.
        destruct (toml_parse_basic_string _) as [[v r]|]; [|discriminate].
        congruence.
      * simpl in H. apply Ascii.eqb_neq in Hb, Hq. rewrite Hb, Hq in H.
        destruct (toml_illegal_char c); [discriminate|].
        split; [reflexivity|]. apply IH.
        destruct (toml_parse_basic_string _) as [[v r]|]; [|discriminate].
        congruence.
Qed.

(** C3 (as amended).  Escaping with [_escape_toml_string], embedding between
    double quotes and reading the TOML basic string back yields the original
    text and leaves what follows the closing quote untouched exactly when
    the text holds no control character other than tab; backslashes, double
    quotes and apostrophes are all covered. *)
Theorem escape_roundtrip_iff_plain (s rest : string) :
  toml_parse_basic_string (toml_quote (_escape_toml_string s) rest) = Some (s, rest)
  <-> toml_plain s = true.
Proof. split; [apply toml_roundtrip_only_plain | apply toml_roundtrip_plain]. Qed.

(** C3, counterexample: a description made of one line feed is escaped to
    itself, and the result is not a TOML basic string. *)
Lemma escape_roundtrip_fails_on_newline :
  _escape_toml_string (String newline "") = String newline ""
  /\ toml_parse_basic_string
       (toml_quote (_escape_toml_string (String newline "")) "") = None.
Proof. split; reflexivity. Qed.

Lemma all_chars_app p a b :
  all_chars p (a +:+ b) = all_chars p a && all_chars p b.
Proof.
  induction a as [|c a IH]; simpl; [reflexivity|].
  rewrite IH. apply andb_assoc.
Qed.

Lemma span_chars_spec p s a r :
  span_chars p s = (a, r) ->
  s = a +:+ r /\ all_chars p a = true
  /\ match r with EmptyString => True | String c _ => p c = false end.
Proof.
  revert a r. induction s as [|c s IH]; intros a r H; simpl in H.
  - inversion H; subst. auto.
  - destruct (p c) eqn:Hc.
    + destruct (span_chars p s) as [a' r'] eqn:Hs. inversion H; subst.
      destruct (IH _ _ eq_refl) as (-> & Ha & Hr).
      simpl. rewrite Hc, Ha. auto.
    + inversion H; subst. simpl. auto.
Qed.

Lemma span_chars_app p a r :
  all_chars p a = true ->
  match r with EmptyString => True | String c _ => p c = false end ->
  span_chars p (a +:+ r) = (a, r).
Proof.
  intros Ha Hr. induction a as [|c a IH]; simpl in *.
  - destruct r as [|c r]; [reflexivity|]. simpl. rewrite Hr. reflexivity.
  - apply andb_true_iff in Ha as [Hc Ha]. rewrite Hc, (IH Ha). reflexivity.
Qed.

Lemma version_body_spec s : version_body s = true <-> two_component s.
Proof.
  unfold version_body, two_component. split.
  - destruct (span_chars is_ascii_digit s) as [a r] eqn:Hs.
    apply span_chars_spec in Hs as (-> & Ha & _).
    destruct a as [|c a]; [discriminate|].
    destruct r as [|d r]; [discriminate|].
    destruct (Ascii.eqb_spec d ".") as [->|Hd].
    2:{ destruct d as [[] [] [] [] [] [] [] []]; try discriminate.
        contradiction Hd; reflexivity. }
    destruct r as [|e r]; [discriminate|]. intros Hb.
    exists (String c a), (String e r). repeat split; try done.
  - intros (a & b & -> & Ha & Hb & Hda & Hdb).
    rewrite span_chars_app by (try done).
    destruct a as [|c a]; [done|]. destruct b as [|e b]; [done|].
    simpl. exact Hdb.
Qed.

Lemma strip_final_newline_spec s t :
  strip_final_newline s = Some t <-> s = t +:+ String newline "".
Proof.
  revert t. induction s as [|c s IH]; intros t; simpl.
  - split; [discriminate|]. destruct t; discriminate.
  - destruct s as [|c' s'].
    + destruct (Ascii.eqb_spec c newline) as [->|Hc]; split; intros H.
      * inversion H; reflexivity.
      * destruct t as [|x [|y t]]; simpl in H; try discriminate; reflexivity.
      * discriminate.
      * destruct t as [|x [|y t]]; simpl in H; try discriminate.
        inversion H; contradiction.
    + split; intros H.
      * destruct (strip_final_newline (String c' s')) as [u|]; [|discriminate].
        inversion H; subst. simpl. rewrite (proj1 (IH u) eq_refl). reflexivity.
      * destruct t as [|x t]; simpl in H; [discriminate|].
        inversion H as [[Hx Ht]]. subst x.
        rewrite (proj2 (IH t) Ht). reflexivity.
Qed.

(** What [_validate_python_version] accepts: the two-component shape,
    alone or followed by one line feed. *)
Lemma validate_python_version_accepts version :
  _validate_python_version version = inr tt
  <-> two_component version
      \/ ∃ t, version = t +:+ String newline "" ∧ two_component t.
Proof.
  unfold _validate_python_version, re_match_version, re_match_anchored.
  destruct (version_body version) eqn:Hb; simpl.
  - split; [|reflexivity]. intros _. left. apply version_body_spec, Hb.
  - destruct (strip_final_newline version) as [t|] eqn:Ht.
    + apply strip_final_newline_spec in Ht.
      destruct (version_body t) eqn:Hbt; simpl.
      * split; [|reflexivity]. intros _. right. exists t.
        split; [done|]. apply version_body_spec, Hbt.
      * split; [discriminate|]. intros [H|(u & Hu & H)].
        -- apply version_body_spec in H. congruence.
        -- rewrite Ht in Hu. assert (t = u) as ->.
           { clear -Hu. revert u Hu. induction t as [|c t IH]; intros [|d u] H;
               simpl in H; try done.
             - destruct u; discriminate.
             - destruct t; discriminate.
             - inversion H; subst. f_equal. auto. }
           apply version_body_spec in H. congruence.
    + split; [discriminate|]. intros [H|(u & Hu & H)].
      * apply version_body_spec in H. congruence.
      * apply strip_final_newline_spec in Hu. congruence.
Qed.

Lemma validate_python_version_without_newline version :
  strip_final_newline version = None ->
  _validate_python_version version = inr tt <-> two_component version.
Proof.
  intros Hn. rewrite validate_python_version_accepts. split; [|auto].
  intros [H|(t & Ht & _)]; [done|].
  apply strip_final_newline_spec in Ht. congruence.
Qed.

Example validate_python_version_examples :
  map _validate_python_version ["banana"; "3"; "3.14.1"; "3.13"; "3.14"]
  = [inl (Exit 1 InvalidVersion); inl (Exit 1 InvalidVersion);
     inl (Exit 1 InvalidVersion); inr tt; inr tt].
Proof. reflexivity. Qed.

(** C6, at the failing input: the version ["3.14"] followed by a line feed
    is not of the shape digits, dot, digits, and [_validate_python_version]
    accepts it, because [$] also matches before a final line feed. *)
Theorem validate_python_version_trailing_newline :
  _validate_python_version ("3.14" +:+ String newline "") = inr tt
  /\ ~ two_component ("3.14" +:+ String newline "").
Proof.
  split; [reflexivity|]. intros H. apply version_body_spec in H. discriminate.
Qed.

(* ===================================================================== *)
(** * Validation of the project name *)
(* ===================================================================== *)

Lemma is_ident_start_spec c :
  is_ident_start c = is_word_char c && negb (is_ascii_digit c).
Proof. destruct c as [[] [] [] [] [] [] [] []]; reflexivity. Qed.

Lemma identifier_body_spec s : identifier_body s = true <-> bare_identifier s.
Proof.
  unfold bare_identifier. destruct s as [|c s]; simpl.
  - split; [discriminate|]. intros (_ & c & r & H & _). discriminate.
  - rewrite is_ident_start_spec. split.
    + intros H. apply andb_true_iff in H as [H Hs].
      apply andb_true_iff in H as [Hw Hd]. apply negb_true_iff in Hd.
      rewrite Hw, Hs. split; [reflexivity|]. eauto.
    + intros (H & c' & r & Heq & Hd). inversion Heq; subst.
      apply andb_true_iff in H as [Hw Hs]. rewrite Hw, Hd, Hs. reflexivity.
Qed.

Lemma re_match_identifier_without_newline name :
  strip_final_newline name = None ->
  re_match_identifier name = identifier_body name.
Proof.
  intros H. unfold re_match_identifier, re_match_anchored. rewrite H.
  apply orb_false_r.
Qed.





(** The examples of the specification. *)
Example validate_project_name_examples (stdlib_module_names : gset string) :
  _validate_project_name stdlib_module_names "123bad" = inl (Exit 1 (InvalidName "123bad"))
  ∧ _validate_project_name stdlib_module_names "my-project" = inl (Exit 1 (InvalidName "my_project"))
  ∧ _validate_project_name stdlib_module_names "my project" = inl (Exit 1 (InvalidName "my_project"))
  ∧ _validate_project_name stdlib_module_names "class" = inl (Exit 1 KeywordName)
  ∧ _validate_project_name stdlib_module_names "__init__" = inl (Exit 1 DunderName)
  ∧ _validate_project_name stdlib_module_names "__" = inl (Exit 1 DunderName)
  ∧ ("json" ∈ stdlib_module_names →
     _validate_project_name stdlib_module_names "json" = inl (Exit 1 ReservedName))
  ∧ ("_" ∉ stdlib_module_names → _validate_project_name stdlib_module_names "_" = inr tt)
  ∧ ("_private" ∉ stdlib_module_names →
     _validate_project_name stdlib_module_names "_private" = inr tt).
Proof.
  repeat split; try reflexivity; intros H; unfold _validate_project_name; simpl.
  - rewrite (bool_decide_eq_true_2 _ H). rewrite orb_true_r. reflexivity.
  - rewrite (bool_decide_eq_false_2 _ H). reflexivity.
  - rewrite (bool_decide_eq_false_2 _ H). reflexivity.
Qed.

(** A bare identifier followed by a line feed is accepted: [$] matches
    before the line feed that ends the name. *)
Example validate_project_name_trailing_newline :
  _validate_project_name ∅ ("abc" +:+ String newline "") = inr tt.
Proof. reflexivity. Qed.

(* ===================================================================== *)
(** * Name resolution *)
(* ===================================================================== *)

Lemma is_word_char_isdigit c :
  is_word_char c = true -> py_isdigit c = is_ascii_digit c.
Proof. destruct c as [[] [] [] [] [] [] [] []]; try reflexivity; discriminate. Qed.

Lemma re_sub_nonword_word s : all_chars is_word_char (re_sub_nonword s) = true.
Proof.
  unfold re_sub_nonword. induction s as [|c s IH]; simpl; [reflexivity|].
  rewrite IH, andb_true_r. destruct (is_word_char c) eqn:H; [exact H | reflexivity].
Qed.

Lemma converted_name_spec d base :
  converted_name d base = spec_resolved_name d base.
Proof.
  unfold converted_name, spec_resolved_name.
  pose proof (re_sub_nonword_word base) as Hw. unfold re_sub_nonword in *.
  destruct (map_chars _ base) as [|c r]; [reflexivity|]. simpl.
  simpl in Hw. apply andb_true_iff in Hw as [Hc _].
  rewrite (is_word_char_isdigit _ Hc). reflexivity.
Qed.

(** C7.  When the raw name is ["."], the name becomes the one derived from
    the base name of the working directory (every character outside
    [[A-Za-z0-9_]] replaced by an underscore, the default name if that is
    empty, an underscore in front if it starts with a digit) and
    [_use_cwd] is set to true; any other raw name is left as it is and
    [_use_cwd] is set to false.  ["2cool"] gives ["_2cool"] and ["my-app!"]
    gives ["my_app_"]. *)
Theorem resolve_name_spec (d : defaults) (base : string)
    (config : gmap string value) (rawName : value) :
  config !! "name" = Some rawName ->
  (rawName = VStr "." ->
     resolve_name d base config
     = inr (<["_use_cwd" := VBool true]>
              (<["name" := VStr (spec_resolved_name d base)]> config)))
  ∧ (rawName ≠ VStr "." ->
     resolve_name d base config = inr (<["_use_cwd" := VBool false]> config)
     ∧ (<["_use_cwd" := VBool false]> config) !! "name" = Some rawName)
  ∧ spec_resolved_name d "2cool" = "_2cool"
  ∧ spec_resolved_name d "my-app!" = "my_app_"
  ∧ spec_resolved_name d "" = DEFAULT_PROJECT_NAME d.
Proof.
  intros Hname. unfold resolve_name, subscript. rewrite Hname.
  repeat split.
  - intros ->. rewrite decide_True by reflexivity. rewrite converted_name_spec. reflexivity.
  - rewrite decide_False by assumption. reflexivity.
  - rewrite lookup_insert_ne by discriminate. exact Hname.
Qed.

Lemma resolve_name_spec_witness :
  resolve_name example_defaults "2cool" (<["name" := VStr "."]> ∅)
  = inr (<["_use_cwd" := VBool true]>
           (<["name" := VStr "_2cool"]> (<["name" := VStr "."]> ∅))).
Proof.
  apply (resolve_name_spec example_defaults "2cool" (<["name" := VStr "."]> ∅) (VStr ".")).
  - reflexivity.
  - reflexivity.
Defined.

(* ===================================================================== *)
(** * The order of the two validations *)
(* ===================================================================== *)

Lemma validate_project_name_not_version stdlib_module_names name :
  _validate_project_name stdlib_module_names name ≠ inl (Exit 1 InvalidVersion).
Proof. unfold _validate_project_name. repeat case_match; discriminate. Qed.

(** C10.  [validate] raises at most one exit: an invalid name is reported
    whatever the version is, and the version error is reported exactly when
    the name is valid and the version is not. *)
Theorem validate_name_before_version (stdlib_module_names : gset string)
    (config : gmap string value) (name : string) (python : value) :
  config !! "name" = Some (VStr name) ->
  config !! "python" = Some python ->
  (∀ e, _validate_project_name stdlib_module_names name = inl e →
        validate stdlib_module_names config = inl e)
  ∧ (validate stdlib_module_names config = inl (Exit 1 InvalidVersion)
     ↔ _validate_project_name stdlib_module_names name = inr tt
       ∧ _validate_python_version (py_str python) = inl (Exit 1 InvalidVersion))
  ∧ (validate stdlib_module_names config = inr name
     ↔ _validate_project_name stdlib_module_names name = inr tt
       ∧ _validate_python_version (py_str python) = inr tt).
Proof.
  intros Hn Hp. unfold validate, subscript. rewrite Hn, Hp.
  pose proof (validate_project_name_not_version stdlib_module_names name) as Hnv.
  destruct (_validate_project_name stdlib_module_names name) as [e|[]].
  - split; [intros e' He'; congruence|]. split; split.
    + intros He. congruence.
    + intros [He _]. discriminate.
    + discriminate.
    + intros [He _]. discriminate.
  - split; [discriminate|].
    destruct (_validate_python_version (py_str python)) as [e|[]] eqn:Hpv.
    + assert (e = Exit 1 InvalidVersion) as ->.
      { revert Hpv. unfold _validate_python_version. case_match; congruence. }
      split; split; try done. intros [_ ?]; discriminate.
    + split; split; try done. intros [_ ?]; discriminate.
Qed.

Lemma validate_name_before_version_witness :
  validate ∅ (<["python" := VStr "banana"]> (<["name" := VStr "123bad"]> ∅))
  = inl (Exit 1 (InvalidName "123bad")).
Proof.
  apply (validate_name_before_version ∅
           (<["python" := VStr "banana"]> (<["name" := VStr "123bad"]> ∅))
           "123bad" (VStr "banana")); reflexivity.
Defined.

(* ===================================================================== *)
(** * The defaulting step *)
(* ===================================================================== *)

Ltac in_keys :=
  unfold text_keys, flag_keys;
  repeat first [apply list_elem_of_here | apply list_elem_of_further].

Lemma default_or_id key d (config : gmap string value) s :
  config !! key = Some (VStr s) -> s ≠ "" ->
  default_or key d config = inr config.
Proof.
  intros Hk Hs. unfold default_or, subscript, py_or. rewrite Hk. simpl.
  destruct (String.eqb_spec s ""); [done|]. simpl.
  rewrite insert_id by done. reflexivity.
Qed.

Lemma default_flag_id key (config : gmap string value) b :
  config !! key = Some (VBool b) -> default_flag key config = inr config.
Proof. intros Hk. unfold default_flag, subscript. rewrite Hk. reflexivity. Qed.

(** C8 (as amended).  On a configuration whose name, description and author
    are non-empty strings and whose six flags are booleans, the defaulting
    step of [--no-interactive] changes nothing; flags set to false stay
    false. *)
Theorem apply_defaults_complete (d : defaults) (config : gmap string value) :
  complete config -> apply_defaults d config = inr config.
Proof.
  intros [Ht Hf]. unfold apply_defaults.
  destruct (Ht "name") as (s1 & H1 & N1); [in_keys|].
  destruct (Ht "description") as (s2 & H2 & N2); [in_keys|].
  destruct (Ht "author") as (s3 & H3 & N3); [in_keys|].
  rewrite (default_or_id _ _ _ _ H1 N1), (default_or_id _ _ _ _ H2 N2),
    (default_or_id _ _ _ _ H3 N3).
  destruct (Hf "ci") as (b1 & F1); [in_keys|].
  destruct (Hf "devcontainer") as (b2 & F2); [in_keys|].
  destruct (Hf "precommit") as (b3 & F3); [in_keys|].
  destruct (Hf "docker") as (b4 & F4); [in_keys|].
  destruct (Hf "diagrams") as (b5 & F5); [in_keys|].
  destruct (Hf "continue") as (b6 & F6); [in_keys|].
  rewrite (default_flag_id _ _ _ F1), (default_flag_id _ _ _ F2),
    (default_flag_id _ _ _ F3), (default_flag_id _ _ _ F4),
    (default_flag_id _ _ _ F5), (default_flag_id _ _ _ F6).
  reflexivity.
Qed.

(* ===================================================================== *)
(** * The file system *)
(* ===================================================================== *)

Lemma parent_snoc (p : path) x : parent (p ++ [x]) = p.
Proof. apply removelast_last. Qed.

Lemma relative_to_app (root rel : path) : relative_to (root ++ rel) root = inr rel.
Proof.
  induction root as [|r root IH]; simpl; [reflexivity|].
  rewrite String.eqb_refl. exact IH.
Qed.

Lemma relative_to_inr (p root rel : path) :
  relative_to p root = inr rel <-> p = root ++ rel.
Proof.
  split; [|intros ->; apply relative_to_app].
  revert p. induction root as [|r root IH]; intros p; simpl.
  - congruence.
  - destruct p as [|c p]; [discriminate|].
    destruct (String.eqb_spec r c) as [->|]; [|discriminate].
    intros H. f_equal. auto.
Qed.

Lemma grows_refl w : grows w w.
Proof. repeat split; auto. Qed.

Lemma grows_trans w1 w2 w3 : grows w1 w2 -> grows w2 w3 -> grows w1 w3.
Proof.
  intros (C1 & D1 & L1 & T1) (C2 & D2 & L2 & T2).
  repeat split; try congruence.
  intros q. destruct (T1 q) as [E1|[N1 E1]], (T2 q) as [E2|[N2 E2]].
  - left; congruence.
  - right; split; congruence.
  - right; split; congruence.
  - congruence.
Qed.

Lemma os_mkdir_ok p w :
  tree w !! p = None -> tree w !! parent p = Some Dir -> p ∉ denied w ->
  os_mkdir p w = (inr tt, set_tree (insert p Dir) w).
Proof.
  intros Hp Hpar Hd. unfold os_mkdir. rewrite Hp, Hpar.
  rewrite bool_decide_eq_false_2 by done. reflexivity.
Qed.

Lemma os_mkdir_inv p w r w' :
  os_mkdir p w = (r, w') ->
  (r = inr tt ∧ tree w !! p = None ∧ w' = set_tree (insert p Dir) w)
  ∨ (∃ e, r = inl e ∧ w' = w).
Proof.
  unfold os_mkdir. intros H.
  repeat case_match; simplify_eq; eauto.
Qed.

Lemma grows_insert_dir p w :
  tree w !! p = None -> grows w (set_tree (insert p Dir) w).
Proof.
  intros Hp. repeat split. intros q. simpl.
  destruct (decide (p = q)) as [->|Hne].
  - right. rewrite lookup_insert_eq. done.
  - left. rewrite lookup_insert_ne by done. done.
Qed.

Lemma os_mkdir_grows p w r w' :
  os_mkdir p w = (r, w') ->
  grows w w' ∧ (r = inr tt -> tree w' !! p = Some Dir).
Proof.
  intros H. apply os_mkdir_inv in H as [(-> & Hp & ->)|(e & -> & ->)].
  - split; [by apply grows_insert_dir|]. intros _. simpl. apply lookup_insert_eq.
  - split; [apply grows_refl | discriminate].
Qed.

Lemma is_dir_true w p : is_dir w p = true <-> tree w !! p = Some Dir.
Proof. unfold is_dir. repeat case_match; split; congruence. Qed.

Lemma mkdir_once_grows b p w r w' :
  mkdir_once b p w = (r, w') ->
  grows w w' ∧ (r = inr tt -> tree w' !! p = Some Dir).
Proof.
  unfold mkdir_once. intros H.
  destruct (os_mkdir p w) as [r1 w1] eqn:Hm.
  pose proof (os_mkdir_grows _ _ _ _ Hm) as [Hg Hd].
  destruct r1 as [e|[]].
  - destruct (os_mkdir_inv _ _ _ _ Hm) as [(? & _)|(e' & ? & ->)]; [discriminate|].
    destruct e as [| | | | | [] q| | |]; simplify_eq;
      try (destruct (b && is_dir w p) eqn:Hb; simplify_eq;
           [apply andb_true_iff in Hb as [_ Hb]; apply is_dir_true in Hb|];
           split; (apply grows_refl || done || discriminate)).
    split; [apply grows_refl | discriminate].
  - simplify_eq. auto.
Qed.

Lemma mkdir_parents_rev_grows rp : ∀ w r w',
  mkdir_parents_rev rp w = (r, w') ->
  grows w w' ∧ (r = inr tt -> tree w' !! rev rp = Some Dir).
Proof.
  induction rp as [|x rp IH]; intros w r w' H; simpl in H.
  - destruct (os_mkdir [] w) as [r1 w1] eqn:Hm.
    pose proof (os_mkdir_grows _ _ _ _ Hm) as [Hg Hd].
    destruct (os_mkdir_inv _ _ _ _ Hm) as [(-> & _ & ->)|(e' & -> & ->)].
    + simplify_eq. auto.
    + destruct e' as [| | | | | [] q| | |]; simplify_eq;
        try (destruct (is_dir w []) eqn:Hb; simplify_eq;
             [apply is_dir_true in Hb|]; split; (apply grows_refl || done || discriminate)).
      split; [apply grows_refl | discriminate].
  - destruct (os_mkdir (rev rp ++ [x]) w) as [r1 w1] eqn:Hm.
    pose proof (os_mkdir_grows _ _ _ _ Hm) as [Hg Hd].
    destruct (os_mkdir_inv _ _ _ _ Hm) as [(-> & _ & ->)|(e' & -> & ->)].
    + simplify_eq. auto.
    + destruct e' as [| | | | | [] q| | |]; simplify_eq;
        try (destruct (is_dir w (rev rp ++ [x])) eqn:Hb; simplify_eq;
             [apply is_dir_true in Hb|]; split; (apply grows_refl || done || discriminate)).
      destruct (mkdir_parents_rev rp w) as [r2 w2] eqn:Hrec.
      destruct (IH _ _ _ Hrec) as [Hg2 _].
      destruct r2 as [e|[]].
      * simplify_eq. split; [done | discriminate].
      * apply mkdir_once_grows in H as [Hg3 Hd3].
        split; [eapply grows_trans; eauto | done].
Qed.


Lemma prefix_snoc_cases (q l : path) x :
  q `prefix_of` l ++ [x] <-> q `prefix_of` l ∨ q = l ++ [x].
Proof.
  split.
  - intros [k Hk]. destruct k as [|y k _] using rev_ind.
    + right. rewrite app_nil_r in Hk. done.
    + left. rewrite app_assoc in Hk. apply app_inj_tail in Hk as [-> _].
      by exists k.
  - intros [H| ->]; [by apply prefix_app_r | done].
Qed.

Lemma wf_prefix_dir (t : gmap path node) (q k : path) :
  wf_tree t -> is_Some (t !! (q ++ k)) -> k ≠ [] -> t !! q = Some Dir.
Proof.
  intros [_ Hwf]. induction k as [|x k IH] using rev_ind; [done|].
  intros Hs _. rewrite app_assoc in Hs. apply Hwf in Hs.
  destruct k as [|y k]; [by rewrite app_nil_r in Hs|].
  apply IH; [by rewrite Hs | done].
Qed.

Lemma wf_prefix_of_dir (t : gmap path node) (q p : path) :
  wf_tree t -> t !! p = Some Dir -> q `prefix_of` p -> t !! q = Some Dir.
Proof.
  intros Hwf Hp [k ->]. destruct k as [|x k]; [by rewrite app_nil_r in Hp|].
  eapply wf_prefix_dir; [done| by rewrite Hp | done].
Qed.

Lemma wf_insert_dir (t : gmap path node) (p : path) :
  wf_tree t -> t !! parent p = Some Dir -> wf_tree (<[p := Dir]> t).
Proof.
  intros [Hr Hwf] Hpar. split.
  - destruct (decide (p = [])) as [->|]; [apply lookup_insert_eq|].
    by rewrite lookup_insert_ne.
  - intros q x Hs. destruct (decide (p = q)) as [->|Hq]; [apply lookup_insert_eq|].
    rewrite lookup_insert_ne by done.
    destruct (decide (p = q ++ [x])) as [->|Hqx].
    + by rewrite parent_snoc in Hpar.
    + rewrite lookup_insert_ne in Hs by done. by apply Hwf in Hs.
Qed.

Lemma wf_insert_file (t : gmap path node) (p : path) c :
  wf_tree t -> t !! parent p = Some Dir -> t !! p ≠ Some Dir -> p ≠ [] ->
  wf_tree (<[p := File c]> t).
Proof.
  intros [Hr Hwf] Hpar Hnd Hne. split.
  - by rewrite lookup_insert_ne.
  - intros q x Hs.
    destruct (decide (p = q ++ [x])) as [->|Hqx].
    + rewrite parent_snoc in Hpar.
      rewrite lookup_insert_ne; [done|].
      intros Heq. apply (f_equal length) in Heq. rewrite length_app in Heq. simpl in Heq. lia.
    + rewrite lookup_insert_ne in Hs by done. apply Hwf in Hs.
      rewrite lookup_insert_ne; [done|]. congruence.
Qed.

(** On a tree-shaped file system, [mkdir(parents=True, exist_ok=True)]
    succeeds when no prefix of the path is a file and no missing prefix is
    refused; afterwards every prefix is a directory and nothing else has
    changed. *)
Lemma mkdir_parents_rev_ok rp : ∀ w,
  wf_tree (tree w) ->
  (∀ q c, q `prefix_of` rev rp -> tree w !! q ≠ Some (File c)) ->
  (∀ q, q `prefix_of` rev rp -> tree w !! q = None -> q ∉ denied w) ->
  ∃ w', mkdir_parents_rev rp w = (inr tt, w')
        ∧ wf_tree (tree w')
        ∧ ∀ q, tree w' !! q = if decide (q `prefix_of` rev rp) then Some Dir else tree w !! q.
Proof.
  induction rp as [|x rp IH]; intros w Hwf Hnf Hnd.
  - exists w. simpl. destruct Hwf as [Hr Hwf']. unfold os_mkdir. rewrite Hr.
    unfold is_dir. rewrite Hr. split; [done|]. split; [done|].
    intros q. case_decide as Hq; [|done].
    apply prefix_nil_inv in Hq as ->. done.
  - simpl rev in *. simpl mkdir_parents_rev.
    destruct (tree w !! (rev rp ++ [x])) as [[c|]|] eqn:Hp.
    + exfalso. eapply Hnf; [|exact Hp]. done.
    + (* already a directory *)
      exists w. unfold os_mkdir. rewrite Hp. unfold is_dir. rewrite Hp.
      split; [done|]. split; [done|].
      intros q. case_decide as Hq; [|done].
      eapply wf_prefix_of_dir; eauto.
    + destruct (tree w !! rev rp) as [[c|]|] eqn:Hpar.
      * exfalso. eapply (Hnf (rev rp)); [|exact Hpar]. by apply prefix_app_r.
      * (* the parent is there *)
        exists (set_tree (insert (rev rp ++ [x]) Dir) w).
        rewrite os_mkdir_ok; [| done | by rewrite parent_snoc | by apply Hnd].
        split; [done|]. split.
        { simpl. apply wf_insert_dir; [done | by rewrite parent_snoc]. }
        intros q. simpl. case_decide as Hq.
        -- apply prefix_snoc_cases in Hq as [Hq| ->]; [|apply lookup_insert_eq].
           rewrite lookup_insert_ne.
           ++ eapply wf_prefix_of_dir; eauto.
           ++ intros <-. by apply prefix_snoc_not in Hq.
        -- rewrite lookup_insert_ne; [done|]. intros <-. by apply Hq.
      * (* the parent is missing: it is made first *)
        unfold os_mkdir at 1. rewrite Hp, parent_snoc, Hpar.
        destruct (IH w) as (w1 & Hrec & Hwf1 & Ht1); [done | | |].
        { intros q c Hq. apply Hnf. by apply prefix_app_r. }
        { intros q Hq. apply Hnd. by apply prefix_app_r. }
        rewrite Hrec.
        pose proof (mkdir_parents_rev_grows _ _ _ _ Hrec) as [(Hc & Hd & Hl & _) _].
        assert (tree w1 !! (rev rp ++ [x]) = None) as Hp1.
        { rewrite Ht1. rewrite decide_False; [done|]. apply prefix_snoc_not. }
        assert (tree w1 !! rev rp = Some Dir) as Hpar1.
        { rewrite Ht1. rewrite decide_True; done. }
        exists (set_tree (insert (rev rp ++ [x]) Dir) w1).
        unfold mkdir_once. rewrite os_mkdir_ok;
          [| done | by rewrite parent_snoc | rewrite Hd; by apply Hnd].
        split; [done|]. split.
        { simpl. apply wf_insert_dir; [done | by rewrite parent_snoc]. }
        intros q. simpl. case_decide as Hq.
        -- apply prefix_snoc_cases in Hq as [Hq| ->]; [|apply lookup_insert_eq].
           rewrite lookup_insert_ne.
           ++ rewrite Ht1. by rewrite decide_True.
           ++ intros <-. by apply prefix_snoc_not in Hq.
        -- rewrite lookup_insert_ne; [|intros <-; by apply Hq].
           rewrite Ht1. rewrite decide_False; [done|].
           intros Hq'. apply Hq. by apply prefix_app_r.
Qed.

Lemma mkdir_parents_ok p w :
  wf_tree (tree w) ->
  (∀ q c, q `prefix_of` p -> tree w !! q ≠ Some (File c)) ->
  (∀ q, q `prefix_of` p -> tree w !! q = None -> q ∉ denied w) ->
  ∃ w', mkdir_parents p w = (inr tt, w')
        ∧ wf_tree (tree w') ∧ cwd w' = cwd w ∧ denied w' = denied w
        ∧ write_log w' = write_log w
        ∧ ∀ q, tree w' !! q = if decide (q `prefix_of` p) then Some Dir else tree w !! q.
Proof.
  intros Hwf Hnf Hnd. unfold mkdir_parents.
  destruct (mkdir_parents_rev_ok (rev p) w) as (w' & Hrun & Hwf' & Ht);
    rewrite ?rev_involutive; try done.
  exists w'. pose proof (mkdir_parents_rev_grows _ _ _ _ Hrun) as [(Hc & Hd & Hl & _) _].
  rewrite rev_involutive in Ht. done.
Qed.

Lemma mkdir_parents_grows p w r w' :
  mkdir_parents p w = (r, w') ->
  grows w w' ∧ (r = inr tt -> tree w' !! p = Some Dir).
Proof.
  unfold mkdir_parents. intros H. apply mkdir_parents_rev_grows in H.
  by rewrite rev_involutive in H.
Qed.

Lemma write_text_ok p c w :
  tree w !! p ≠ Some Dir -> tree w !! parent p = Some Dir -> p ∉ denied w ->
  write_text p c w = (inr tt, log_write p (set_tree (insert p (File c)) w)).
Proof.
  intros Hnd Hpar Hd. unfold write_text. rewrite Hpar.
  rewrite bool_decide_eq_false_2 by done.
  destruct (tree w !! p) as [[|]|]; done.
Qed.

Lemma write_text_inv p c w r w' :
  write_text p c w = (r, w') ->
  (r = inr tt ∧ tree w !! p ≠ Some Dir
   ∧ w' = log_write p (set_tree (insert p (File c)) w))
  ∨ (∃ e, r = inl e ∧ w' = w).
Proof.
  unfold write_text. intros H.
  repeat case_match; simplify_eq; eauto; left; done.
Qed.


Lemma write_file_run p content root s :
  _write_file p content root s =
    match mkdir_parents (parent p) (gs_world s) with
    | (inl e, w1) => (inl e, {| gs_world := w1; created := created s |})
    | (inr _, w1) =>
        match write_text p content w1 with
        | (inl e, w2) => (inl e, {| gs_world := w2; created := created s |})
        | (inr _, w2) =>
            match relative_to p root with
            | inl e => (inl e, {| gs_world := w2; created := created s |})
            | inr rel => (inr tt, {| gs_world := w2; created := created s ++ [rel] |})
            end
        end
    end.
Proof.
  unfold _write_file, se_bind, in_world, se_lift, created_append.
  destruct (mkdir_parents (parent p) (gs_world s)) as [[e|[]] w1]; [reflexivity|].
  simpl. destruct (write_text p content w1) as [[e|[]] w2]; [reflexivity|].
  simpl. destruct (relative_to p root); reflexivity.
Qed.

Lemma grows_file w w' q c :
  grows w w' -> tree w !! q = Some (File c) -> tree w' !! q = Some (File c).
Proof. intros (_ & _ & _ & Ht) Hq. destruct (Ht q) as [->|[? _]]; congruence. Qed.

Lemma grows_dir w w' q :
  grows w w' -> tree w !! q = Some Dir -> tree w' !! q = Some Dir.
Proof. intros (_ & _ & _ & Ht) Hq. destruct (Ht q) as [->|[? _]]; congruence. Qed.

(** One call of [_write_file] below [root], whatever its outcome. *)
Lemma write_file_tracks root log0 rel content s r s' :
  tracks root log0 s ->
  _write_file (root ++ rel) content root s = (r, s') ->
  tracks root log0 s'
  ∧ match r with
    | inr _ =>
        created s' = created s ++ [rel]
        ∧ tree (gs_world s') !! (root ++ rel) = Some (File content)
        ∧ tree (gs_world s') !! parent (root ++ rel) = Some Dir
    | inl _ =>
        created s' = created s
        ∧ write_log (gs_world s') = write_log (gs_world s)
    end.
Proof.
  intros [Hlog Hfiles] Hrun. rewrite write_file_run in Hrun.
  destruct (mkdir_parents _ (gs_world s)) as [r1 w1] eqn:Hmk.
  apply mkdir_parents_grows in Hmk as [Hg Hpar].
  assert (Forall (fun rel => is_file w1 (root ++ rel)) (created s)) as Hfiles1.
  { eapply Forall_impl; [exact Hfiles|]. intros q [c Hc]. exists c.
    eapply grows_file; eauto. }
  destruct Hg as (Hc & Hd & Hl & Ht).
  destruct r1 as [e|[]].
  { simplify_eq. simpl. split; [split|]; simpl; [congruence | done | done]. }
  specialize (Hpar eq_refl).
  destruct (write_text (root ++ rel) content w1) as [r2 w2] eqn:Hwr.
  apply write_text_inv in Hwr as [(-> & Hnd & ->)|(e & -> & ->)].
  - rewrite relative_to_app in Hrun. simplify_eq. simpl.
    split; [split|]; simpl.
    + rewrite Hl, Hlog, fmap_app. simpl. by rewrite app_assoc.
    + apply Forall_app. split.
      * eapply Forall_impl; [exact Hfiles1|]. intros q [c Hq]. unfold is_file. simpl.
        destruct (decide (root ++ rel = root ++ q)) as [->|Hne].
        -- rewrite lookup_insert_eq. eauto.
        -- rewrite lookup_insert_ne by done. eauto.
      * constructor; [|constructor]. exists content. simpl. apply lookup_insert_eq.
    + split; [done|]. split; [apply lookup_insert_eq|].
      rewrite lookup_insert_ne; [done|]. intros Heq. rewrite <- Heq in Hpar. done.
  - simplify_eq. simpl. split; [split|]; simpl; [congruence | done | done].
Qed.

Lemma se_bind_run {S A B} (m : SE S A) (f : A -> SE S B) s :
  se_bind m f s =
    match m s with
    | (inr a, s') => f a s'
    | (inl e, s') => (inl e, s')
    end.
Proof. reflexivity. Qed.

Lemma get_cwd_ok w : is_Some (tree w !! cwd w) -> get_cwd w = (inr (cwd w), w).
Proof. intros H. unfold get_cwd. by rewrite bool_decide_eq_true_2. Qed.

Lemma get_cwd_dir w : tree w !! cwd w = Some Dir -> get_cwd w = (inr (cwd w), w).
Proof. intros H. apply get_cwd_ok. by rewrite H. Qed.

Lemma get_cwd_gone w :
  tree w !! cwd w = None -> get_cwd w = (inl (OSError ENOENT (cwd w)), w).
Proof.
  intros H. unfold get_cwd. rewrite bool_decide_eq_false_2; [done|].
  rewrite H. by intros [? ?].
Qed.

Lemma write_all_app root p q s :
  write_all root (p ++ q) s =
    match write_all root p s with
    | (inr _, s') => write_all root q s'
    | (inl e, s') => (inl e, s')
    end.
Proof.
  revert s. induction p as [|[rel c] p IH]; intros s; simpl; [reflexivity|].
  rewrite !se_bind_run. destruct (_write_file _ _ _ s) as [[e|[]] s1]; [reflexivity|].
  apply IH.
Qed.

(** Whatever the outcome, the entries so far are the files written so far,
    and they are an initial part of the table. *)
Lemma write_all_tracks root log0 plan : ∀ s r s',
  tracks root log0 s ->
  write_all root plan s = (r, s') ->
  tracks root log0 s'
  ∧ ∃ done_, created s' = created s ++ done_
      ∧ done_ `prefix_of` plan.*1
      ∧ (∀ u, r = inr u -> done_ = plan.*1).
Proof.
  induction plan as [|[rel c] plan IH]; intros s r s' Htr Hrun; simpl in Hrun.
  - unfold se_ret in Hrun. simplify_eq. split; [done|]. exists [].
    rewrite app_nil_r. done.
  - rewrite se_bind_run in Hrun.
    destruct (_write_file _ _ _ s) as [r1 s1] eqn:Hw.
    destruct (write_file_tracks _ _ _ _ _ _ _ Htr Hw) as [Htr1 Hr1].
    destruct r1 as [e|[]].
    + simplify_eq. split; [done|]. exists []. destruct Hr1 as [-> _].
      rewrite app_nil_r. split; [done|]. split; [apply prefix_nil | discriminate].
    + destruct Hr1 as (Hc1 & _).
      destruct (IH _ _ _ Htr1 Hrun) as (Htr' & d & Hc' & Hpre & Hall).
      split; [done|]. exists (rel :: d). rewrite Hc', Hc1, <- app_assoc. simpl.
      split; [done|]. split.
      * by apply prefix_cons.
      * intros u Hu. f_equal. eauto.
Qed.


Lemma prefix_app_cases (q root l : path) :
  q `prefix_of` root ++ l ->
  q `prefix_of` root ∨ ∃ k, q = root ++ k ∧ k ≠ [] ∧ k `prefix_of` l.
Proof.
  revert q. induction l as [|x l IH] using rev_ind; intros q Hq.
  - rewrite app_nil_r in Hq. by left.
  - rewrite app_assoc in Hq. apply prefix_snoc_cases in Hq as [Hq| ->].
    + destruct (IH _ Hq) as [?|(k & -> & Hk & Hkl)]; [by left|].
      right. exists k. split; [done|]. split; [done|]. by apply prefix_app_r.
    + right. exists (l ++ [x]). rewrite app_assoc. split; [done|].
      split; [by destruct l | done].
Qed.

Lemma head_prefix (k l : path) :
  k ≠ [] -> k `prefix_of` l -> head l = head k.
Proof. intros Hk [m ->]. by destruct k. Qed.

Lemma write_file_fits root rel content w cr :
  dest_inv root w cr -> fits cr rel ->
  ∃ w', _write_file (root ++ rel) content root {| gs_world := w; created := cr |}
        = (inr tt, {| gs_world := w'; created := cr ++ [rel] |})
        ∧ dest_inv root w' (cr ++ [rel])
        ∧ cwd w' = cwd w.
Proof.
  intros [Hwf Habove Hroot Hfile Hdir Hden] (Hne & Hgit & Hfit).
  destruct rel as [|x rel0 _] using rev_ind; [done|]. clear Hne.
  set (rel := rel0 ++ [x]) in *.
  assert (parent (root ++ rel) = root ++ rel0) as Hparent.
  { unfold rel. by rewrite app_assoc, parent_snoc. }
  assert (rel ≠ []) as Hne by (unfold rel; by destruct rel0).
  assert (∀ k, k ≠ [] → k `prefix_of` rel0 → strict_prefix k rel) as Hsp.
  { intros k _ Hk. split; [unfold rel; by apply prefix_app_r|].
    intros ->. unfold rel in Hk. by apply prefix_snoc_not in Hk. }
  assert (∀ k, k ≠ [] → k `prefix_of` rel0 → head k ≠ Some ".git") as Hhd.
  { intros k Hk Hpre. rewrite <- (head_prefix k rel); [done | done|].
    unfold rel. by apply prefix_app_r. }
  rewrite write_file_run. simpl. rewrite Hparent.
  destruct (mkdir_parents_ok (root ++ rel0) w) as (w1 & -> & Hwf1 & Hc1 & Hd1 & Hl1 & Ht1).
  { done. }
  { intros q c Hq Hc. apply prefix_app_cases in Hq as [Hq|(k & -> & Hk & Hpre)].
    - destruct (decide (q = root)) as [->|Hqr]; [by apply Hroot in Hc|].
      rewrite (Habove _ Hq Hqr) in Hc. done.
    - destruct (Hfile _ _ Hc Hk) as [Hin|Hg]; [|by apply Hhd in Hg].
      apply Hfit in Hin as [Hin _]. apply Hin. by apply Hsp. }
  { intros q Hq Hnone Hin. apply Hden in Hin. apply Hin.
    apply prefix_app_cases in Hq as [Hq|(k & -> & _)]; [|by apply prefix_app_r].
    destruct (decide (q = root)) as [->|Hqr]; [done|].
    rewrite (Habove _ Hq Hqr) in Hnone. done. }
  assert (tree w1 !! (root ++ rel) = tree w !! (root ++ rel)) as Hsame.
  { rewrite Ht1. rewrite decide_False; [done|].
    intros Hp. apply prefix_app_inv in Hp. unfold rel in Hp.
    by apply prefix_snoc_not in Hp. }
  assert (tree w1 !! (root ++ rel) ≠ Some Dir) as Hnd.
  { rewrite Hsame. intros Hd.
    destruct (Hdir _ Hd Hne) as [(q & Hin & Hq)|Hg]; [|done].
    apply Hfit in Hin as [_ Hin]. by apply Hin. }
  assert (tree w1 !! (root ++ rel0) = Some Dir) as Hpar1.
  { rewrite Ht1. by rewrite decide_True. }
  rewrite write_text_ok; [| done | by rewrite Hparent |].
  2:{ rewrite Hd1. intros Hin. apply Hden in Hin. apply Hin. by apply prefix_app_r. }
  rewrite relative_to_app.
  eexists. split; [reflexivity|]. split; [|simpl; done].
  assert (∀ q, q ≠ root ++ rel →
    tree (log_write (root ++ rel) (set_tree (insert (root ++ rel) (File content)) w1)) !! q
    = if decide (q `prefix_of` root ++ rel0) then Some Dir else tree w !! q) as Hother.
  { intros q Hq. simpl. rewrite lookup_insert_ne by done. apply Ht1. }
  assert (∀ q, q `prefix_of` root → q ≠ root ++ rel) as Hup.
  { intros q Hq ->. rewrite <- (app_nil_r root) in Hq at 2.
    apply prefix_app_inv, prefix_nil_inv in Hq. done. }
  split.
  - simpl. apply wf_insert_file; [done | by rewrite Hparent | done |].
    intros Heq. destruct root; simpl in Heq; [done | discriminate].
  - intros q Hq Hqr. rewrite Hother by (by apply Hup).
    rewrite decide_True; [done|]. by apply prefix_app_r.
  - intros c. rewrite Hother by (by apply Hup).
    rewrite decide_True; [done|]. by apply prefix_app_r.
  - intros k c Hk Hkne. destruct (decide (k = rel)) as [->|Hkr].
    { left. apply elem_of_app. right. by apply list_elem_of_singleton. }
    rewrite Hother in Hk by (intros Heq; apply app_inv_head in Heq; done).
    case_decide; [done|].
    destruct (Hfile _ _ Hk Hkne) as [Hin|Hg]; [|by right].
    left. apply elem_of_app. by left.
  - intros k Hk Hkne. destruct (decide (k = rel)) as [->|Hkr].
    { simpl in Hk. rewrite lookup_insert_eq in Hk. done. }
    rewrite Hother in Hk by (intros Heq; apply app_inv_head in Heq; done).
    case_decide as Hpre.
    + left. exists rel. split.
      * apply elem_of_app. right. by apply list_elem_of_singleton.
      * apply prefix_app_inv in Hpre. by apply Hsp.
    + destruct (Hdir _ Hk Hkne) as [(q & Hin & Hq)|Hg]; [|by right].
      left. exists q. split; [|done]. apply elem_of_app. by left.
  - simpl. rewrite Hd1. done.
Qed.

Lemma write_all_fits root plan : ∀ w cr,
  dest_inv root w cr -> fits_all cr plan.*1 ->
  ∃ w', write_all root plan {| gs_world := w; created := cr |}
        = (inr tt, {| gs_world := w'; created := cr ++ plan.*1 |})
        ∧ dest_inv root w' (cr ++ plan.*1)
        ∧ cwd w' = cwd w.
Proof.
  induction plan as [|[rel c] plan IH]; intros w cr Hinv Hfits; simpl.
  - exists w. rewrite app_nil_r. done.
  - destruct Hfits as [Hfit Hfits].
    destruct (write_file_fits root rel c w cr Hinv Hfit) as (w1 & Hrun & Hinv1 & Hc1).
    rewrite se_bind_run, Hrun. cbv beta iota.
    destruct (IH _ _ Hinv1 Hfits) as (w2 & Hrun2 & Hinv2 & Hc2).
    exists w2. rewrite <- app_assoc in Hrun2, Hinv2.
    split; [exact Hrun2|]. split; [exact Hinv2 | congruence].
Qed.


Lemma file_plan_paths render context name f :
  (file_plan render context name f).*1 = expected_paths name f.
Proof. destruct f as [[] [] [] [] [] []]; reflexivity. Qed.

Ltac run_writes :=
  repeat (rewrite !se_bind_run;
          match goal with
          | |- context [_write_file ?p ?c ?r ?s] =>
              destruct (_write_file p c r s) as [[?|[]] ?]
          end; try reflexivity).

Section Groups.

Variable render : string -> gmap string value -> string.
Variable context : gmap string value.
Variable root : path.

Lemma generate_source_tree_plan name s :
  _generate_source_tree render context (pjoin (pjoin root "src") name) root s
  = write_all root (plan_source_tree render context name) s.
Proof.
  unfold _generate_source_tree, pjoin. rewrite <- !app_assoc. simpl. run_writes.
Qed.

Lemma generate_tests_plan s :
  _generate_tests render context root s = write_all root (plan_tests render context) s.
Proof.
  unfold _generate_tests, _write_init, pjoin. rewrite <- !app_assoc. simpl. run_writes.
Qed.

Lemma generate_root_files_plan s :
  _generate_root_files render context root s
  = write_all root (plan_root_files render context) s.
Proof. unfold _generate_root_files, pjoin. simpl. run_writes. Qed.

Lemma generate_vscode_plan s :
  _generate_vscode render context root s = write_all root (plan_vscode render context) s.
Proof. unfold _generate_vscode, pjoin. rewrite <- !app_assoc. simpl. run_writes. Qed.

Lemma generate_continue_plan s :
  _generate_continue render context root s
  = write_all root (plan_continue render context) s.
Proof. unfold _generate_continue, pjoin. rewrite <- !app_assoc. simpl. run_writes. Qed.

Lemma generate_docker_plan s :
  _generate_docker render context root s = write_all root (plan_docker render context) s.
Proof. unfold _generate_docker, pjoin. rewrite <- !app_assoc. simpl. run_writes. Qed.

Lemma generate_ci_plan s :
  _generate_ci render context root s = write_all root (plan_ci render context) s.
Proof. unfold _generate_ci, pjoin. rewrite <- !app_assoc. simpl. run_writes. Qed.

Lemma generate_devcontainer_plan s :
  _generate_devcontainer render context root s
  = write_all root (plan_devcontainer render context) s.
Proof. unfold _generate_devcontainer, pjoin. rewrite <- !app_assoc. simpl. run_writes. Qed.

Lemma generate_precommit_plan s :
  _generate_precommit render context root s
  = write_all root (plan_precommit render context) s.
Proof. unfold _generate_precommit, pjoin. simpl. run_writes. Qed.

Lemma generate_diagrams_plan s :
  _generate_diagrams render context root s
  = write_all root (plan_diagrams render context) s.
Proof. unfold _generate_diagrams, pjoin. rewrite <- !app_assoc. simpl. run_writes. Qed.

Lemma seq_plan (g k : SE gen_state unit) p q :
  (∀ s, g s = write_all root p s) -> (∀ s, k s = write_all root q s) ->
  ∀ s, (g ;; k) s = write_all root (p ++ q) s.
Proof.
  intros Hg Hk s. rewrite se_bind_run, write_all_app, Hg.
  destruct (write_all root p s) as [[e|[]] s1]; [reflexivity | apply Hk].
Qed.

Lemma when_flag_plan (config : gmap string value) key (g : SE gen_state unit) p :
  is_Some (config !! key) ->
  (∀ s, g s = write_all root p s) ->
  ∀ s, when_flag config key g s
       = write_all root (group_when (truthy (dict_get config key)) p) s.
Proof.
  intros [v Hv] Hg s. unfold when_flag, subscript, dict_get, se_lift.
  rewrite se_bind_run, Hv. simpl.
  destruct (truthy v); [apply Hg | reflexivity].
Qed.

(** [generate_files] is the processing of the table. *)
Lemma generate_files_plan (config : gmap string value) name :
  (∀ k, k ∈ flag_keys → is_Some (config !! k)) ->
  ∀ s, generate_files render context config (pjoin (pjoin root "src") name) root s
       = write_all root (file_plan render context name (config_flags config)) s.
Proof.
  intros Hk. unfold generate_files, file_plan.
  apply seq_plan; [apply generate_source_tree_plan|].
  apply seq_plan; [apply generate_tests_plan|].
  apply seq_plan; [apply generate_root_files_plan|].
  apply seq_plan; [apply generate_vscode_plan|].
  apply seq_plan; [apply when_flag_plan; [apply Hk; in_keys | apply generate_continue_plan]|].
  apply seq_plan; [apply when_flag_plan; [apply Hk; in_keys | apply generate_docker_plan]|].
  apply seq_plan; [apply when_flag_plan; [apply Hk; in_keys | apply generate_ci_plan]|].
  apply seq_plan; [apply when_flag_plan; [apply Hk; in_keys | apply generate_devcontainer_plan]|].
  apply seq_plan; [apply when_flag_plan; [apply Hk; in_keys | apply generate_precommit_plan]|].
  apply when_flag_plan; [apply Hk; in_keys | apply generate_diagrams_plan].
Qed.

End Groups.


Lemma same_length_not_strict_prefix (a b : path) :
  length a = length b -> ¬ strict_prefix a b.
Proof.
  intros Hlen [[k Hk] Hne]. apply Hne. subst b.
  rewrite length_app in Hlen. destruct k; [by rewrite app_nil_r|]. simpl in Hlen. lia.
Qed.

Lemma level_heads_not_strict_prefix a b :
  level_heads a b = true -> ¬ strict_prefix a b ∧ ¬ strict_prefix b a.
Proof.
  unfold level_heads. destruct a as [|x a], b as [|y b]; try discriminate.
  destruct (String.eqb_spec x y) as [->|Hxy].
  - intros Hlen. apply Nat.eqb_eq in Hlen.
    split; apply same_length_not_strict_prefix; done.
  - intros _. split; intros [[k Hk] _]; simpl in Hk; congruence.
Qed.

Lemma fitsb_fits ws rel : fitsb ws rel = true -> fits ws rel.
Proof.
  unfold fitsb, fits. destruct rel as [|x rel]; [discriminate|].
  intros H. apply andb_true_iff in H as [Hg Hall].
  split; [done|]. split.
  - simpl. intros [= ->]. discriminate.
  - intros q Hq. rewrite forallb_forall in Hall.
    specialize (Hall q). rewrite <- list_elem_of_In in Hall.
    apply level_heads_not_strict_prefix in Hall as [H1 H2]; done.
Qed.

Lemma fits_allb_fits_all rels : ∀ ws, fits_allb ws rels = true -> fits_all ws rels.
Proof.
  induction rels as [|rel rels IH]; intros ws H; simpl in *; [done|].
  apply andb_true_iff in H as [H1 H2]. split; [by apply fitsb_fits | by apply IH].
Qed.

Lemma expected_paths_fit name f : fits_all [] (expected_paths name f).
Proof.
  apply fits_allb_fits_all.
  destruct f as [[] [] [] [] [] []]; vm_compute; reflexivity.
Qed.

(** ** The destination *)

Lemma entry_of_spec (d p : path) x : entry_of d p = Some x <-> p = d ++ [x].
Proof.
  unfold entry_of. split.
  - destruct (relative_to p d) as [e|rel] eqn:Hrel; [discriminate|].
    apply relative_to_inr in Hrel as ->.
    destruct rel as [|y [|z rel]]; try discriminate. congruence.
  - intros ->. by rewrite relative_to_app.
Qed.

Lemma iterdir_spec d w :
  tree w !! d = Some Dir ->
  ∃ entries, iterdir d w = (inr entries, w)
             ∧ ∀ x, x ∈ entries ↔ is_Some (tree w !! (d ++ [x])).
Proof.
  intros Hd. unfold iterdir. rewrite Hd. eexists. split; [reflexivity|].
  intros x. rewrite list_elem_of_omap. split.
  - intros (p & Hp & Hx). apply entry_of_spec in Hx as ->.
    apply list_elem_of_fmap in Hp as ([p n] & -> & Hpn).
    apply elem_of_map_to_list in Hpn. simpl. by rewrite Hpn.
  - intros [n Hn]. exists (d ++ [x]). split; [|by apply entry_of_spec].
    apply list_elem_of_fmap. exists (d ++ [x], n). split; [done|].
    by apply elem_of_map_to_list.
Qed.

Lemma existsb_not_git entries :
  existsb (fun x => negb (String.eqb x ".git")) entries = true
  <-> ∃ x, x ∈ entries ∧ x ≠ ".git".
Proof.
  rewrite existsb_exists. split; intros (x & Hx & Hne); exists x.
  - apply list_elem_of_In in Hx. split; [done|].
    apply negb_true_iff in Hne. by apply String.eqb_neq in Hne.
  - apply list_elem_of_In in Hx. split; [done|].
    apply negb_true_iff. by apply String.eqb_neq.
Qed.

Lemma resolve_destination_free config name w :
  wf_world w -> destination_free config name w ->
  resolve_destination config (VStr name) w = (inr (destination config name w), w).
Proof.
  intros [Hwf Hcwd] Hfree. unfold resolve_destination, destination, destination_free in *.
  destruct (truthy (dict_get config "_use_cwd")).
  - rewrite se_bind_run, (get_cwd_dir _ Hcwd). cbv beta iota.
    rewrite se_bind_run.
    destruct (iterdir_spec _ _ Hcwd) as (entries & -> & Hentries).
    destruct (existsb _ entries) eqn:Hex; [|reflexivity].
    apply existsb_not_git in Hex as (x & Hx & Hne).
    apply Hentries, Hfree in Hx. done.
  - rewrite se_bind_run, (get_cwd_dir _ Hcwd). cbv beta iota.
    rewrite se_bind_run. unfold se_lift, path_div. cbv beta iota.
    rewrite se_bind_run. unfold path_exists, pjoin. rewrite Hfree.
    rewrite bool_decide_eq_false_2; [reflexivity|]. by intros [? ?].
Qed.

Lemma dest_inv_initial config name w :
  wf_world w -> destination_free config name w ->
  writable_below (destination config name w) w ->
  dest_inv (destination config name w) w [].
Proof.
  intros [Hwf Hcwd] Hfree Hwr. unfold destination, destination_free, pjoin in *.
  destruct (truthy (dict_get config "_use_cwd")).
  - assert (∀ x rel, is_Some (tree w !! (cwd w ++ x :: rel)) → x = ".git") as Hgit.
    { intros x rel Hs. apply Hfree.
      destruct rel as [|y rel]; [done|].
      rewrite (wf_prefix_dir (tree w) (cwd w ++ [x]) (y :: rel)); try done.
      by rewrite <- app_assoc. }
    constructor.
    + exact Hwf.
    + intros q Hq _. eapply wf_prefix_of_dir; eauto.
    + intros c Hc. congruence.
    + intros [|x rel] c Hc Hne; [done|]. right. simpl. f_equal.
      apply (Hgit x rel). by rewrite Hc.
    + intros [|x rel] Hd Hne; [done|]. right. simpl. f_equal.
      apply (Hgit x rel). by rewrite Hd.
    + exact Hwr.
  - assert (∀ rel, tree w !! ((cwd w ++ [name]) ++ rel) = None) as Hnone.
    { intros [|y rel]; [by rewrite app_nil_r|].
      destruct (tree w !! ((cwd w ++ [name]) ++ y :: rel)) as [n|] eqn:Hl; [|done].
      rewrite (wf_prefix_dir (tree w) (cwd w ++ [name]) (y :: rel)) in Hfree;
        [done | done | by rewrite Hl | done]. }
    constructor.
    + exact Hwf.
    + intros q Hq Hne. apply prefix_snoc_cases in Hq as [Hq|?]; [|done].
      eapply wf_prefix_of_dir; eauto.
    + intros c Hc. congruence.
    + intros rel c Hc. by rewrite Hnone in Hc.
    + intros rel Hd. by rewrite Hnone in Hd.
    + exact Hwr.
Qed.

Lemma build_context_readable config name :
  readable config name -> ∃ context, build_context config (VStr name) = inr context.
Proof.
  intros (_ & [d Hd] & [a Ha] & [p Hp] & Hf). unfold build_context, subscript.
  rewrite Hd, Ha, Hp. simpl.
  destruct (Hf "ci") as [v1 ->]; [in_keys|].
  destruct (Hf "devcontainer") as [v2 ->]; [in_keys|].
  destruct (Hf "precommit") as [v3 ->]; [in_keys|].
  destruct (Hf "docker") as [v4 ->]; [in_keys|].
  destruct (Hf "diagrams") as [v5 ->]; [in_keys|].
  destruct (Hf "continue") as [v6 ->]; [in_keys|].
  eexists. reflexivity.
Qed.

(** The run of [generate_project] on a free destination: it returns the
    paths of the table, the files of the table are what it wrote, in order,
    and they are files afterwards. *)
Lemma generate_project_run render config name w :
  readable config name ->
  wf_world w ->
  destination_free config name w ->
  writable_below (destination config name w) w ->
  ∃ w', generate_project render config w
        = (inr (expected_paths name (config_flags config)), w')
        ∧ write_log w'
          = write_log w ++ (app (destination config name w)
                              <$> expected_paths name (config_flags config))
        ∧ Forall (fun rel => is_file w' (destination config name w ++ rel))
            (expected_paths name (config_flags config))
        ∧ cwd w' = cwd w.
Proof.
  intros Hread Hwf Hfree Hwr.
  destruct (build_context_readable _ _ Hread) as [context Hctx].
  destruct Hread as (Hname & _ & _ & _ & Hflags).
  unfold generate_project. rewrite se_bind_run. unfold se_lift at 1, subscript.
  rewrite Hname. cbv beta iota.
  rewrite se_bind_run, (resolve_destination_free _ _ _ Hwf Hfree). cbv beta iota.
  rewrite se_bind_run. unfold se_lift at 1, path_div. cbv beta iota.
  rewrite se_bind_run. unfold se_lift at 1. rewrite Hctx. cbv beta iota.
  unfold with_created. rewrite generate_files_plan by done.
  set (root := destination config name w).
  set (plan := file_plan render context name (config_flags config)).
  destruct (write_all_fits root plan w []) as (w' & Hrun & Hinv & Hcwd).
  { by apply dest_inv_initial. }
  { unfold plan. rewrite file_plan_paths. apply expected_paths_fit. }
  rewrite Hrun. exists w'.
  assert (tracks root (write_log w) {| gs_world := w; created := [] |}) as Htr.
  { split; [by rewrite app_nil_r | constructor]. }
  destruct (write_all_tracks _ _ _ _ _ _ Htr Hrun) as ([Hlog Hfiles] & _).
  change (gs_world {| gs_world := w'; created := [] ++ plan.*1 |}) with w' in *.
  change (created {| gs_world := w'; created := [] ++ plan.*1 |}) with (plan.*1) in *.
  change (gs_world {| gs_world := w; created := [] |}) with w in *.
  unfold plan in *. rewrite file_plan_paths in *.
  done.
Qed.


(* ===================================================================== *)
(** * Generation *)
(* ===================================================================== *)








Lemma resolve_destination_world config v w r w1 :
  resolve_destination config v w = (r, w1) -> w1 = w.
Proof.
  unfold resolve_destination, se_bind, get_cwd, iterdir, se_lift, path_exists,
    se_raise, se_ret.
  intros H. repeat case_match; simplify_eq; done.
Qed.

Lemma build_context_flags config v context :
  build_context config v = inr context -> ∀ k, k ∈ flag_keys → is_Some (config !! k).
Proof.
  unfold build_context, subscript. intros H k Hk.
  repeat match type of H with
         | context [config !! ?key] =>
             destruct (config !! key) as [?|] eqn:?; simpl in H; [|discriminate H]
         | context [escape_value ?x] =>
             destruct (escape_value x) as [?|?] eqn:?; simpl in H; [discriminate H|]
         end.
  unfold flag_keys in Hk. rewrite !elem_of_cons in Hk.
  destruct Hk as [->|[->|[->|[->|[->|[->|Hk]]]]]]; eauto.
  by apply elem_of_nil in Hk.
Qed.

(** What [generate_project] returns, when it returns: the paths of the
    table, which are the files it wrote, in order. *)
Lemma generate_project_returns render config w paths w' :
  generate_project render config w = (inr paths, w') ->
  ∃ name root, config !! "name" = Some (VStr name)
    ∧ paths = expected_paths name (config_flags config)
    ∧ write_log w' = write_log w ++ (app root <$> paths)
    ∧ Forall (fun rel => is_file w' (root ++ rel)) paths.
Proof.
  unfold generate_project. rewrite se_bind_run. unfold se_lift at 1, subscript.
  destruct (config !! "name") as [v|] eqn:Hname; [|discriminate]. cbv beta iota.
  rewrite se_bind_run.
  destruct (resolve_destination config v w) as [[e|root] w1] eqn:Hdest; [discriminate|].
  apply resolve_destination_world in Hdest as ->.
  rewrite se_bind_run. unfold se_lift at 1.
  destruct v as [| |name]; try discriminate. simpl path_div. cbv beta iota.
  rewrite se_bind_run. unfold se_lift at 1.
  destruct (build_context config (VStr name)) as [e|context] eqn:Hctx; [discriminate|].
  cbv beta iota. unfold with_created.
  destruct (generate_files _ _ _ _ _ _) as [[e|[]] s'] eqn:Hrun; [discriminate|].
  intros [= <- <-].
  assert (tracks root (write_log w) {| gs_world := w; created := [] |}) as Htr.
  { split; [by rewrite app_nil_r | constructor]. }
  rewrite generate_files_plan in Hrun by (eapply build_context_flags; eauto).
  destruct (write_all_tracks _ _ _ _ _ _ Htr Hrun) as ([Hlog Hfiles] & d & Hd & _ & Hall).
  simpl in Hd. rewrite (Hall tt eq_refl), file_plan_paths in Hd.
  exists name, root. rewrite Hd in *. done.
Qed.


Lemma wf_treeb_wf t : wf_treeb t = true -> wf_tree t.
Proof.
  unfold wf_treeb. intros H. apply andb_true_iff in H as [Hr Hall].
  apply bool_decide_eq_true in Hr. split; [done|].
  intros p x [n Hn]. rewrite forallb_forall in Hall.
  specialize (Hall (p ++ [x])). rewrite <- list_elem_of_In in Hall.
  rewrite parent_snoc in Hall.
  assert (p ++ [x] ∈ (map_to_list t).*1) as Hin.
  { apply list_elem_of_fmap. exists (p ++ [x], n). split; [done|].
    by apply elem_of_map_to_list. }
  apply Hall in Hin. destruct (p ++ [x]) eqn:Hp; [by destruct p|].
  by apply bool_decide_eq_true in Hin.
Qed.

Lemma only_gitb_spec w :
  only_gitb w = true -> ∀ x, is_Some (tree w !! (cwd w ++ [x])) → x = ".git".
Proof.
  unfold only_gitb. intros H x Hx.
  destruct (tree w !! cwd w) as [[c|]|] eqn:Hcwd;
    try (unfold iterdir in H; rewrite Hcwd in H; discriminate).
  destruct (iterdir_spec _ _ Hcwd) as (entries & Hrun & Hentries).
  rewrite Hrun in H. apply negb_true_iff in H.
  destruct (decide (x = ".git")) as [|Hne]; [done|].
  assert (existsb (fun x => negb (String.eqb x ".git")) entries = true) as Hex.
  { apply existsb_not_git. exists x. split; [by apply Hentries | done]. }
  congruence.
Qed.

Lemma fully_populated_readable config name f :
  fully_populated config name f -> readable config name ∧ config_flags config = f.
Proof.
  intros (Hn & Hd & Ha & [p Hp] & H1 & H2 & H3 & H4 & H5 & H6 & _).
  split.
  - split; [done|]. split; [done|]. split; [done|]. split; [by rewrite Hp|].
    intros k Hk. unfold flag_keys in Hk. rewrite !elem_of_cons in Hk.
    destruct Hk as [->|[->|[->|[->|[->|[->|Hk]]]]]]; eauto.
    by apply elem_of_nil in Hk.
  - unfold config_flags, dict_get. rewrite H1, H2, H3, H4, H5, H6. simpl.
    by destruct f.
Qed.

(** C1.  For a valid, fully populated configuration: whenever
    [generate_project] returns, it returns exactly the thirteen "always"
    paths followed by the groups whose flag is true, in the order source
    tree, tests, root files, editor configuration, AI assistant,
    containerization, CI, devcontainer, pre-commit, diagrams; and it does
    return them, having written these files in this order, when the
    destination is free and writable on a tree-shaped file system. *)
Theorem generate_project_paths (stdlib_module_names : gset string)
    (render : string -> gmap string value -> string)
    (config : gmap string value) (name : string) (f : flags) :
  fully_populated config name f ->
  validate stdlib_module_names config = inr name ->
  length (always_paths name) = 13
  ∧ (∀ w paths w',
       generate_project render config w = (inr paths, w') →
       paths = always_paths name ++ optional_paths f)
  ∧ (∀ w,
       wf_world w →
       destination_free config name w →
       writable_below (destination config name w) w →
       ∃ w', generate_project render config w
             = (inr (always_paths name ++ optional_paths f), w')
             ∧ write_log w'
               = write_log w ++ (app (destination config name w)
                                   <$> always_paths name ++ optional_paths f)).
Proof.
  intros Hpop _.
  destruct (fully_populated_readable _ _ _ Hpop) as [Hread <-].
  split; [reflexivity|]. split.
  - intros w paths w' Hrun.
    apply generate_project_returns in Hrun as (name' & root & Hname & -> & _).
    destruct Hread as [Hname' _]. assert (name' = name) as -> by congruence.
    reflexivity.
  - intros w Hwf Hfree Hwr.
    destruct (generate_project_run render _ _ _ Hread Hwf Hfree Hwr)
      as (w' & Hrun & Hlog & _).
    exists w'. done.
Qed.

Ltac lookups := repeat split; try (vm_compute; reflexivity); eexists; vm_compute; reflexivity.

Lemma wf_empty_home : wf_world empty_home.
Proof. split; [apply wf_treeb_wf|]; vm_compute; reflexivity. Qed.

Lemma writable_below_nothing_denied root t :
  writable_below root (world_of t ∅).
Proof. intros q Hq. simpl in Hq. by apply not_elem_of_empty in Hq. Qed.

Lemma generate_project_paths_witness :
  ∃ w', generate_project example_render
          (example_config "A test project" (VBool false) false) empty_home
        = (inr (always_paths "testproject"
                ++ optional_paths (Flags false false true false true true)), w')
        ∧ write_log w'
          = write_log empty_home
            ++ (app (destination (example_config "A test project" (VBool false) false)
                       "testproject" empty_home)
                  <$> always_paths "testproject"
                      ++ optional_paths (Flags false false true false true true)).
Proof.
  refine (proj2 (proj2 (generate_project_paths ∅ example_render
           (example_config "A test project" (VBool false) false)
           "testproject" (Flags false false true false true true) _ _))
           empty_home _ _ _).
  - lookups.
  - vm_compute. reflexivity.
  - split; [apply wf_treeb_wf|]; vm_compute; reflexivity.
  - vm_compute. reflexivity.
  - apply writable_below_nothing_denied.
Defined.


Lemma resolve_destination_taken config name w :
  truthy (dict_get config "_use_cwd") = false ->
  is_Some (tree w !! cwd w) ->
  is_Some (tree w !! (cwd w ++ [name])) ->
  resolve_destination config (VStr name) w = (inl (FileExistsError DirectoryExists), w).
Proof.
  intros Hmode Hcwd Hex. unfold resolve_destination. rewrite Hmode.
  rewrite se_bind_run, (get_cwd_ok _ Hcwd). cbv beta iota.
  rewrite se_bind_run. unfold se_lift, path_div. cbv beta iota.
  rewrite se_bind_run. unfold path_exists, pjoin.
  rewrite bool_decide_eq_true_2 by done. reflexivity.
Qed.

Lemma resolve_destination_not_empty config v w x :
  truthy (dict_get config "_use_cwd") = true ->
  tree w !! cwd w = Some Dir ->
  x ≠ ".git" -> is_Some (tree w !! (cwd w ++ [x])) ->
  resolve_destination config v w = (inl (FileExistsError CwdNotEmpty), w).
Proof.
  intros Hmode Hcwd Hx Hex. unfold resolve_destination. rewrite Hmode.
  rewrite se_bind_run, (get_cwd_dir _ Hcwd). cbv beta iota.
  rewrite se_bind_run.
  destruct (iterdir_spec _ _ Hcwd) as (entries & -> & Hentries).
  rewrite (proj2 (existsb_not_git entries)); [reflexivity|].
  exists x. split; [by apply Hentries | done].
Qed.

Lemma generate_project_stops_at_destination render config name w e :
  config !! "name" = Some (VStr name) ->
  resolve_destination config (VStr name) w = (inl e, w) ->
  generate_project render config w = (inl e, w).
Proof.
  intros Hname Hdest. unfold generate_project.
  rewrite se_bind_run. unfold se_lift at 1, subscript. rewrite Hname. cbv beta iota.
  rewrite se_bind_run, Hdest. reflexivity.
Qed.

(** ** The prompts *)

Lemma prompt_if_none_other key key' asked (config : gmap string value) :
  key ≠ key' -> prompt_if_none key asked config !! key' = config !! key'.
Proof.
  intros Hne. unfold prompt_if_none. case_match; [|done].
  by rewrite lookup_insert_ne.
Qed.

Lemma prompt_if_none_asked key asked (config : gmap string value) :
  config !! key = Some VNone -> prompt_if_none key asked config !! key = Some asked.
Proof.
  intros Hk. unfold prompt_if_none, dict_get. rewrite Hk. simpl.
  apply lookup_insert_eq.
Qed.

Ltac peel_prompts := repeat (rewrite prompt_if_none_other by discriminate).

Ltac prompt_lookup :=
  unfold prompt_for_config; cbv zeta; peel_prompts;
  first [ assumption
        | rewrite prompt_if_none_asked; [reflexivity | peel_prompts; assumption] ].

Lemma continue_not_expected name f :
  f_continue f = false -> [".continue"; "config.yaml"] ∉ expected_paths name f.
Proof.
  destruct f as [c [] [] [] [] []]; simpl; intros ->;
    unfold expected_paths, always_paths, optional_paths, group_when; simpl;
    intros H; repeat (apply elem_of_cons in H as [H|H]; [discriminate|]);
    by apply elem_of_nil in H.
Qed.

Lemma initial_config_continue args :
  initial_config args !! "continue" = Some (of_option_bool (arg_continue args)).
Proof. unfold initial_config. apply lookup_insert_eq. Qed.

Lemma resolve_name_continue d base config config' :
  resolve_name d base config = inr config' ->
  config' !! "continue" = config !! "continue".
Proof.
  unfold resolve_name, subscript. intros H.
  repeat case_match; simplify_eq; by rewrite !lookup_insert_ne by discriminate.
Qed.

(** ** The steps of [new] *)

Lemma initial_config_name args :
  initial_config args !! "name" = Some (of_option_str (arg_name args)).
Proof.
  unfold initial_config.
  repeat (rewrite lookup_insert_ne by discriminate). apply lookup_insert_eq.
Qed.

(** The base name of the working directory matters for ["."] only. *)
Lemma resolve_config_base d a args base base' :
  arg_name args ≠ Some "." ->
  resolve_config d a args base = resolve_config d a args base'.
Proof.
  intros Hdot. unfold resolve_config, resolve_name, subscript.
  rewrite initial_config_name. cbv beta iota.
  rewrite !decide_False; [reflexivity|..];
    destruct (arg_name args) as [n|]; simpl; congruence.
Qed.

Lemma cwd_name_if_dot_run args w :
  cwd_name_if_dot args w =
    if bool_decide (arg_name args = Some ".") then
      if bool_decide (is_Some (tree w !! cwd w)) then (inr (path_name (cwd w)), w)
      else (inl (OSError ENOENT (cwd w)), w)
    else (inr "", w).
Proof.
  unfold cwd_name_if_dot. case_bool_decide; [|reflexivity].
  rewrite se_bind_run. unfold get_cwd. case_bool_decide; reflexivity.
Qed.

(** A run of [new], step by step: the working directory when the name is
    ["."], the configuration, the validation, the summary, the generation. *)
Lemma new_run_eq d stdlib_module_names render markup_ok a args w :
  new d stdlib_module_names render markup_ok a args w =
    if cwd_gone args w then (inl (OSError ENOENT (cwd w)), w)
    else
      match resolve_config d a args (path_name (cwd w)) with
      | inl e => (inl e, w)
      | inr config =>
          match validate stdlib_module_names config with
          | inl e => (inl e, w)
          | inr _ =>
              match show_summary markup_ok config with
              | inl e => (inl e, w)
              | inr _ => exit_on_os_error (generate_project render config) w
              end
          end
      end.
Proof.
  unfold new, cwd_gone. rewrite se_bind_run, cwd_name_if_dot_run.
  assert (∀ base,
    (config <- se_lift (resolve_config d a args base) ;;
     _ <- se_lift (validate stdlib_module_names config) ;;
     _ <- se_lift (show_summary markup_ok config) ;;
     exit_on_os_error (generate_project render config)) w
    = match resolve_config d a args base with
      | inl e => (inl e, w)
      | inr config =>
          match validate stdlib_module_names config with
          | inl e => (inl e, w)
          | inr _ =>
              match show_summary markup_ok config with
              | inl e => (inl e, w)
              | inr _ => exit_on_os_error (generate_project render config) w
              end
          end
      end) as Hsteps.
  { intros base. rewrite se_bind_run. unfold se_lift at 1.
    destruct (resolve_config d a args base) as [e|config]; [reflexivity|].
    cbv beta iota. rewrite se_bind_run. unfold se_lift at 1.
    destruct (validate stdlib_module_names config); [reflexivity|].
    cbv beta iota. rewrite se_bind_run. unfold se_lift at 1.
    destruct (show_summary markup_ok config); reflexivity. }
  case_bool_decide as Hdot.
  - case_bool_decide; simpl; [apply Hsteps | reflexivity].
  - simpl. rewrite Hsteps. by rewrite (resolve_config_base d a args "" (path_name (cwd w))).
Qed.

(** C4.  When the [continue] flag is [None] on entry, [prompt_for_config]
    leaves it [None], whatever the answers, while each of the other five
    flags that is [None] is set to the answer given, [True] by default;
    [generate_project] then never returns the AI-assistant file; and an
    interactive run of [new] without [--continue] or [--no-continue] never
    lists it either. *)
Theorem prompt_never_asks_continue (d : defaults) (a : answers)
    (config : gmap string value) :
  config !! "continue" = Some VNone ->
  prompt_for_config d a config !! "continue" = Some VNone
  ∧ (config !! "ci" = Some VNone →
     prompt_for_config d a config !! "ci" = Some (VBool (default true (ans_ci a))))
  ∧ (config !! "devcontainer" = Some VNone →
     prompt_for_config d a config !! "devcontainer"
     = Some (VBool (default true (ans_devcontainer a))))
  ∧ (config !! "precommit" = Some VNone →
     prompt_for_config d a config !! "precommit"
     = Some (VBool (default true (ans_precommit a))))
  ∧ (config !! "docker" = Some VNone →
     prompt_for_config d a config !! "docker"
     = Some (VBool (default true (ans_docker a))))
  ∧ (config !! "diagrams" = Some VNone →
     prompt_for_config d a config !! "diagrams"
     = Some (VBool (default true (ans_diagrams a))))
  ∧ (∀ render w paths w',
       generate_project render (prompt_for_config d a config) w = (inr paths, w') →
       [".continue"; "config.yaml"] ∉ paths)
  ∧ (∀ stdlib_module_names render markup_ok args w paths w',
       arg_continue args = None → arg_no_interactive args = false →
       new d stdlib_module_names render markup_ok a args w = (inr paths, w') →
       [".continue"; "config.yaml"] ∉ paths).
Proof.
  intros Hc.
  assert (∀ c, c !! "continue" = Some VNone →
               prompt_for_config d a c !! "continue" = Some VNone) as Hkeep.
  { intros c Hcc. prompt_lookup. }
  assert (∀ c render w paths w', c !! "continue" = Some VNone →
            generate_project render (prompt_for_config d a c) w = (inr paths, w') →
            [".continue"; "config.yaml"] ∉ paths) as Hgen.
  { intros c render w paths w' Hcc Hrun.
    apply generate_project_returns in Hrun as (name & root & _ & -> & _).
    apply continue_not_expected. unfold config_flags. cbn [f_continue].
    unfold dict_get. rewrite (Hkeep _ Hcc). reflexivity. }
  split; [by apply Hkeep|].
  split; [intros H; prompt_lookup|].
  split; [intros H; prompt_lookup|].
  split; [intros H; prompt_lookup|].
  split; [intros H; prompt_lookup|].
  split; [intros H; prompt_lookup|].
  split; [intros render w paths w'; by apply Hgen|].
  intros stdlib render markup_ok args w paths w' Hargs Hinter. rewrite new_run_eq.
  destruct (cwd_gone args w); [discriminate|]. unfold resolve_config.
  destruct (resolve_name d _ (initial_config args)) as [e|c1] eqn:Hres; [discriminate|].
  rewrite Hinter.
  destruct (validate stdlib _) as [e|n]; [discriminate|].
  destruct (show_summary markup_ok _) as [e|[]]; [discriminate|].
  unfold exit_on_os_error.
  destruct (generate_project render _ w) as [[e|ps] w1] eqn:Hrun.
  { destruct e; discriminate. }
  intros [= <- <-]. eapply Hgen; [|exact Hrun].
  rewrite (resolve_name_continue _ _ _ _ Hres), initial_config_continue, Hargs. done.
Qed.

Lemma prompt_never_asks_continue_witness :
  prompt_for_config example_defaults
    (Answers None None None None None (Some false) None None None)
    (example_config "A test project" VNone false) !! "continue" = Some VNone.
Proof.
  apply (prompt_never_asks_continue example_defaults
           (Answers None None None None None (Some false) None None None)
           (example_config "A test project" VNone false)).
  vm_compute. reflexivity.
Defined.




Lemma apply_defaults_complete_witness :
  apply_defaults example_defaults (example_config "A test project" (VBool false) false)
  = inr (example_config "A test project" (VBool false) false).
Proof.
  apply (apply_defaults_complete example_defaults
           (example_config "A test project" (VBool false) false)).
  split; intros k Hk; unfold text_keys, flag_keys in Hk; rewrite !elem_of_cons in Hk.
  - destruct Hk as [->|[->|[->|Hk]]];
      try (eexists; split; [vm_compute; reflexivity | discriminate]).
    by apply elem_of_nil in Hk.
  - destruct Hk as [->|[->|[->|[->|[->|[->|Hk]]]]]];
      try (eexists; vm_compute; reflexivity).
    by apply elem_of_nil in Hk.
Defined.

Lemma default_or_empty key d (config : gmap string value) :
  config !! key = Some (VStr "") ->
  default_or key d config = inr (<[key := VStr d]> config).
Proof. intros Hk. unfold default_or, subscript. rewrite Hk. reflexivity. Qed.

Lemma apply_defaults_empty_description d :
  apply_defaults d (example_config "" (VBool false) false)
  = inr (<["description" := VStr (DEFAULT_DESCRIPTION d)]>
           (example_config "" (VBool false) false)).
Proof.
  unfold apply_defaults.
  rewrite (default_or_id "name" _ _ "testproject") by (reflexivity || discriminate).
  rewrite default_or_empty by reflexivity.
  rewrite (default_or_id "author" _ _ "Test Author")
    by (rewrite ?lookup_insert_ne by discriminate; reflexivity || discriminate).
  rewrite (default_flag_id "ci" _ true)
    by (rewrite lookup_insert_ne by discriminate; reflexivity).
  rewrite (default_flag_id "devcontainer" _ false)
    by (rewrite lookup_insert_ne by discriminate; reflexivity).
  rewrite (default_flag_id "precommit" _ true)
    by (rewrite lookup_insert_ne by discriminate; reflexivity).
  rewrite (default_flag_id "docker" _ false)
    by (rewrite lookup_insert_ne by discriminate; reflexivity).
  rewrite (default_flag_id "diagrams" _ true)
    by (rewrite lookup_insert_ne by discriminate; reflexivity).
  rewrite (default_flag_id "continue" _ false)
    by (rewrite lookup_insert_ne by discriminate; reflexivity).
  reflexivity.
Qed.

(** C8, counterexample: a configuration in which every text field is a
    string and every flag a boolean, with the empty string as description;
    the defaulting step replaces the description by the default one, so the
    configuration changes unless that default is itself empty. *)
Lemma apply_defaults_replaces_empty_description :
  populated (example_config "" (VBool false) false)
  ∧ example_config "" (VBool false) false !! "description" = Some (VStr "")
  ∧ (∀ d, apply_defaults d (example_config "" (VBool false) false)
          = inr (<["description" := VStr (DEFAULT_DESCRIPTION d)]>
                   (example_config "" (VBool false) false)))
  ∧ (∀ d, DEFAULT_DESCRIPTION d ≠ "" →
          apply_defaults d (example_config "" (VBool false) false)
          ≠ inr (example_config "" (VBool false) false)).
Proof.
  split; [|split; [|split]].
  - split; intros k Hk; unfold text_keys, flag_keys in Hk; rewrite !elem_of_cons in Hk.
    + destruct Hk as [->|[->|[->|Hk]]]; try (eexists; reflexivity).
      by apply elem_of_nil in Hk.
    + destruct Hk as [->|[->|[->|[->|[->|[->|Hk]]]]]]; try (eexists; reflexivity).
      by apply elem_of_nil in Hk.
  - reflexivity.
  - exact apply_defaults_empty_description.
  - intros d Hd Heq. rewrite apply_defaults_empty_description in Heq.
    apply (f_equal (fun r : result (gmap string value) =>
                      match r with inr m => m !! "description" | inl _ => None end))
      in Heq.
    cbv beta iota in Heq. rewrite lookup_insert_eq in Heq.
    change (example_config "" (VBool false) false !! "description")
      with (Some (VStr "")) in Heq.
    congruence.
Qed.


(* ===================================================================== *)
(** * The defaulting step key by key, and the command [new] *)
(* ===================================================================== *)

Lemma py_or_idem v d : py_or (py_or v d) d = py_or v d.
Proof.
  unfold py_or. destruct (truthy v) eqn:Hv; [by rewrite Hv|]. by destruct (truthy d).
Qed.

Lemma defaulted_flag_idem v : defaulted_flag (defaulted_flag v) = defaulted_flag v.
Proof. by destruct v. Qed.

Lemma default_or_own key d (config config' : gmap string value) :
  default_or key d config = inr config' ->
  config' !! key = defaulted_text d <$> config !! key.
Proof.
  unfold default_or, subscript. intros H.
  destruct (config !! key) as [v|] eqn:Hv; [|discriminate]. injection H as <-.
  rewrite lookup_insert_eq. reflexivity.
Qed.

Lemma default_or_other key d (config config' : gmap string value) k :
  default_or key d config = inr config' -> k ≠ key -> config' !! k = config !! k.
Proof.
  unfold default_or, subscript. intros H Hk.
  destruct (config !! key) as [v|] eqn:Hv; [|discriminate]. injection H as <-.
  by rewrite lookup_insert_ne.
Qed.

Lemma default_flag_own key (config config' : gmap string value) :
  default_flag key config = inr config' ->
  config' !! key = defaulted_flag <$> config !! key.
Proof.
  unfold default_flag, subscript. intros H.
  destruct (config !! key) as [v|] eqn:Hv; [|discriminate]. injection H as <-.
  unfold defaulted_flag. simpl.
  destruct (is_none v); [by rewrite lookup_insert_eq | done].
Qed.

Lemma default_flag_other key (config config' : gmap string value) k :
  default_flag key config = inr config' -> k ≠ key -> config' !! k = config !! k.
Proof.
  unfold default_flag, subscript. intros H Hk.
  destruct (config !! key) as [v|] eqn:Hv; [|discriminate]. injection H as <-.
  destruct (is_none v); [by rewrite lookup_insert_ne | done].
Qed.

Lemma default_or_needs key d (config config' : gmap string value) :
  default_or key d config = inr config' -> is_Some (config !! key).
Proof. unfold default_or, subscript. destruct (config !! key); [eauto | discriminate]. Qed.

Lemma default_flag_needs key (config config' : gmap string value) :
  default_flag key config = inr config' -> is_Some (config !! key).
Proof. unfold default_flag, subscript. destruct (config !! key); [eauto | discriminate]. Qed.

Lemma default_or_present key d (config : gmap string value) :
  is_Some (config !! key) -> ∃ config', default_or key d config = inr config'.
Proof. intros [v Hv]. unfold default_or, subscript. rewrite Hv. eauto. Qed.

Lemma default_flag_present key (config : gmap string value) :
  is_Some (config !! key) -> ∃ config', default_flag key config = inr config'.
Proof. intros [v Hv]. unfold default_flag, subscript. rewrite Hv. eauto. Qed.

(** The defaulting step, key by key. *)
Lemma apply_defaults_lookup d (config config' : gmap string value) :
  apply_defaults d config = inr config' ->
  config' !! "name" = defaulted_text (DEFAULT_PROJECT_NAME d) <$> config !! "name"
  ∧ config' !! "description"
    = defaulted_text (DEFAULT_DESCRIPTION d) <$> config !! "description"
  ∧ config' !! "author" = defaulted_text (DEFAULT_AUTHOR d) <$> config !! "author"
  ∧ (∀ k, k ∈ flag_keys → config' !! k = defaulted_flag <$> config !! k)
  ∧ (∀ k, k ∉ default_keys → config' !! k = config !! k)
  ∧ (∀ k, k ∈ default_keys → is_Some (config !! k)).
Proof.
  unfold apply_defaults. intros H.
  destruct (default_or "name" _ config) as [|c1] eqn:H1; [discriminate|].
  destruct (default_or "description" _ c1) as [|c2] eqn:H2; [discriminate|].
  destruct (default_or "author" _ c2) as [|c3] eqn:H3; [discriminate|].
  destruct (default_flag "ci" c3) as [|c4] eqn:H4; [discriminate|].
  destruct (default_flag "devcontainer" c4) as [|c5] eqn:H5; [discriminate|].
  destruct (default_flag "precommit" c5) as [|c6] eqn:H6; [discriminate|].
  destruct (default_flag "docker" c6) as [|c7] eqn:H7; [discriminate|].
  destruct (default_flag "diagrams" c7) as [|c8] eqn:H8; [discriminate|].
  destruct (default_flag "continue" c8) as [|c9] eqn:H9; [discriminate|].
  injection H as <-.
  split; [|split; [|split; [|split; [|split]]]].
  - rewrite (default_flag_other _ _ _ "name" H9) by discriminate.
    rewrite (default_flag_other _ _ _ "name" H8) by discriminate.
    rewrite (default_flag_other _ _ _ "name" H7) by discriminate.
    rewrite (default_flag_other _ _ _ "name" H6) by discriminate.
    rewrite (default_flag_other _ _ _ "name" H5) by discriminate.
    rewrite (default_flag_other _ _ _ "name" H4) by discriminate.
    rewrite (default_or_other _ _ _ _ "name" H3) by discriminate.
    rewrite (default_or_other _ _ _ _ "name" H2) by discriminate.
    rewrite (default_or_own _ _ _ _ H1). reflexivity.
  - rewrite (default_flag_other _ _ _ "description" H9) by discriminate.
    rewrite (default_flag_other _ _ _ "description" H8) by discriminate.
    rewrite (default_flag_other _ _ _ "description" H7) by discriminate.
    rewrite (default_flag_other _ _ _ "description" H6) by discriminate.
    rewrite (default_flag_other _ _ _ "description" H5) by discriminate.
    rewrite (default_flag_other _ _ _ "description" H4) by discriminate.
    rewrite (default_or_other _ _ _ _ "description" H3) by discriminate.
    rewrite (default_or_own _ _ _ _ H2).
    rewrite (default_or_other _ _ _ _ "description" H1) by discriminate. reflexivity.
  - rewrite (default_flag_other _ _ _ "author" H9) by discriminate.
    rewrite (default_flag_other _ _ _ "author" H8) by discriminate.
    rewrite (default_flag_other _ _ _ "author" H7) by discriminate.
    rewrite (default_flag_other _ _ _ "author" H6) by discriminate.
    rewrite (default_flag_other _ _ _ "author" H5) by discriminate.
    rewrite (default_flag_other _ _ _ "author" H4) by discriminate.
    rewrite (default_or_own _ _ _ _ H3).
    rewrite (default_or_other _ _ _ _ "author" H2) by discriminate.
    rewrite (default_or_other _ _ _ _ "author" H1) by discriminate. reflexivity.
  - intros k Hk. unfold flag_keys in Hk. rewrite !elem_of_cons in Hk.
    destruct Hk as [->|[->|[->|[->|[->|[->|Hk]]]]]]; [..|by apply elem_of_nil in Hk].
    + rewrite (default_flag_other _ _ _ "ci" H9) by discriminate.
      rewrite (default_flag_other _ _ _ "ci" H8) by discriminate.
      rewrite (default_flag_other _ _ _ "ci" H7) by discriminate.
      rewrite (default_flag_other _ _ _ "ci" H6) by discriminate.
      rewrite (default_flag_other _ _ _ "ci" H5) by discriminate.
      rewrite (default_flag_own _ _ _ H4).
      rewrite (default_or_other _ _ _ _ "ci" H3) by discriminate.
      rewrite (default_or_other _ _ _ _ "ci" H2) by discriminate.
      rewrite (default_or_other _ _ _ _ "ci" H1) by discriminate. reflexivity.
    + rewrite (default_flag_other _ _ _ "devcontainer" H9) by discriminate.
      rewrite (default_flag_other _ _ _ "devcontainer" H8) by discriminate.
      rewrite (default_flag_other _ _ _ "devcontainer" H7) by discriminate.
      rewrite (default_flag_other _ _ _ "devcontainer" H6) by discriminate.
      rewrite (default_flag_own _ _ _ H5).
      rewrite (default_flag_other _ _ _ "devcontainer" H4) by discriminate.
      rewrite (default_or_other _ _ _ _ "devcontainer" H3) by discriminate.
      rewrite (default_or_other _ _ _ _ "devcontainer" H2) by discriminate.
      rewrite (default_or_other _ _ _ _ "devcontainer" H1) by discriminate. reflexivity.
    + rewrite (default_flag_other _ _ _ "precommit" H9) by discriminate.
      rewrite (default_flag_other _ _ _ "precommit" H8) by discriminate.
      rewrite (default_flag_other _ _ _ "precommit" H7) by discriminate.
      rewrite (default_flag_own _ _ _ H6).
      rewrite (default_flag_other _ _ _ "precommit" H5) by discriminate.
      rewrite (default_flag_other _ _ _ "precommit" H4) by discriminate.
      rewrite (default_or_other _ _ _ _ "precommit" H3) by discriminate.
      rewrite (default_or_other _ _ _ _ "precommit" H2) by discriminate.
      rewrite (default_or_other _ _ _ _ "precommit" H1) by discriminate. reflexivity.
    + rewrite (default_flag_other _ _ _ "docker" H9) by discriminate.
      rewrite (default_flag_other _ _ _ "docker" H8) by discriminate.
      rewrite (default_flag_own _ _ _ H7).
      rewrite (default_flag_other _ _ _ "docker" H6) by discriminate.
      rewrite (default_flag_other _ _ _ "docker" H5) by discriminate.
      rewrite (default_flag_other _ _ _ "docker" H4) by discriminate.
      rewrite (default_or_other _ _ _ _ "docker" H3) by discriminate.
      rewrite (default_or_other _ _ _ _ "docker" H2) by discriminate.
      rewrite (default_or_other _ _ _ _ "docker" H1) by discriminate. reflexivity.
    + rewrite (default_flag_other _ _ _ "diagrams" H9) by discriminate.
      rewrite (default_flag_own _ _ _ H8).
      rewrite (default_flag_other _ _ _ "diagrams" H7) by discriminate.
      rewrite (default_flag_other _ _ _ "diagrams" H6) by discriminate.
      rewrite (default_flag_other _ _ _ "diagrams" H5) by discriminate.
      rewrite (default_flag_other _ _ _ "diagrams" H4) by discriminate.
      rewrite (default_or_other _ _ _ _ "diagrams" H3) by discriminate.
      rewrite (default_or_other _ _ _ _ "diagrams" H2) by discriminate.
      rewrite (default_or_other _ _ _ _ "diagrams" H1) by discriminate. reflexivity.
    + rewrite (default_flag_own _ _ _ H9).
      rewrite (default_flag_other _ _ _ "continue" H8) by discriminate.
      rewrite (default_flag_other _ _ _ "continue" H7) by discriminate.
      rewrite (default_flag_other _ _ _ "continue" H6) by discriminate.
      rewrite (default_flag_other _ _ _ "continue" H5) by discriminate.
      rewrite (default_flag_other _ _ _ "continue" H4) by discriminate.
      rewrite (default_or_other _ _ _ _ "continue" H3) by discriminate.
      rewrite (default_or_other _ _ _ _ "continue" H2) by discriminate.
      rewrite (default_or_other _ _ _ _ "continue" H1) by discriminate. reflexivity.
  - intros k Hk. unfold default_keys, text_keys, flag_keys in Hk. simpl in Hk.
    rewrite !not_elem_of_cons in Hk. destruct Hk as (?&?&?&?&?&?&?&?&?&_).
    rewrite (default_flag_other _ _ _ k H9) by assumption.
    rewrite (default_flag_other _ _ _ k H8) by assumption.
    rewrite (default_flag_other _ _ _ k H7) by assumption.
    rewrite (default_flag_other _ _ _ k H6) by assumption.
    rewrite (default_flag_other _ _ _ k H5) by assumption.
    rewrite (default_flag_other _ _ _ k H4) by assumption.
    rewrite (default_or_other _ _ _ _ k H3) by assumption.
    rewrite (default_or_other _ _ _ _ k H2) by assumption.
    rewrite (default_or_other _ _ _ _ k H1) by assumption.
    reflexivity.
  - intros k Hk. unfold default_keys, text_keys, flag_keys in Hk. simpl in Hk.
    rewrite !elem_of_cons in Hk.
    destruct Hk as [->|[->|[->|[->|[->|[->|[->|[->|[->|Hk]]]]]]]]];
      [..|by apply elem_of_nil in Hk].
    + apply default_or_needs in H1.  exact H1.
    + apply default_or_needs in H2. rewrite (default_or_other _ _ _ _ "description" H1) in H2 by discriminate. exact H2.
    + apply default_or_needs in H3. rewrite (default_or_other _ _ _ _ "author" H2) in H3 by discriminate. rewrite (default_or_other _ _ _ _ "author" H1) in H3 by discriminate. exact H3.
    + apply default_flag_needs in H4. rewrite (default_or_other _ _ _ _ "ci" H3) in H4 by discriminate. rewrite (default_or_other _ _ _ _ "ci" H2) in H4 by discriminate. rewrite (default_or_other _ _ _ _ "ci" H1) in H4 by discriminate. exact H4.
    + apply default_flag_needs in H5. rewrite (default_flag_other _ _ _ "devcontainer" H4) in H5 by discriminate. rewrite (default_or_other _ _ _ _ "devcontainer" H3) in H5 by discriminate. rewrite (default_or_other _ _ _ _ "devcontainer" H2) in H5 by discriminate. rewrite (default_or_other _ _ _ _ "devcontainer" H1) in H5 by discriminate. exact H5.
    + apply default_flag_needs in H6. rewrite (default_flag_other _ _ _ "precommit" H5) in H6 by discriminate. rewrite (default_flag_other _ _ _ "precommit" H4) in H6 by discriminate. rewrite (default_or_other _ _ _ _ "precommit" H3) in H6 by discriminate. rewrite (default_or_other _ _ _ _ "precommit" H2) in H6 by discriminate. rewrite (default_or_other _ _ _ _ "precommit" H1) in H6 by discriminate. exact H6.
    + apply default_flag_needs in H7. rewrite (default_flag_other _ _ _ "docker" H6) in H7 by discriminate. rewrite (default_flag_other _ _ _ "docker" H5) in H7 by discriminate. rewrite (default_flag_other _ _ _ "docker" H4) in H7 by discriminate. rewrite (default_or_other _ _ _ _ "docker" H3) in H7 by discriminate. rewrite (default_or_other _ _ _ _ "docker" H2) in H7 by discriminate. rewrite (default_or_other _ _ _ _ "docker" H1) in H7 by discriminate. exact H7.
    + apply default_flag_needs in H8. rewrite (default_flag_other _ _ _ "diagrams" H7) in H8 by discriminate. rewrite (default_flag_other _ _ _ "diagrams" H6) in H8 by discriminate. rewrite (default_flag_other _ _ _ "diagrams" H5) in H8 by discriminate. rewrite (default_flag_other _ _ _ "diagrams" H4) in H8 by discriminate. rewrite (default_or_other _ _ _ _ "diagrams" H3) in H8 by discriminate. rewrite (default_or_other _ _ _ _ "diagrams" H2) in H8 by discriminate. rewrite (default_or_other _ _ _ _ "diagrams" H1) in H8 by discriminate. exact H8.
    + apply default_flag_needs in H9. rewrite (default_flag_other _ _ _ "continue" H8) in H9 by discriminate. rewrite (default_flag_other _ _ _ "continue" H7) in H9 by discriminate. rewrite (default_flag_other _ _ _ "continue" H6) in H9 by discriminate. rewrite (default_flag_other _ _ _ "continue" H5) in H9 by discriminate. rewrite (default_flag_other _ _ _ "continue" H4) in H9 by discriminate. rewrite (default_or_other _ _ _ _ "continue" H3) in H9 by discriminate. rewrite (default_or_other _ _ _ _ "continue" H2) in H9 by discriminate. rewrite (default_or_other _ _ _ _ "continue" H1) in H9 by discriminate. exact H9.
Qed.

Lemma apply_defaults_present d (config : gmap string value) :
  (∀ k, k ∈ default_keys → is_Some (config !! k)) ->
  ∃ config', apply_defaults d config = inr config'.
Proof.
  intros Hk. unfold apply_defaults.
  destruct (default_or_present "name" (DEFAULT_PROJECT_NAME d) config) as [c1 H1].
  {  apply Hk. unfold default_keys. simpl. in_keys. }
  rewrite H1.
  destruct (default_or_present "description" (DEFAULT_DESCRIPTION d) c1) as [c2 H2].
  { rewrite (default_or_other _ _ _ _ "description" H1) by discriminate. apply Hk. unfold default_keys. simpl. in_keys. }
  rewrite H2.
  destruct (default_or_present "author" (DEFAULT_AUTHOR d) c2) as [c3 H3].
  { rewrite (default_or_other _ _ _ _ "author" H2) by discriminate. rewrite (default_or_other _ _ _ _ "author" H1) by discriminate. apply Hk. unfold default_keys. simpl. in_keys. }
  rewrite H3.
  destruct (default_flag_present "ci" c3) as [c4 H4].
  { rewrite (default_or_other _ _ _ _ "ci" H3) by discriminate. rewrite (default_or_other _ _ _ _ "ci" H2) by discriminate. rewrite (default_or_other _ _ _ _ "ci" H1) by discriminate. apply Hk. unfold default_keys. simpl. in_keys. }
  rewrite H4.
  destruct (default_flag_present "devcontainer" c4) as [c5 H5].
  { rewrite (default_flag_other _ _ _ "devcontainer" H4) by discriminate. rewrite (default_or_other _ _ _ _ "devcontainer" H3) by discriminate. rewrite (default_or_other _ _ _ _ "devcontainer" H2) by discriminate. rewrite (default_or_other _ _ _ _ "devcontainer" H1) by discriminate. apply Hk. unfold default_keys. simpl. in_keys. }
  rewrite H5.
  destruct (default_flag_present "precommit" c5) as [c6 H6].
  { rewrite (default_flag_other _ _ _ "precommit" H5) by discriminate. rewrite (default_flag_other _ _ _ "precommit" H4) by discriminate. rewrite (default_or_other _ _ _ _ "precommit" H3) by discriminate. rewrite (default_or_other _ _ _ _ "precommit" H2) by discriminate. rewrite (default_or_other _ _ _ _ "precommit" H1) by discriminate. apply Hk. unfold default_keys. simpl. in_keys. }
  rewrite H6.
  destruct (default_flag_present "docker" c6) as [c7 H7].
  { rewrite (default_flag_other _ _ _ "docker" H6) by discriminate. rewrite (default_flag_other _ _ _ "docker" H5) by discriminate. rewrite (default_flag_other _ _ _ "docker" H4) by discriminate. rewrite (default_or_other _ _ _ _ "docker" H3) by discriminate. rewrite (default_or_other _ _ _ _ "docker" H2) by discriminate. rewrite (default_or_other _ _ _ _ "docker" H1) by discriminate. apply Hk. unfold default_keys. simpl. in_keys. }
  rewrite H7.
  destruct (default_flag_present "diagrams" c7) as [c8 H8].
  { rewrite (default_flag_other _ _ _ "diagrams" H7) by discriminate. rewrite (default_flag_other _ _ _ "diagrams" H6) by discriminate. rewrite (default_flag_other _ _ _ "diagrams" H5) by discriminate. rewrite (default_flag_other _ _ _ "diagrams" H4) by discriminate. rewrite (default_or_other _ _ _ _ "diagrams" H3) by discriminate. rewrite (default_or_other _ _ _ _ "diagrams" H2) by discriminate. rewrite (default_or_other _ _ _ _ "diagrams" H1) by discriminate. apply Hk. unfold default_keys. simpl. in_keys. }
  rewrite H8.
  destruct (default_flag_present "continue" c8) as [c9 H9].
  { rewrite (default_flag_other _ _ _ "continue" H8) by discriminate. rewrite (default_flag_other _ _ _ "continue" H7) by discriminate. rewrite (default_flag_other _ _ _ "continue" H6) by discriminate. rewrite (default_flag_other _ _ _ "continue" H5) by discriminate. rewrite (default_flag_other _ _ _ "continue" H4) by discriminate. rewrite (default_or_other _ _ _ _ "continue" H3) by discriminate. rewrite (default_or_other _ _ _ _ "continue" H2) by discriminate. rewrite (default_or_other _ _ _ _ "continue" H1) by discriminate. apply Hk. unfold default_keys. simpl. in_keys. }
  rewrite H9.
  eauto.
Qed.


Lemma default_or_settled key d (config : gmap string value) v :
  config !! key = Some v -> defaulted_text d v = v ->
  default_or key d config = inr config.
Proof.
  intros Hk Hv. unfold default_or, subscript. rewrite Hk.
  unfold defaulted_text in Hv. rewrite Hv, insert_id by done. reflexivity.
Qed.

Lemma default_flag_settled key (config : gmap string value) v :
  config !! key = Some v -> defaulted_flag v = v ->
  default_flag key config = inr config.
Proof.
  intros Hk Hv. unfold default_flag, subscript. rewrite Hk.
  unfold defaulted_flag in Hv. destruct (is_none v) eqn:Hn; [|reflexivity].
  subst v. discriminate.
Qed.

Lemma apply_defaults_settled d config :
  settled d config -> apply_defaults d config = inr config.
Proof.
  intros ((v1 & H1 & E1) & (v2 & H2 & E2) & (v3 & H3 & E3) & Hf). unfold apply_defaults.
  rewrite (default_or_settled _ _ _ _ H1 E1), (default_or_settled _ _ _ _ H2 E2),
    (default_or_settled _ _ _ _ H3 E3).
  destruct (Hf "ci") as (b1 & F1 & G1); [in_keys|].
  destruct (Hf "devcontainer") as (b2 & F2 & G2); [in_keys|].
  destruct (Hf "precommit") as (b3 & F3 & G3); [in_keys|].
  destruct (Hf "docker") as (b4 & F4 & G4); [in_keys|].
  destruct (Hf "diagrams") as (b5 & F5 & G5); [in_keys|].
  destruct (Hf "continue") as (b6 & F6 & G6); [in_keys|].
  rewrite (default_flag_settled _ _ _ F1 G1), (default_flag_settled _ _ _ F2 G2),
    (default_flag_settled _ _ _ F3 G3), (default_flag_settled _ _ _ F4 G4),
    (default_flag_settled _ _ _ F5 G5), (default_flag_settled _ _ _ F6 G6).
  reflexivity.
Qed.

Lemma fmap_Some_inv {A B} (f : A -> B) (o : option A) y :
  f <$> o = Some y -> ∃ x, o = Some x ∧ y = f x.
Proof. destruct o; simpl; [|discriminate]. intros [= <-]. eauto. Qed.

Lemma apply_defaults_result_settled d config config' :
  apply_defaults d config = inr config' -> settled d config'.
Proof.
  intros H.
  destruct (apply_defaults_lookup _ _ _ H) as (L1 & L2 & L3 & Lf & _ & Hp).
  assert (∀ k dflt, k ∈ default_keys →
            config' !! k = defaulted_text dflt <$> config !! k →
            ∃ v, config' !! k = Some v ∧ defaulted_text dflt v = v) as Htext.
  { intros k dflt Hk Hl. destruct (Hp k Hk) as [x Hx]. rewrite Hx in Hl.
    eexists. split; [exact Hl|]. apply py_or_idem. }
  split; [apply Htext; [unfold default_keys; simpl; in_keys | done]|].
  split; [apply Htext; [unfold default_keys; simpl; in_keys | done]|].
  split; [apply Htext; [unfold default_keys; simpl; in_keys | done]|].
  intros k Hk. destruct (Hp k) as [x Hx].
  { unfold default_keys. apply elem_of_app. by right. }
  exists (defaulted_flag x). rewrite (Lf k Hk), Hx. split; [done|].
  apply defaulted_flag_idem.
Qed.

(** The defaulting step is idempotent: applied to its own result it
    changes nothing. *)
Theorem apply_defaults_idempotent (d : defaults) (config config' : gmap string value) :
  apply_defaults d config = inr config' -> apply_defaults d config' = inr config'.
Proof. intros H. apply apply_defaults_settled. eapply apply_defaults_result_settled, H. Qed.


Ltac in_not_keys :=
  unfold default_keys, text_keys, flag_keys; simpl;
  rewrite !not_elem_of_cons; repeat split; try discriminate; apply not_elem_of_nil.

Lemma initial_config_lookup args :
  initial_config args !! "name" = Some (of_option_str (arg_name args))
  ∧ initial_config args !! "description" = Some (of_option_str (arg_description args))
  ∧ initial_config args !! "author" = Some (of_option_str (arg_author args))
  ∧ initial_config args !! "python" = Some (VStr (arg_python args))
  ∧ initial_config args !! "ci" = Some (of_option_bool (arg_ci args))
  ∧ initial_config args !! "devcontainer" = Some (of_option_bool (arg_devcontainer args))
  ∧ initial_config args !! "precommit" = Some (of_option_bool (arg_precommit args))
  ∧ initial_config args !! "docker" = Some (of_option_bool (arg_docker args))
  ∧ initial_config args !! "diagrams" = Some (of_option_bool (arg_diagrams args))
  ∧ initial_config args !! "continue" = Some (of_option_bool (arg_continue args)).
Proof.
  unfold initial_config.
  repeat split; repeat (rewrite lookup_insert_ne by discriminate); apply lookup_insert_eq.
Qed.

Lemma defaulted_text_string d o : ∃ s, defaulted_text d (of_option_str o) = VStr s.
Proof.
  unfold defaulted_text, py_or. destruct o as [s|]; simpl; [|eauto].
  destruct (String.eqb s ""); simpl; eauto.
Qed.

Lemma defaulted_flag_truthy o :
  truthy (defaulted_flag (of_option_bool o)) = default true o.
Proof. by destruct o. Qed.

Lemma apply_defaults_idempotent_witness :
  apply_defaults example_defaults
    (<["description" := VStr (DEFAULT_DESCRIPTION example_defaults)]>
       (example_config "" (VBool false) false))
  = inr (<["description" := VStr (DEFAULT_DESCRIPTION example_defaults)]>
           (example_config "" (VBool false) false)).
Proof.
  apply (apply_defaults_idempotent example_defaults
           (example_config "" (VBool false) false)).
  exact (apply_defaults_empty_description example_defaults).
Defined.


(* ===================================================================== *)
(** * What [generate_project] leaves behind *)
(* ===================================================================== *)

(** ** What a run of [generate_project] consists of *)

Lemma resolve_destination_inr config name w root w1 :
  resolve_destination config (VStr name) w = (inr root, w1) ->
  w1 = w ∧ root = destination config name w ∧ destination_free config name w.
Proof.
  intros H. pose proof (resolve_destination_world _ _ _ _ _ H) as ->.
  split; [done|]. revert H.
  unfold resolve_destination, destination, destination_free.
  destruct (truthy (dict_get config "_use_cwd")).
  - rewrite se_bind_run. unfold get_cwd at 1.
    case_bool_decide; [|discriminate]. cbv beta iota.
    rewrite se_bind_run.
    destruct (tree w !! cwd w) as [[c|]|] eqn:Hcwd;
      try (unfold iterdir; rewrite Hcwd; discriminate).
    destruct (iterdir_spec _ _ Hcwd) as (entries & -> & Hentries).
    destruct (existsb _ entries) eqn:Hex; [discriminate|].
    unfold se_ret. intros [= <-]. split; [done|].
    intros x Hx. destruct (decide (x = ".git")) as [|Hne]; [done|].
    assert (existsb (fun x => negb (String.eqb x ".git")) entries = true) as Hex'.
    { apply existsb_not_git. exists x. split; [by apply Hentries | done]. }
    congruence.
  - rewrite se_bind_run. unfold get_cwd at 1.
    case_bool_decide; [|discriminate]. cbv beta iota.
    rewrite se_bind_run. unfold se_lift at 1, path_div. cbv beta iota.
    rewrite se_bind_run. unfold path_exists, pjoin.
    destruct (tree w !! (cwd w ++ [name])) as [n|] eqn:Hn.
    + rewrite bool_decide_eq_true_2 by eauto. discriminate.
    + rewrite bool_decide_eq_false_2 by (by intros [? ?]).
      unfold se_ret. intros [= <-]. done.
Qed.

(** A run either stops before the writing part, with the world as it was,
    or is the processing of the table from the resolved destination. *)
Lemma generate_project_inv render config w r w' :
  generate_project render config w = (r, w') ->
  (∃ e, r = inl e ∧ w' = w)
  ∨ ∃ name context r0 s',
      config !! "name" = Some (VStr name)
      ∧ destination_free config name w
      ∧ build_context config (VStr name) = inr context
      ∧ write_all (destination config name w)
          (file_plan render context name (config_flags config))
          {| gs_world := w; created := [] |} = (r0, s')
      ∧ w' = gs_world s'
      ∧ r = match r0 with inl e => inl e | inr _ => inr (created s') end.
Proof.
  unfold generate_project. rewrite se_bind_run. unfold se_lift at 1, subscript.
  destruct (config !! "name") as [v|] eqn:Hname.
  2:{ intros [= <- <-]. left. by eexists. }
  cbv beta iota. rewrite se_bind_run.
  destruct (resolve_destination config v w) as [[e|root] w1] eqn:Hdest.
  { intros [= <- <-]. apply resolve_destination_world in Hdest as ->.
    left. by exists e. }
  rewrite se_bind_run. unfold se_lift at 1.
  destruct v as [| |name];
    try (pose proof (resolve_destination_world _ _ _ _ _ Hdest) as ->;
         simpl; intros [= <- <-]; left; by eexists).
  apply resolve_destination_inr in Hdest as (-> & -> & Hfree).
  simpl path_div. cbv beta iota.
  rewrite se_bind_run. unfold se_lift at 1.
  destruct (build_context config (VStr name)) as [e|context] eqn:Hctx.
  { intros [= <- <-]. left. by exists e. }
  cbv beta iota. unfold with_created.
  rewrite generate_files_plan by (eapply build_context_flags; eauto).
  destruct (write_all _ _ _) as [r0 s'] eqn:Hrun.
  intros H. right. exists name, context, r0, s'.
  split; [done|]. split; [done|]. split; [done|]. split; [done|].
  destruct r0 as [e|[]]; by simplify_eq.
Qed.

(** ** Errors of the writing part *)

Lemma os_mkdir_error p w e w' :
  os_mkdir p w = (inl e, w') -> is_os_error e.
Proof.
  unfold os_mkdir, is_os_error. intros H.
  repeat case_match; simplify_eq; eauto.
Qed.

Lemma mkdir_once_error b p w e w' :
  mkdir_once b p w = (inl e, w') -> is_os_error e.
Proof.
  unfold mkdir_once. intros H.
  destruct (os_mkdir p w) as [[e1|[]] w1] eqn:Hm; [|discriminate].
  apply os_mkdir_error in Hm as (en & q & ->).
  destruct en; destruct (b && is_dir w1 p); simplify_eq; by eexists _, _.
Qed.

Lemma mkdir_parents_rev_error rp : ∀ w e w',
  mkdir_parents_rev rp w = (inl e, w') -> is_os_error e.
Proof.
  induction rp as [|x rp IH]; intros w e w' H; simpl in H.
  - destruct (os_mkdir [] w) as [[e1|[]] w1] eqn:Hm; [|discriminate].
    apply os_mkdir_error in Hm as (en & q & ->).
    destruct en; destruct (is_dir w1 []); simplify_eq; by eexists _, _.
  - destruct (os_mkdir (rev rp ++ [x]) w) as [[e1|[]] w1] eqn:Hm; [|discriminate].
    apply os_mkdir_error in Hm as (en & q & ->).
    destruct en;
      try (destruct (is_dir w1 (rev rp ++ [x])); simplify_eq; by eexists _, _).
    destruct (mkdir_parents_rev rp w1) as [[e2|[]] w2] eqn:Hrec.
    + simplify_eq. eapply IH; eauto.
    + eapply mkdir_once_error; eauto.
Qed.

Lemma write_text_error p c w e w' :
  write_text p c w = (inl e, w') -> is_os_error e.
Proof.
  unfold write_text, is_os_error. intros H.
  repeat case_match; simplify_eq; eauto.
Qed.

Lemma write_file_error root rel content s e s' :
  _write_file (root ++ rel) content root s = (inl e, s') -> is_os_error e.
Proof.
  rewrite write_file_run.
  destruct (mkdir_parents _ _) as [[e1|[]] w1] eqn:Hmk.
  { intros [= <- <-]. unfold mkdir_parents in Hmk.
    eapply mkdir_parents_rev_error; eauto. }
  destruct (write_text _ _ w1) as [[e2|[]] w2] eqn:Hwr.
  { intros [= <- <-]. eapply write_text_error; eauto. }
  rewrite relative_to_app. discriminate.
Qed.

Lemma write_all_error root plan : ∀ s e s',
  write_all root plan s = (inl e, s') -> is_os_error e.
Proof.
  induction plan as [|[rel c] plan IH]; intros s e s' H; simpl in H.
  - discriminate.
  - rewrite se_bind_run in H.
    destruct (_write_file _ _ _ s) as [[e1|[]] s1] eqn:Hw.
    + simplify_eq. eapply write_file_error; eauto.
    + eapply IH; eauto.
Qed.

(** ** What the writing part adds *)

Lemma os_mkdir_creates p w r w' :
  os_mkdir p w = (r, w') ->
  ∀ q, tree w' !! q = tree w !! q ∨ (tree w !! q = None ∧ q = p).
Proof.
  intros H q. apply os_mkdir_inv in H as [(-> & Hp & ->)|(e & -> & ->)]; [|by left].
  simpl. destruct (decide (p = q)) as [->|Hne]; [by right|].
  left. by rewrite lookup_insert_ne.
Qed.

Lemma mkdir_once_creates b p w r w' :
  mkdir_once b p w = (r, w') ->
  ∀ q, tree w' !! q = tree w !! q ∨ (tree w !! q = None ∧ q = p).
Proof.
  unfold mkdir_once. intros H.
  destruct (os_mkdir p w) as [r1 w1] eqn:Hm.
  pose proof (os_mkdir_creates _ _ _ _ Hm) as Hc.
  assert (w' = w1) as ->; [|done].
  destruct r1 as [e|[]]; [|by simplify_eq].
  destruct e as [| | | | | [] ?| | |]; try (destruct (b && is_dir w1 p)); by simplify_eq.
Qed.

Lemma mkdir_parents_rev_creates rp : ∀ w r w',
  mkdir_parents_rev rp w = (r, w') ->
  ∀ q, tree w' !! q = tree w !! q ∨ (tree w !! q = None ∧ q `prefix_of` rev rp).
Proof.
  induction rp as [|x rp IH]; intros w r w' H q; simpl in H.
  - destruct (os_mkdir [] w) as [r1 w1] eqn:Hm.
    destruct (os_mkdir_inv _ _ _ _ Hm) as [(-> & Hp & ->)|(e' & -> & ->)].
    + simplify_eq. destruct (os_mkdir_creates _ _ _ _ Hm q) as [?|[? ->]]; [by left|].
      by right.
    + left. assert (w' = w) as ->; [|done].
      destruct e' as [| | | | | [] ?| | |]; try (destruct (is_dir w [])); by simplify_eq.
  - destruct (os_mkdir (rev rp ++ [x]) w) as [r1 w1] eqn:Hm.
    pose proof (os_mkdir_creates _ _ _ _ Hm q) as Hc.
    destruct (os_mkdir_inv _ _ _ _ Hm) as [(-> & Hp & Hw1)|(e' & -> & ->)].
    + simplify_eq. destruct Hc as [?|[? ->]]; [by left | by right].
    + destruct e' as [| | | | | [] ?| | |];
        try (left; assert (w' = w) as ->; [|done];
             try (destruct (is_dir w (rev rp ++ [x]))); by simplify_eq).
      destruct (mkdir_parents_rev rp w) as [r2 w2] eqn:Hrec.
      pose proof (IH _ _ _ Hrec q) as Hq2.
      destruct r2 as [e|[]].
      * simplify_eq. destruct Hq2 as [?|[? ?]]; [by left|].
        right. split; [done|]. by apply prefix_app_r.
      * destruct (mkdir_once_creates _ _ _ _ _ H q) as [Hq3|[Hq3 ->]].
        -- rewrite Hq3. destruct Hq2 as [?|[? ?]]; [by left|].
           right. split; [done|]. by apply prefix_app_r.
        -- destruct Hq2 as [Hq2|[Hq2 _]]; [|by right].
           right. split; [congruence | done].
Qed.

Lemma parent_prefix (p : path) : parent p `prefix_of` p.
Proof.
  destruct p as [|x p _] using rev_ind; [done|].
  rewrite parent_snoc. by apply prefix_app_r.
Qed.

Lemma adds_below_refl root w : adds_below root w w.
Proof. split; [done|]. split; [done|]. intros q. by left. Qed.

(** One call of [_write_file] below [root], whatever its outcome, when the
    ancestors of [root] exist and the target did not exist at first. *)
Lemma write_file_adds_below root w0 rel content s r s' :
  (∀ q, q `prefix_of` root → q ≠ root → is_Some (tree w0 !! q)) ->
  tree w0 !! (root ++ rel) = None ->
  adds_below root w0 (gs_world s) ->
  _write_file (root ++ rel) content root s = (r, s') ->
  adds_below root w0 (gs_world s').
Proof.
  intros Habove Hnew (Hc & Hd & Ht) Hrun. rewrite write_file_run in Hrun.
  destruct (mkdir_parents _ (gs_world s)) as [r1 w1] eqn:Hmk.
  pose proof (mkdir_parents_grows _ _ _ _ Hmk) as [(Hc1 & Hd1 & _) _].
  unfold mkdir_parents in Hmk.
  pose proof (mkdir_parents_rev_creates _ _ _ _ Hmk) as Ht1.
  rewrite rev_involutive in Ht1.
  assert (adds_below root w0 w1) as Hw1.
  { split; [congruence|]. split; [congruence|]. intros q.
    destruct (Ht1 q) as [Hq|[Hq Hpre]].
    - rewrite Hq. apply Ht.
    - destruct (Ht q) as [Hq0|[Hq0 Hr]].
      + right. split; [congruence|].
        assert (q `prefix_of` root ++ rel) as Hpre'.
        { etrans; [exact Hpre | apply parent_prefix]. }
        apply prefix_app_cases in Hpre' as [Hqr|(k & -> & _)]; [|by apply prefix_app_r].
        destruct (decide (q = root)) as [->|Hne]; [done|].
        destruct (Habove _ Hqr Hne) as [n Hn]. congruence.
      + right. done. }
  destruct r1 as [e|[]]; [by simplify_eq|].
  destruct (write_text (root ++ rel) content w1) as [r2 w2] eqn:Hwr.
  assert (adds_below root w0 w2) as Hw2.
  { apply write_text_inv in Hwr as [(-> & _ & ->)|(e & -> & ->)]; [|done].
    destruct Hw1 as (Hc2 & Hd2 & Ht2).
    split; [done|]. split; [done|]. intros q. simpl.
    destruct (decide (root ++ rel = q)) as [<-|Hne].
    - right. split; [done|]. by apply prefix_app_r.
    - rewrite lookup_insert_ne by done. apply Ht2. }
  destruct r2 as [e|[]]; [by simplify_eq|].
  destruct (relative_to _ _); by simplify_eq.
Qed.

Lemma write_all_adds_below root w0 plan : ∀ s r s',
  (∀ q, q `prefix_of` root → q ≠ root → is_Some (tree w0 !! q)) ->
  Forall (fun rel => tree w0 !! (root ++ rel) = None) plan.*1 ->
  adds_below root w0 (gs_world s) ->
  write_all root plan s = (r, s') ->
  adds_below root w0 (gs_world s').
Proof.
  induction plan as [|[rel c] plan IH]; intros s r s' Habove Hnew Hs Hrun; simpl in Hrun.
  - unfold se_ret in Hrun. by simplify_eq.
  - rewrite se_bind_run in Hrun. apply Forall_cons in Hnew as [Hrel Hnew].
    destruct (_write_file _ _ _ s) as [r1 s1] eqn:Hw.
    pose proof (write_file_adds_below _ _ _ _ _ _ _ Habove Hrel Hs Hw) as Hs1.
    destruct r1 as [e|[]]; [by simplify_eq|]. eapply IH; eauto.
Qed.

(** The paths of the table are not empty and do not start with [.git]. *)
Lemma expected_paths_heads name f :
  Forall (fun rel => rel ≠ [] ∧ head rel ≠ Some ".git") (expected_paths name f).
Proof.
  destruct f as [[] [] [] [] [] []];
    unfold expected_paths, always_paths, optional_paths, group_when; simpl;
    repeat constructor; discriminate.
Qed.

(** On a tree-shaped file system, a free destination has nothing at the
    paths of the table, and what lies above it exists. *)
Lemma destination_free_absent config name w rel :
  wf_world w -> destination_free config name w ->
  rel ≠ [] -> head rel ≠ Some ".git" ->
  tree w !! (destination config name w ++ rel) = None.
Proof.
  intros [Hwf Hcwd] Hfree Hne Hgit. unfold destination, destination_free, pjoin in *.
  destruct rel as [|x rel]; [done|].
  destruct (truthy (dict_get config "_use_cwd")).
  - destruct (tree w !! (cwd w ++ x :: rel)) as [n|] eqn:Hl; [|done].
    exfalso. apply Hgit. simpl. f_equal. apply Hfree.
    destruct rel as [|y rel]; [by rewrite Hl|].
    rewrite (wf_prefix_dir (tree w) (cwd w ++ [x]) (y :: rel)); try done.
    rewrite <- app_assoc. simpl. by rewrite Hl.
  - destruct (tree w !! ((cwd w ++ [name]) ++ x :: rel)) as [n|] eqn:Hl; [|done].
    rewrite (wf_prefix_dir (tree w) (cwd w ++ [name]) (x :: rel)) in Hfree;
      [done | done | by rewrite Hl | done].
Qed.

Lemma destination_above config name w q :
  wf_world w ->
  q `prefix_of` destination config name w -> q ≠ destination config name w ->
  is_Some (tree w !! q).
Proof.
  intros [Hwf Hcwd] Hq Hne. unfold destination, pjoin in *.
  destruct (truthy (dict_get config "_use_cwd")).
  - rewrite (wf_prefix_of_dir _ _ _ Hwf Hcwd Hq). eauto.
  - apply prefix_snoc_cases in Hq as [Hq|?]; [|done].
    rewrite (wf_prefix_of_dir _ _ _ Hwf Hcwd Hq). eauto.
Qed.

(** What a validation that passes says about the name. *)
Lemma validate_inr_name stdlib_module_names config name :
  validate stdlib_module_names config = inr name ->
  config !! "name" = Some (VStr name)
  ∧ _validate_project_name stdlib_module_names name = inr tt.
Proof.
  unfold validate, subscript.
  destruct (config !! "name") as [[| |n]|]; try discriminate.
  destruct (_validate_project_name stdlib_module_names n) as [|[]] eqn:Hn;
    [discriminate|].
  destruct (config !! "python") as [p|]; [|discriminate]. cbv beta iota.
  destruct (_validate_python_version (py_str p)) as [|[]]; [discriminate|].
  intros [= <-]. done.
Qed.

(** Whatever the outcome of a run, what existed is as it was and what is
    new lies at or below the destination. *)
Lemma generate_project_frame render config name w r w' :
  config !! "name" = Some (VStr name) ->
  wf_world w ->
  generate_project render config w = (r, w') ->
  adds_below (destination config name w) w w'.
Proof.
  intros Hname Hwf Hrun.
  apply generate_project_inv in Hrun
    as [(e & -> & ->)|(name' & context & r0 & s' & Hname' & Hfree & _ & Hrun & -> & _)].
  { apply adds_below_refl. }
  assert (name' = name) as -> by congruence.
  eapply (write_all_adds_below _ w); [| | |exact Hrun].
  - intros q. by apply destination_above.
  - rewrite file_plan_paths.
    eapply Forall_impl; [apply expected_paths_heads|].
    intros rel [Hne Hgit]. by apply destination_free_absent.
  - apply adds_below_refl.
Qed.

(** With a validated project name, on a tree-shaped file system: whatever
    the outcome of [generate_project] (returned, refused destination,
    missing key, error half-way), nothing that existed is modified or
    removed, and whatever is new lies at or below the destination, which is
    [cwd / name], or [cwd] in current-directory mode. *)
Theorem generate_project_adds_below_destination
    (stdlib_module_names : gset string)
    (render : string -> gmap string value -> string)
    (config : gmap string value) (name : string) (w : world)
    (r : result (list path)) (w' : world) :
  validate stdlib_module_names config = inr name ->
  wf_world w ->
  generate_project render config w = (r, w') ->
  cwd w' = cwd w ∧ denied w' = denied w
  ∧ ∀ q, tree w' !! q = tree w !! q
         ∨ (tree w !! q = None ∧ destination config name w `prefix_of` q).
Proof.
  intros Hvalid Hwf Hrun. apply validate_inr_name in Hvalid as [Hname _].
  exact (generate_project_frame _ _ _ _ _ _ Hname Hwf Hrun).
Qed.

Lemma build_context_requires config v k :
  k ∈ required_keys -> k ≠ "name" -> config !! k = None ->
  ∃ e, build_context config v = inl e.
Proof.
  intros Hk Hn Hnone.
  destruct (build_context config v) as [e|context] eqn:Hctx; [by eexists|].
  exfalso. revert Hctx. unfold build_context, subscript. intros H.
  repeat match type of H with
         | context [config !! ?key] =>
             destruct (config !! key) as [?|] eqn:?; simpl in H; [|discriminate H]
         | context [escape_value ?x] =>
             destruct (escape_value x) as [?|?] eqn:?; simpl in H; [discriminate H|]
         end.
  unfold required_keys in Hk. rewrite !elem_of_cons in Hk.
  destruct Hk as [->|[->|[->|[->|[->|[->|[->|[->|[->|[->|Hk]]]]]]]]]]; try congruence.
  by apply elem_of_nil in Hk.
Qed.

(** [generate_project] needs the eight keys its docstring lists and also
    [diagrams] and [continue]: on a configuration that lacks one of the
    ten, it raises and leaves the world as it was. *)
Theorem generate_project_requires_keys
    (render : string -> gmap string value -> string)
    (config : gmap string value) (k : string) (w : world) :
  k ∈ required_keys -> config !! k = None ->
  ∃ e, generate_project render config w = (inl e, w).
Proof.
  intros Hk Hnone.
  destruct (generate_project render config w) as [r w'] eqn:Hrun.
  apply generate_project_inv in Hrun
    as [(e & -> & ->)|(name & context & r0 & s' & Hname & _ & Hctx & _)];
    [by eexists|].
  exfalso. destruct (decide (k = "name")) as [->|Hn]; [congruence|].
  destruct (build_context_requires config (VStr name) k Hk Hn Hnone) as [e He].
  congruence.
Qed.

(** ** What the files hold *)

Lemma write_file_keeps_file p q c content root s r s' :
  _write_file q content root s = (r, s') -> q ≠ p ->
  tree (gs_world s) !! p = Some (File c) -> tree (gs_world s') !! p = Some (File c).
Proof.
  intros Hrun Hne Hp. rewrite write_file_run in Hrun.
  destruct (mkdir_parents _ (gs_world s)) as [r1 w1] eqn:Hmk.
  apply mkdir_parents_grows in Hmk as [Hg _].
  pose proof (grows_file _ _ _ _ Hg Hp) as Hp1.
  destruct r1 as [e|[]]; [by simplify_eq|].
  destruct (write_text q content w1) as [r2 w2] eqn:Hwr.
  assert (tree w2 !! p = Some (File c)) as Hp2.
  { apply write_text_inv in Hwr as [(-> & _ & ->)|(e & -> & ->)]; [|done].
    simpl. by rewrite lookup_insert_ne. }
  destruct r2 as [e|[]]; [by simplify_eq|].
  destruct (relative_to _ _); by simplify_eq.
Qed.

Lemma write_file_written p content root s s' :
  _write_file p content root s = (inr tt, s') ->
  tree (gs_world s') !! p = Some (File content).
Proof.
  rewrite write_file_run.
  destruct (mkdir_parents _ (gs_world s)) as [[e|[]] w1]; [discriminate|].
  destruct (write_text p content w1) as [[e|[]] w2] eqn:Hwr; [discriminate|].
  apply write_text_inv in Hwr as [(_ & _ & ->)|(e & ? & _)]; [|discriminate].
  destruct (relative_to _ _); [discriminate|]. intros [= <-]. simpl.
  apply lookup_insert_eq.
Qed.

Lemma write_all_keeps_file root plan p c : ∀ s r s',
  Forall (fun rel => root ++ rel ≠ p) plan.*1 ->
  write_all root plan s = (r, s') ->
  tree (gs_world s) !! p = Some (File c) -> tree (gs_world s') !! p = Some (File c).
Proof.
  induction plan as [|[rel c0] plan IH]; intros s r s' Hne Hrun Hp; simpl in Hrun.
  - unfold se_ret in Hrun. by simplify_eq.
  - rewrite se_bind_run in Hrun. apply Forall_cons in Hne as [Hrel Hne].
    destruct (_write_file _ _ _ s) as [r1 s1] eqn:Hw.
    pose proof (write_file_keeps_file _ _ _ _ _ _ _ _ Hw Hrel Hp) as Hp1.
    destruct r1 as [e|[]]; [by simplify_eq|]. eapply IH; eauto.
Qed.

(** After the table is processed without error, every file of the table
    holds its content, when no path occurs twice in it. *)
Lemma write_all_contents root plan : ∀ s s',
  NoDup plan.*1 ->
  write_all root plan s = (inr tt, s') ->
  ∀ rel c, (rel, c) ∈ plan → tree (gs_world s') !! (root ++ rel) = Some (File c).
Proof.
  induction plan as [|[rel0 c0] plan IH]; intros s s' Hnd Hrun rel c Hin.
  - by apply elem_of_nil in Hin.
  - simpl in Hrun. rewrite se_bind_run in Hrun.
    apply NoDup_cons in Hnd as [Hnotin Hnd].
    destruct (_write_file _ _ _ s) as [[e|[]] s1] eqn:Hw; [discriminate|].
    apply elem_of_cons in Hin as [[= -> ->]|Hin]; [|by eapply IH].
    eapply write_all_keeps_file; [|exact Hrun|by eapply write_file_written].
    apply Forall_forall. intros rel Hrel Heq. apply app_inv_head in Heq as ->. done.
Qed.

Lemma group_when_sublist {A} b (g : list A) : group_when b g `sublist_of` g.
Proof. destruct b; [done | apply sublist_nil_l]. Qed.

Lemma expected_paths_sublist name f :
  expected_paths name f `sublist_of` expected_paths name all_flags.
Proof.
  unfold expected_paths, optional_paths.
  repeat (apply sublist_app; [first [done | apply group_when_sublist]|]).
  apply group_when_sublist.
Qed.

Lemma expected_paths_NoDup name f : NoDup (expected_paths name f).
Proof.
  eapply sublist_NoDup; [|apply expected_paths_sublist].
  unfold expected_paths, always_paths, optional_paths, all_flags, group_when. simpl.
  repeat (apply NoDup_cons; split;
          [intros H; repeat (apply elem_of_cons in H as [H|H]; [discriminate|]);
           by apply elem_of_nil in H|]).
  apply NoDup_nil_2.
Qed.

(** Whenever [generate_project] returns, every file of the table holds its
    content. *)
Lemma generate_project_files render config w paths w' :
  generate_project render config w = (inr paths, w') ->
  ∃ name context,
    config !! "name" = Some (VStr name)
    ∧ build_context config (VStr name) = inr context
    ∧ paths = (file_plan render context name (config_flags config)).*1
    ∧ ∀ rel content,
        (rel, content) ∈ file_plan render context name (config_flags config) →
        tree w' !! (destination config name w ++ rel) = Some (File content).
Proof.
  intros Hrun.
  apply generate_project_inv in Hrun
    as [(e & ? & _)|(name & context & r0 & s' & Hname & _ & Hctx & Hrun & -> & Hr)];
    [discriminate|].
  destruct r0 as [e|[]]; [discriminate|]. injection Hr as ->.
  exists name, context. split; [done|]. split; [done|]. split.
  - assert (tracks (destination config name w) (write_log w)
              {| gs_world := w; created := [] |}) as Htr.
    { split; [by rewrite app_nil_r | constructor]. }
    destruct (write_all_tracks _ _ _ _ _ _ Htr Hrun) as (_ & d & Hd & _ & Hall).
    rewrite Hd. simpl. by apply (Hall tt).
  - eapply write_all_contents; [|exact Hrun].
    rewrite file_plan_paths. apply expected_paths_NoDup.
Qed.


Lemma run_returns {A S : Type} (run : A * S) (a : A) : fst run = a -> run = (a, snd run).
Proof. intros <-. apply surjective_pairing. Qed.

Lemma generate_project_adds_below_destination_witness :
  cwd (snd refused_run) = cwd refusing_home
  ∧ denied (snd refused_run) = denied refusing_home
  ∧ ∀ q, tree (snd refused_run) !! q = tree refusing_home !! q
         ∨ (tree refusing_home !! q = None
            ∧ destination (example_config "A test project" (VBool true) false)
                "testproject" refusing_home `prefix_of` q).
Proof.
  apply (generate_project_adds_below_destination ∅ example_render
           (example_config "A test project" (VBool true) false) "testproject"
           refusing_home (fst refused_run) (snd refused_run)).
  - vm_compute. reflexivity.
  - split; [apply wf_treeb_wf|]; vm_compute; reflexivity.
  - apply surjective_pairing.
Defined.

Lemma generate_project_requires_keys_witness :
  ∃ e, generate_project example_render docstring_config empty_home = (inl e, empty_home).
Proof.
  apply (generate_project_requires_keys example_render docstring_config "continue"
           empty_home).
  - unfold required_keys. in_keys.
  - vm_compute. reflexivity.
Defined.


(** ** The pre-conditions on the destination *)

(** C2.  With a validated project name, on a tree-shaped file system: in
    subdirectory mode, if [cwd / name] exists, as a file or as a directory,
    [generate_project] raises the destination-exists error and leaves the
    world as it was; in current-directory mode, if the working directory
    has an entry other than [.git], it raises the destination-not-empty
    error and leaves the world as it was; in current-directory mode with no
    entry other than [.git], when the operating system refuses nothing
    below the working directory and the texts to write are plain ASCII,
    generation succeeds: it returns the paths of the table for the flags,
    having written these files in this order into the working directory,
    each with the rendering of its template, and what was there before
    ([.git] included) is as it was. *)
Theorem destination_preconditions (stdlib_module_names : gset string)
    (render : string -> gmap string value -> string)
    (config : gmap string value) (name : string) (w : world) :
  validate stdlib_module_names config = inr name ->
  wf_world w ->
  (truthy (dict_get config "_use_cwd") = false →
   is_Some (tree w !! (cwd w ++ [name])) →
   generate_project render config w = (inl (FileExistsError DirectoryExists), w))
  ∧ (truthy (dict_get config "_use_cwd") = true →
     (∃ x, x ≠ ".git" ∧ is_Some (tree w !! (cwd w ++ [x]))) →
     generate_project render config w = (inl (FileExistsError CwdNotEmpty), w))
  ∧ (truthy (dict_get config "_use_cwd") = true →
     readable config name →
     (∀ x, is_Some (tree w !! (cwd w ++ [x])) → x = ".git") →
     writable_below (cwd w) w →
     (∀ context, build_context config (VStr name) = inr context →
                 ascii_contents (file_plan render context name (config_flags config))
                 = true) →
     ∃ context w',
       build_context config (VStr name) = inr context
       ∧ generate_project render config w
         = (inr (expected_paths name (config_flags config)), w')
       ∧ write_log w'
         = write_log w ++ (app (cwd w) <$> expected_paths name (config_flags config))
       ∧ (∀ rel content,
            (rel, content) ∈ file_plan render context name (config_flags config) →
            tree w' !! (cwd w ++ rel) = Some (File content))
       ∧ (∀ q, tree w' !! q = tree w !! q
               ∨ (tree w !! q = None ∧ cwd w `prefix_of` q))).
Proof.
  intros Hvalid [Hwf Hcwd]. apply validate_inr_name in Hvalid as [Hname _].
  split; [|split].
  - intros Hmode Hex.
    apply (generate_project_stops_at_destination _ _ name); [done|].
    apply resolve_destination_taken; [done | by rewrite Hcwd | done].
  - intros Hmode (x & Hx & Hex).
    apply (generate_project_stops_at_destination _ _ name); [done|].
    by eapply resolve_destination_not_empty.
  - intros Hmode Hread Hgit Hwr _.
    assert (destination config name w = cwd w) as Hdest.
    { unfold destination. by rewrite Hmode. }
    destruct (generate_project_run render config name w) as (w' & Hrun & Hlog & _);
      [done | done | unfold destination_free; by rewrite Hmode | by rewrite Hdest |].
    destruct (generate_project_files _ _ _ _ _ Hrun)
      as (name' & context & Hname' & Hctx & _ & Hfiles).
    assert (name' = name) as -> by congruence.
    destruct (generate_project_frame _ _ _ _ _ _ Hname (conj Hwf Hcwd) Hrun)
      as (_ & _ & Hframe).
    rewrite Hdest in *. by exists context, w'.
Qed.

Lemma destination_preconditions_witness :
  generate_project example_render (example_config "A test project" (VBool true) false)
    taken_home
  = (inl (FileExistsError DirectoryExists), taken_home)
  ∧ generate_project example_render (example_config "A test project" (VBool true) true)
      busy_home
    = (inl (FileExistsError CwdNotEmpty), busy_home)
  ∧ ∃ context w',
      build_context (example_config "A test project" (VBool true) true) (VStr "testproject")
      = inr context
      ∧ generate_project example_render (example_config "A test project" (VBool true) true)
          git_home
        = (inr (expected_paths "testproject"
                  (config_flags (example_config "A test project" (VBool true) true))), w')
      ∧ write_log w'
        = write_log git_home
          ++ (app (cwd git_home)
                <$> expected_paths "testproject"
                      (config_flags (example_config "A test project" (VBool true) true)))
      ∧ (∀ rel content,
           (rel, content)
           ∈ file_plan example_render context "testproject"
               (config_flags (example_config "A test project" (VBool true) true)) →
           tree w' !! (cwd git_home ++ rel) = Some (File content))
      ∧ (∀ q, tree w' !! q = tree git_home !! q
              ∨ (tree git_home !! q = None ∧ cwd git_home `prefix_of` q)).
Proof.
  split; [|split].
  - apply (destination_preconditions ∅ example_render
             (example_config "A test project" (VBool true) false) "testproject" taken_home).
    + vm_compute. reflexivity.
    + split; [apply wf_treeb_wf|]; vm_compute; reflexivity.
    + vm_compute. reflexivity.
    + eexists. vm_compute. reflexivity.
  - apply (destination_preconditions ∅ example_render
             (example_config "A test project" (VBool true) true) "testproject" busy_home).
    + vm_compute. reflexivity.
    + split; [apply wf_treeb_wf|]; vm_compute; reflexivity.
    + vm_compute. reflexivity.
    + exists "somefile.txt". split; [discriminate|]. eexists. vm_compute. reflexivity.
  - apply (destination_preconditions ∅ example_render
             (example_config "A test project" (VBool true) true) "testproject" git_home).
    + vm_compute. reflexivity.
    + split; [apply wf_treeb_wf|]; vm_compute; reflexivity.
    + vm_compute. reflexivity.
    + split; [vm_compute; reflexivity|]. split; [eexists; vm_compute; reflexivity|].
      split; [eexists; vm_compute; reflexivity|]. split; [eexists; vm_compute; reflexivity|].
      intros k Hk. unfold flag_keys in Hk. rewrite !elem_of_cons in Hk.
      destruct Hk as [->|[->|[->|[->|[->|[->|Hk]]]]]];
        try (eexists; vm_compute; reflexivity).
      by apply elem_of_nil in Hk.
    + apply only_gitb_spec. vm_compute. reflexivity.
    + apply writable_below_nothing_denied.
    + intros context _. vm_compute. reflexivity.
Defined.

(* ===================================================================== *)
(** * The prompts, key by key *)
(* ===================================================================== *)

Lemma prompt_if_none_own key asked (config : gmap string value) :
  prompt_if_none key asked config !! key = prompted asked (config !! key).
Proof.
  unfold prompt_if_none, prompted, dict_get.
  destruct (is_none (default VNone (config !! key))); [apply lookup_insert_eq | done].
Qed.

Lemma prompt_if_none_id key asked (config : gmap string value) v :
  config !! key = Some v -> v ≠ VNone -> prompt_if_none key asked config = config.
Proof.
  intros Hk Hv. unfold prompt_if_none, dict_get. rewrite Hk. simpl.
  by destruct v.
Qed.

Lemma prompted_set asked entry :
  asked ≠ VNone -> ∃ v, prompted asked entry = Some v ∧ v ≠ VNone.
Proof.
  intros Ha. unfold prompted. destruct entry as [[]|]; simpl; eauto; by eexists.
Qed.

Lemma prompted_given asked v : v ≠ VNone -> prompted asked (Some v) = Some v.
Proof. intros Hv. unfold prompted. by destruct v. Qed.

(** [prompt_for_config], key by key: each of the nine entries is the
    answer when it was missing or [None] and is kept otherwise; no other
    entry is touched. *)
Lemma prompt_for_config_lookup d a (config : gmap string value) :
  prompt_for_config d a config !! "name"
  = prompted (ask_text (ans_name a) (DEFAULT_PROJECT_NAME d)) (config !! "name")
  ∧ prompt_for_config d a config !! "description"
    = prompted (ask_text (ans_description a) (DEFAULT_DESCRIPTION d)) (config !! "description")
  ∧ prompt_for_config d a config !! "author"
    = prompted (ask_text (ans_author a) (DEFAULT_AUTHOR d)) (config !! "author")
  ∧ prompt_for_config d a config !! "python"
    = prompted (ask_text (ans_python a) (DEFAULT_PYTHON_VERSION d)) (config !! "python")
  ∧ prompt_for_config d a config !! "ci"
    = prompted (ask_confirm (ans_ci a) true) (config !! "ci")
  ∧ prompt_for_config d a config !! "devcontainer"
    = prompted (ask_confirm (ans_devcontainer a) true) (config !! "devcontainer")
  ∧ prompt_for_config d a config !! "precommit"
    = prompted (ask_confirm (ans_precommit a) true) (config !! "precommit")
  ∧ prompt_for_config d a config !! "docker"
    = prompted (ask_confirm (ans_docker a) true) (config !! "docker")
  ∧ prompt_for_config d a config !! "diagrams"
    = prompted (ask_confirm (ans_diagrams a) true) (config !! "diagrams")
  ∧ ∀ k, k ∉ prompt_keys → prompt_for_config d a config !! k = config !! k.
Proof.
  unfold prompt_for_config. cbv zeta.
  repeat split;
    try (repeat (rewrite prompt_if_none_other by discriminate);
         rewrite prompt_if_none_own;
         repeat (rewrite prompt_if_none_other by discriminate); reflexivity).
  intros k Hk. unfold prompt_keys in Hk. rewrite !not_elem_of_cons in Hk.
  destruct Hk as (?&?&?&?&?&?&?&?&?&_).
  by rewrite !prompt_if_none_other by done.
Qed.

Lemma prompt_for_config_set d a (config : gmap string value) :
  Forall (fun k => ∃ v, prompt_for_config d a config !! k = Some v ∧ v ≠ VNone) prompt_keys.
Proof.
  destruct (prompt_for_config_lookup d a config)
    as (L1 & L2 & L3 & L4 & L5 & L6 & L7 & L8 & L9 & _).
  unfold prompt_keys.
  repeat (apply Forall_cons; split;
          [first [rewrite L1 | rewrite L2 | rewrite L3 | rewrite L4 | rewrite L5
                 | rewrite L6 | rewrite L7 | rewrite L8 | rewrite L9];
           by apply prompted_set|]).
  apply Forall_nil_2.
Qed.

(** After [prompt_for_config], each of the nine settings is set: none is
    missing or [None], whatever dictionary was passed in. *)
Theorem prompt_for_config_fills (d : defaults) (a : answers)
    (config : gmap string value) :
  Forall (fun k => ∃ v, prompt_for_config d a config !! k = Some v ∧ v ≠ VNone)
    prompt_keys
  ∧ prompt_for_config d a ∅ !! "name"
    = Some (VStr (default (DEFAULT_PROJECT_NAME d) (ans_name a)))
  ∧ prompt_for_config d a ∅ !! "docker"
    = Some (VBool (default true (ans_docker a))).
Proof.
  split; [apply prompt_for_config_set|].
  destruct (prompt_for_config_lookup d a ∅)
    as (L1 & L2 & L3 & L4 & L5 & L6 & L7 & L8 & L9 & _).
  split; [rewrite L1 | rewrite L8]; reflexivity.
Qed.

(** [prompt_for_config] only asks for what is not given: an entry that
    holds a value other than [None] is kept, whatever the answers, and so
    is every entry under a key that is not one of the nine. *)
Theorem prompt_for_config_keeps_given (d : defaults) (a : answers)
    (config : gmap string value) (k : string) (v : value) :
  config !! k = Some v -> v ≠ VNone ∨ k ∉ prompt_keys ->
  prompt_for_config d a config !! k = Some v.
Proof.
  intros Hk Hv.
  destruct (prompt_for_config_lookup d a config)
    as (L1 & L2 & L3 & L4 & L5 & L6 & L7 & L8 & L9 & Lo).
  destruct (decide (k ∈ prompt_keys)) as [Hin|Hout]; [|by rewrite Lo].
  destruct Hv as [Hv|?]; [|done].
  unfold prompt_keys in Hin. rewrite !elem_of_cons in Hin.
  destruct Hin as [->|[->|[->|[->|[->|[->|[->|[->|[->|Hin]]]]]]]]];
    [..|by apply elem_of_nil in Hin];
    first [rewrite L1 | rewrite L2 | rewrite L3 | rewrite L4 | rewrite L5
          | rewrite L6 | rewrite L7 | rewrite L8 | rewrite L9];
    rewrite Hk; by apply prompted_given.
Qed.

Lemma prompt_for_config_keeps_given_witness :
  prompt_for_config example_defaults
    (Answers (Some "other") None None None None None None (Some true) None)
    (example_config "A test project" VNone false) !! "docker" = Some (VBool false).
Proof.
  apply (prompt_for_config_keeps_given example_defaults
           (Answers (Some "other") None None None None None None (Some true) None)
           (example_config "A test project" VNone false) "docker" (VBool false)).
  - vm_compute. reflexivity.
  - left. discriminate.
Defined.

(** Asking again changes nothing: on the result of [prompt_for_config] a
    second pass finds every setting set and keeps the dictionary as it is,
    whatever would be answered. *)
Theorem prompt_for_config_idempotent (d : defaults) (a a' : answers)
    (config : gmap string value) :
  prompt_for_config d a' (prompt_for_config d a config) = prompt_for_config d a config.
Proof.
  pose proof (prompt_for_config_set d a config) as Hset.
  set (R := prompt_for_config d a config) in *.
  unfold prompt_keys in Hset.
  repeat (apply Forall_cons in Hset as [[? [? ?]] Hset]).
  unfold prompt_for_config. cbv zeta.
  rewrite (prompt_if_none_id "name" _ R _ ltac:(eassumption) ltac:(assumption)).
  rewrite (prompt_if_none_id "description" _ R _ ltac:(eassumption) ltac:(assumption)).
  rewrite (prompt_if_none_id "author" _ R _ ltac:(eassumption) ltac:(assumption)).
  rewrite (prompt_if_none_id "python" _ R _ ltac:(eassumption) ltac:(assumption)).
  rewrite (prompt_if_none_id "ci" _ R _ ltac:(eassumption) ltac:(assumption)).
  rewrite (prompt_if_none_id "devcontainer" _ R _ ltac:(eassumption) ltac:(assumption)).
  rewrite (prompt_if_none_id "precommit" _ R _ ltac:(eassumption) ltac:(assumption)).
  rewrite (prompt_if_none_id "docker" _ R _ ltac:(eassumption) ltac:(assumption)).
  rewrite (prompt_if_none_id "diagrams" _ R _ ltac:(eassumption) ltac:(assumption)).
  reflexivity.
Qed.

(* ===================================================================== *)
(** * The command [new], whatever the arguments *)
(* ===================================================================== *)

(** ** The configuration that [new] resolves *)

Lemma resolve_name_initial d base args :
  ∃ c1, resolve_name d base (initial_config args) = inr c1
    ∧ c1 !! "name" = Some (resolved_name d base args)
    ∧ c1 !! "_use_cwd" = Some (VBool (use_cwd args))
    ∧ ∀ k, k ≠ "name" → k ≠ "_use_cwd" → c1 !! k = initial_config args !! k.
Proof.
  destruct (initial_config_lookup args) as (I1 & _).
  unfold resolve_name, subscript, resolved_name, use_cwd. rewrite I1.
  destruct (arg_name args) as [n|]; cbn [of_option_str].
  - destruct (decide (n = ".")) as [->|Hn].
    + rewrite decide_True by done. eexists. split; [reflexivity|].
      rewrite bool_decide_eq_true_2 by done.
      split; [by rewrite lookup_insert_ne, lookup_insert_eq by discriminate|].
      split; [by rewrite lookup_insert_eq|].
      intros k H1 H2. by rewrite !lookup_insert_ne by done.
    + rewrite decide_False by congruence. eexists. split; [reflexivity|].
      rewrite bool_decide_eq_false_2 by congruence.
      split; [by rewrite lookup_insert_ne by discriminate|].
      split; [by rewrite lookup_insert_eq|].
      intros k H1 H2. by rewrite !lookup_insert_ne by done.
  - rewrite decide_False by discriminate. eexists. split; [reflexivity|].
    rewrite bool_decide_eq_false_2 by discriminate.
    split; [by rewrite lookup_insert_ne by discriminate|].
    split; [by rewrite lookup_insert_eq|].
    intros k H1 H2. by rewrite !lookup_insert_ne by done.
Qed.

(** With [--no-interactive]. *)
Lemma resolve_config_defaults d a args base :
  arg_no_interactive args = true ->
  ∃ config, resolve_config d a args base = inr config
    ∧ config !! "name"
      = Some (defaulted_text (DEFAULT_PROJECT_NAME d) (resolved_name d base args))
    ∧ config !! "description"
      = Some (defaulted_text (DEFAULT_DESCRIPTION d) (of_option_str (arg_description args)))
    ∧ config !! "author"
      = Some (defaulted_text (DEFAULT_AUTHOR d) (of_option_str (arg_author args)))
    ∧ config !! "python" = Some (VStr (arg_python args))
    ∧ config !! "_use_cwd" = Some (VBool (use_cwd args))
    ∧ config !! "ci" = Some (defaulted_flag (of_option_bool (arg_ci args)))
    ∧ config !! "devcontainer" = Some (defaulted_flag (of_option_bool (arg_devcontainer args)))
    ∧ config !! "precommit" = Some (defaulted_flag (of_option_bool (arg_precommit args)))
    ∧ config !! "docker" = Some (defaulted_flag (of_option_bool (arg_docker args)))
    ∧ config !! "diagrams" = Some (defaulted_flag (of_option_bool (arg_diagrams args)))
    ∧ config !! "continue" = Some (defaulted_flag (of_option_bool (arg_continue args))).
Proof.
  intros Hy.
  destruct (initial_config_lookup args)
    as (I1 & I2 & I3 & I4 & I5 & I6 & I7 & I8 & I9 & I10).
  destruct (resolve_name_initial d base args) as (c1 & Hres & N1 & U1 & O1).
  unfold resolve_config. rewrite Hres, Hy.
  destruct (apply_defaults_present d c1) as [c2 Hdef].
  { intros k Hk. unfold default_keys, text_keys, flag_keys in Hk. simpl in Hk.
    rewrite !elem_of_cons in Hk.
    destruct Hk as [->|[->|[->|[->|[->|[->|[->|[->|[->|Hk]]]]]]]]];
      [by rewrite N1|..|by apply elem_of_nil in Hk];
      rewrite O1 by discriminate; eauto. }
  exists c2. split; [done|].
  destruct (apply_defaults_lookup _ _ _ Hdef) as (L1 & L2 & L3 & Lf & Lo & _).
  rewrite N1 in L1. rewrite O1, I2 in L2 by discriminate. rewrite O1, I3 in L3 by discriminate.
  split; [done|]. split; [done|]. split; [done|].
  split; [rewrite Lo by in_not_keys; by rewrite O1 by discriminate|].
  split; [by rewrite Lo by in_not_keys|].
  repeat split; (rewrite Lf by in_keys); (rewrite O1 by discriminate);
    first [by rewrite I5 | by rewrite I6 | by rewrite I7 | by rewrite I8
          | by rewrite I9 | by rewrite I10].
Qed.

(** Without [--no-interactive]. *)
Lemma resolve_config_prompts d a args base :
  arg_no_interactive args = false ->
  ∃ config, resolve_config d a args base = inr config
    ∧ config !! "name"
      = prompted (ask_text (ans_name a) (DEFAULT_PROJECT_NAME d))
          (Some (resolved_name d base args))
    ∧ config !! "description"
      = prompted (ask_text (ans_description a) (DEFAULT_DESCRIPTION d))
          (Some (of_option_str (arg_description args)))
    ∧ config !! "author"
      = prompted (ask_text (ans_author a) (DEFAULT_AUTHOR d))
          (Some (of_option_str (arg_author args)))
    ∧ config !! "python" = Some (VStr (arg_python args))
    ∧ config !! "_use_cwd" = Some (VBool (use_cwd args))
    ∧ config !! "ci"
      = prompted (ask_confirm (ans_ci a) true) (Some (of_option_bool (arg_ci args)))
    ∧ config !! "devcontainer"
      = prompted (ask_confirm (ans_devcontainer a) true)
          (Some (of_option_bool (arg_devcontainer args)))
    ∧ config !! "precommit"
      = prompted (ask_confirm (ans_precommit a) true)
          (Some (of_option_bool (arg_precommit args)))
    ∧ config !! "docker"
      = prompted (ask_confirm (ans_docker a) true) (Some (of_option_bool (arg_docker args)))
    ∧ config !! "diagrams"
      = prompted (ask_confirm (ans_diagrams a) true)
          (Some (of_option_bool (arg_diagrams args)))
    ∧ config !! "continue" = Some (of_option_bool (arg_continue args)).
Proof.
  intros Hy.
  destruct (initial_config_lookup args)
    as (I1 & I2 & I3 & I4 & I5 & I6 & I7 & I8 & I9 & I10).
  destruct (resolve_name_initial d base args) as (c1 & Hres & N1 & U1 & O1).
  unfold resolve_config. rewrite Hres, Hy. eexists. split; [reflexivity|].
  destruct (prompt_for_config_lookup d a c1)
    as (L1 & L2 & L3 & L4 & L5 & L6 & L7 & L8 & L9 & Lo).
  rewrite N1 in L1.
  rewrite O1 in L2, L3, L4, L5, L6, L7, L8, L9 by discriminate.
  rewrite I2 in L2. rewrite I3 in L3. rewrite I4 in L4. rewrite I5 in L5.
  rewrite I6 in L6. rewrite I7 in L7. rewrite I8 in L8. rewrite I9 in L9.
  split; [done|]. split; [done|]. split; [done|]. split; [done|].
  split.
  { rewrite Lo; [done|]. unfold prompt_keys. rewrite !not_elem_of_cons.
    repeat split; try discriminate. apply not_elem_of_nil. }
  split; [done|]. split; [done|]. split; [done|]. split; [done|]. split; [done|].
  rewrite Lo; [by rewrite O1 by discriminate|].
  unfold prompt_keys. rewrite !not_elem_of_cons.
  repeat split; try discriminate. apply not_elem_of_nil.
Qed.

Lemma prompted_text_string reply d o :
  ∃ s, prompted (ask_text reply d) (Some (of_option_str o)) = Some (VStr s).
Proof. destruct o; simpl; eauto. Qed.

Lemma prompted_flag_bool reply o :
  prompted (ask_confirm reply true) (Some (of_option_bool o))
  = Some (VBool (default (default true reply) o)).
Proof. by destruct o. Qed.

Lemma resolved_name_cases d base args :
  resolved_name d base args = VNone ∨ ∃ s, resolved_name d base args = VStr s.
Proof.
  unfold resolved_name. destruct (arg_name args) as [n|]; [|by left].
  right. destruct (decide (n = ".")); eauto.
Qed.

(** Whatever the arguments and the answers, the resolved configuration has
    strings as name, description and author, the version given, and all six
    flags. *)
Lemma resolve_config_readable d a args base :
  ∃ config name, resolve_config d a args base = inr config
    ∧ readable config name
    ∧ config !! "python" = Some (VStr (arg_python args)).
Proof.
  destruct (arg_no_interactive args) eqn:Hy.
  - destruct (resolve_config_defaults d a args base Hy)
      as (config & Hc & N & D & A & P & U & F1 & F2 & F3 & F4 & F5 & F6).
    assert (∃ s, defaulted_text (DEFAULT_PROJECT_NAME d) (resolved_name d base args) = VStr s)
      as [name Hn].
    { destruct (resolved_name_cases d base args) as [->|[s ->]]; [by eexists|].
      unfold defaulted_text, py_or. simpl. destruct (String.eqb s ""); simpl; eauto. }
    destruct (defaulted_text_string (DEFAULT_DESCRIPTION d) (arg_description args)) as [s1 E1].
    destruct (defaulted_text_string (DEFAULT_AUTHOR d) (arg_author args)) as [s2 E2].
    exists config, name. split; [done|]. split; [|done].
    split; [by rewrite N, Hn|]. split; [rewrite D, E1; eauto|].
    split; [rewrite A, E2; eauto|]. split; [by rewrite P|].
    intros k Hk. unfold flag_keys in Hk. rewrite !elem_of_cons in Hk.
    destruct Hk as [->|[->|[->|[->|[->|[->|Hk]]]]]]; eauto.
    by apply elem_of_nil in Hk.
  - destruct (resolve_config_prompts d a args base Hy)
      as (config & Hc & N & D & A & P & U & F1 & F2 & F3 & F4 & F5 & F6).
    assert (∃ s, prompted (ask_text (ans_name a) (DEFAULT_PROJECT_NAME d))
                   (Some (resolved_name d base args)) = Some (VStr s)) as [name Hn].
    { destruct (resolved_name_cases d base args) as [->|[s ->]]; simpl; eauto. }
    destruct (prompted_text_string (ans_description a) (DEFAULT_DESCRIPTION d)
                (arg_description args)) as [s1 E1].
    destruct (prompted_text_string (ans_author a) (DEFAULT_AUTHOR d)
                (arg_author args)) as [s2 E2].
    rewrite prompted_flag_bool in F1, F2, F3, F4, F5.
    exists config, name. split; [done|]. split; [|done].
    split; [by rewrite N, Hn|]. split; [rewrite D, E1; eauto|].
    split; [rewrite A, E2; eauto|]. split; [by rewrite P|].
    intros k Hk. unfold flag_keys in Hk. rewrite !elem_of_cons in Hk.
    destruct Hk as [->|[->|[->|[->|[->|[->|Hk]]]]]]; eauto.
    by apply elem_of_nil in Hk.
Qed.

(** ** The runs of [new] *)

Lemma validate_project_name_error stdlib_module_names name e :
  _validate_project_name stdlib_module_names name = inl e ->
  ∃ m, e = Exit 1 m ∧ m ≠ NameRequired.
Proof.
  unfold _validate_project_name. intros H.
  repeat case_match; simplify_eq; by eexists.
Qed.

Lemma validate_readable stdlib_module_names config name :
  readable config name ->
  validate stdlib_module_names config
  = do _ <- _validate_project_name stdlib_module_names name;
    do python <- subscript config "python";
    do _ <- _validate_python_version (py_str python);
    inr name.
Proof. intros (Hn & _). unfold validate, subscript at 1. by rewrite Hn. Qed.

Lemma validate_error stdlib_module_names config name e :
  readable config name ->
  validate stdlib_module_names config = inl e ->
  ∃ m, e = Exit 1 m ∧ m ≠ NameRequired.
Proof.
  intros Hread. rewrite (validate_readable _ _ _ Hread).
  destruct Hread as (_ & _ & _ & [p Hp] & _).
  destruct (_validate_project_name _ name) as [e1|[]] eqn:Hv.
  { intros [= <-]. eapply validate_project_name_error; eauto. }
  unfold subscript. rewrite Hp. unfold _validate_python_version.
  destruct (negb _); [|discriminate]. intros [= <-]. by eexists.
Qed.

Lemma validate_ok stdlib_module_names config name version :
  readable config name -> config !! "python" = Some (VStr version) ->
  _validate_project_name stdlib_module_names name = inr tt ->
  _validate_python_version version = inr tt ->
  validate stdlib_module_names config = inr name.
Proof.
  intros Hread Hp Hn Hv. rewrite (validate_readable _ _ _ Hread), Hn.
  unfold subscript. rewrite Hp. simpl py_str. by rewrite Hv.
Qed.

Lemma validate_inr stdlib_module_names config name name' :
  readable config name -> validate stdlib_module_names config = inr name' -> name' = name.
Proof.
  intros Hread. rewrite (validate_readable _ _ _ Hread).
  destruct (_validate_project_name _ name) as [|[]]; [discriminate|].
  destruct (subscript config "python") as [|p]; [discriminate|].
  destruct (_validate_python_version _) as [|[]]; [discriminate|]. congruence.
Qed.

(** What a validation that passes has checked. *)
Lemma validate_passed stdlib_module_names config name version :
  readable config name -> config !! "python" = Some (VStr version) ->
  validate stdlib_module_names config = inr name ->
  _validate_project_name stdlib_module_names name = inr tt
  ∧ _validate_python_version version = inr tt.
Proof.
  intros Hread Hp. rewrite (validate_readable _ _ _ Hread).
  destruct (_validate_project_name _ name) as [|[]]; [discriminate|].
  unfold subscript. rewrite Hp. simpl py_str.
  destruct (_validate_python_version version) as [|[]]; [discriminate|]. done.
Qed.

Lemma resolve_destination_error config name w e w1 :
  resolve_destination config (VStr name) w = (inl e, w1) ->
  (∃ why, e = FileExistsError why) ∨ is_os_error e.
Proof.
  unfold resolve_destination.
  destruct (truthy (dict_get config "_use_cwd")).
  - rewrite se_bind_run. unfold get_cwd at 1.
    case_bool_decide; [|intros [= <- <-]; right; by eexists _, _].
    cbv beta iota. rewrite se_bind_run. unfold iterdir.
    destruct (tree w !! cwd w) as [[c|]|];
      try (intros [= <- <-]; right; by eexists _, _).
    destruct (existsb _ _); [|discriminate].
    intros [= <- <-]. left. by eexists.
  - rewrite se_bind_run. unfold get_cwd at 1.
    case_bool_decide; [|intros [= <- <-]; right; by eexists _, _].
    cbv beta iota.
    rewrite se_bind_run. unfold se_lift at 1, path_div. cbv beta iota.
    rewrite se_bind_run. unfold path_exists.
    destruct (bool_decide _); [|discriminate].
    intros [= <- <-]. left. by eexists.
Qed.

(** On a configuration it can read, [generate_project] raises nothing but
    its own [FileExistsError] and the errors of the operating system. *)
Lemma generate_project_readable_errors render config name w e w' :
  readable config name ->
  generate_project render config w = (inl e, w') ->
  (∃ why, e = FileExistsError why) ∨ is_os_error e.
Proof.
  intros Hread.
  destruct (build_context_readable _ _ Hread) as [context Hctx].
  destruct Hread as (Hname & _ & _ & _ & Hflags).
  unfold generate_project. rewrite se_bind_run. unfold se_lift at 1, subscript.
  rewrite Hname. cbv beta iota. rewrite se_bind_run.
  destruct (resolve_destination config (VStr name) w) as [[e1|root] w1] eqn:Hdest.
  { intros [= <- <-]. eapply resolve_destination_error; eauto. }
  apply resolve_destination_inr in Hdest as (-> & -> & _).
  rewrite se_bind_run. unfold se_lift at 1, path_div. cbv beta iota.
  rewrite se_bind_run. unfold se_lift at 1. rewrite Hctx. cbv beta iota.
  unfold with_created. rewrite generate_files_plan by done.
  destruct (write_all _ _ _) as [[e1|[]] s'] eqn:Hrun; [|discriminate].
  intros [= <- <-]. right. eapply write_all_error; eauto.
Qed.

(** The summary raises no exit. *)
Lemma show_summary_error markup_ok config e :
  show_summary markup_ok config = inl e ->
  (∃ key, e = KeyError key) ∨ e = MarkupError ∨ e = NotRenderableError.
Proof.
  unfold show_summary, show_table.
  destruct (_print_config_summary config) as [e1|rows] eqn:Hrows.
  - intros [= <-]. left. revert Hrows. unfold _print_config_summary, subscript. intros H.
    repeat match type of H with
           | context [config !! ?key] =>
               destruct (config !! key) as [?|] eqn:?; simpl in H;
               [|injection H as <-; by eexists]
           end.
    discriminate.
  - destruct (negb (forallb _ rows)); [intros [= <-]; auto|].
    destruct (negb (forallb _ rows)); [intros [= <-]; auto|discriminate].
Qed.

(** No run of [new] ends with the exit "Project name is required". *)
Lemma new_error d stdlib_module_names render markup_ok a args w e w' :
  new d stdlib_module_names render markup_ok a args w = (inl e, w') ->
  e ≠ Exit 1 NameRequired.
Proof.
  rewrite new_run_eq.
  destruct (cwd_gone args w); [intros [= <- <-]; discriminate|].
  destruct (resolve_config_readable d a args (path_name (cwd w)))
    as (config & name & -> & Hread & _).
  destruct (validate stdlib_module_names config) as [e1|n] eqn:Hv.
  { intros [= <- <-]. destruct (validate_error _ _ _ _ Hread Hv) as (m & -> & Hm).
    congruence. }
  destruct (show_summary markup_ok config) as [e1|[]] eqn:Hs.
  { intros [= <- <-].
    destruct (show_summary_error _ _ _ Hs) as [[key ->]|[->| ->]]; discriminate. }
  unfold exit_on_os_error.
  destruct (generate_project render config w) as [[e1|paths] w1] eqn:Hrun;
    [|discriminate].
  destruct (generate_project_readable_errors _ _ _ _ _ _ Hread Hrun)
    as [[why ->]|(en & p & ->)]; intros [= <- <-]; discriminate.
Qed.

(** The exit "Project name is required" of [new] is never taken: after the
    defaults or the prompts, the name is always a string. *)
Theorem new_never_reports_missing_name (d : defaults) (stdlib_module_names : gset string)
    (render : string -> gmap string value -> string) (markup_ok : string -> bool)
    (a : answers) (args : arguments) (w : world) :
  fst (new d stdlib_module_names render markup_ok a args w) ≠ inl (Exit 1 NameRequired).
Proof.
  destruct (new d stdlib_module_names render markup_ok a args w) as [r w'] eqn:Hrun.
  simpl. intros ->. by apply new_error in Hrun.
Qed.

(** What has happened when [new] gets as far as the file-tree display: the
    configuration was resolved and validated, the summary was shown, and
    [generate_project] returned the paths of the table, written below the
    destination, which was free. *)
Lemma new_returns d stdlib_module_names render markup_ok a args w paths w' :
  new d stdlib_module_names render markup_ok a args w = (inr paths, w') ->
  ∃ config name,
    resolve_config d a args (path_name (cwd w)) = inr config
    ∧ readable config name
    ∧ _validate_project_name stdlib_module_names name = inr tt
    ∧ _validate_python_version (arg_python args) = inr tt
    ∧ show_summary markup_ok config = inr tt
    ∧ destination_free config name w
    ∧ paths = expected_paths name (config_flags config)
    ∧ write_log w' = write_log w ++ (app (destination config name w) <$> paths)
    ∧ Forall (fun rel => is_file w' (destination config name w ++ rel)) paths.
Proof.
  rewrite new_run_eq.
  destruct (cwd_gone args w); [discriminate|].
  destruct (resolve_config_readable d a args (path_name (cwd w)))
    as (config & name & Hc & Hread & Hp).
  rewrite Hc.
  destruct (validate stdlib_module_names config) as [e|name'] eqn:Hv; [discriminate|].
  pose proof (validate_inr _ _ _ _ Hread Hv) as ->.
  destruct (validate_passed _ _ _ _ Hread Hp Hv) as [Hname Hversion].
  destruct (show_summary markup_ok config) as [e|[]] eqn:Hs; [discriminate|].
  unfold exit_on_os_error.
  destruct (generate_project render config w) as [[e|ps] w1] eqn:Hrun.
  { destruct e; discriminate. }
  intros [= <- <-].
  apply generate_project_inv in Hrun
    as [(e & ? & _)|(name' & context & r0 & s' & Hname' & Hfree & _ & Hrun & -> & Hr)];
    [discriminate|].
  destruct Hread as (Hn & Hrest). assert (name' = name) as -> by congruence.
  destruct r0 as [e|[]]; [discriminate|]. injection Hr as ->.
  assert (tracks (destination config name w) (write_log w)
            {| gs_world := w; created := [] |}) as Htr.
  { split; [by rewrite app_nil_r | constructor]. }
  destruct (write_all_tracks _ _ _ _ _ _ Htr Hrun) as ([Hlog Hfiles] & dd & Hd & _ & Hall).
  simpl in Hd. rewrite (Hall tt eq_refl), file_plan_paths in Hd.
  rewrite Hd in *.
  exists config, name. repeat (split; [done|]). done.
Qed.

Lemma config_flags_defaults (config : gmap string value) args :
  config !! "ci" = Some (defaulted_flag (of_option_bool (arg_ci args))) ->
  config !! "devcontainer" = Some (defaulted_flag (of_option_bool (arg_devcontainer args))) ->
  config !! "precommit" = Some (defaulted_flag (of_option_bool (arg_precommit args))) ->
  config !! "docker" = Some (defaulted_flag (of_option_bool (arg_docker args))) ->
  config !! "diagrams" = Some (defaulted_flag (of_option_bool (arg_diagrams args))) ->
  config !! "continue" = Some (defaulted_flag (of_option_bool (arg_continue args))) ->
  config_flags config = default_flags args.
Proof.
  intros F1 F2 F3 F4 F5 F6. unfold config_flags, default_flags, dict_get.
  rewrite F1, F2, F3, F4, F5, F6. simpl. by rewrite !defaulted_flag_truthy.
Qed.

(** A non-interactive run of [new] with a name other than ["."] that gets
    as far as the file-tree display: the name passed the validation,
    [cwd / name] did not exist, the flags not given on the command line are
    on, and the paths listed are those of the table for these flags, which
    were written in this order below [cwd / name] and are files. *)
Theorem new_non_interactive (d : defaults) (stdlib_module_names : gset string)
    (render : string -> gmap string value -> string) (markup_ok : string -> bool)
    (a : answers) (args : arguments) (name : string) (w : world)
    (paths : list path) (w' : world) :
  arg_no_interactive args = true ->
  arg_name args = Some name ->
  name ≠ "." ->
  name ≠ "" ->
  new d stdlib_module_names render markup_ok a args w = (inr paths, w') ->
  _validate_project_name stdlib_module_names name = inr tt
  ∧ tree w !! (cwd w ++ [name]) = None
  ∧ paths = expected_paths name (default_flags args)
  ∧ write_log w' = write_log w ++ (app (cwd w ++ [name]) <$> paths)
  ∧ Forall (fun rel => is_file w' ((cwd w ++ [name]) ++ rel)) paths.
Proof.
  intros Hy Hname Hdot Hne Hrun.
  apply new_returns in Hrun
    as (config & name' & Hc & Hread & Hvalid & _ & _ & Hfree & -> & Hlog & Hfiles).
  destruct (resolve_config_defaults d a args (path_name (cwd w)) Hy)
    as (config' & Hc' & N & _ & _ & _ & U & F1 & F2 & F3 & F4 & F5 & F6).
  assert (config' = config) as -> by congruence.
  unfold resolved_name in N. unfold use_cwd in U. rewrite Hname in N, U.
  rewrite decide_False in N by done.
  rewrite bool_decide_eq_false_2 in U by congruence.
  assert (name' = name) as ->.
  { destruct Hread as (Hn & _). rewrite N in Hn. unfold defaulted_text, py_or in Hn.
    simpl in Hn. destruct (String.eqb_spec name ""); [done|]. simpl in Hn. congruence. }
  rewrite (config_flags_defaults _ _ F1 F2 F3 F4 F5 F6) in *.
  unfold destination, destination_free, dict_get, pjoin in *. rewrite U in *.
  simpl in Hfree, Hlog, Hfiles. done.
Qed.

(** [new . -y] that gets as far as the file-tree display: the project is
    named after the working directory, which held nothing but [.git], and
    the files of the table for the flags (those not given are on) were
    written in this order into the working directory itself. *)
Theorem new_in_current_directory (d : defaults) (stdlib_module_names : gset string)
    (render : string -> gmap string value -> string) (markup_ok : string -> bool)
    (a : answers) (args : arguments) (w : world) (paths : list path) (w' : world) :
  arg_name args = Some "." ->
  arg_no_interactive args = true ->
  new d stdlib_module_names render markup_ok a args w = (inr paths, w') ->
  _validate_project_name stdlib_module_names (converted_name d (path_name (cwd w)))
  = inr tt
  ∧ (∀ x, is_Some (tree w !! (cwd w ++ [x])) → x = ".git")
  ∧ paths = expected_paths (converted_name d (path_name (cwd w))) (default_flags args)
  ∧ write_log w' = write_log w ++ (app (cwd w) <$> paths)
  ∧ Forall (fun rel => is_file w' (cwd w ++ rel)) paths.
Proof.
  intros Hdot Hy Hrun.
  apply new_returns in Hrun
    as (config & name' & Hc & Hread & Hvalid & _ & _ & Hfree & -> & Hlog & Hfiles).
  destruct (resolve_config_defaults d a args (path_name (cwd w)) Hy)
    as (config' & Hc' & N & _ & _ & _ & U & F1 & F2 & F3 & F4 & F5 & F6).
  assert (config' = config) as -> by congruence.
  unfold resolved_name in N. unfold use_cwd in U. rewrite Hdot in N, U.
  rewrite decide_True in N by done. rewrite bool_decide_eq_true_2 in U by done.
  set (name := converted_name d (path_name (cwd w))) in *.
  assert (name' = name) as ->.
  { destruct Hread as (Hn & _). rewrite N in Hn. unfold defaulted_text, py_or in Hn.
    simpl in Hn. destruct (String.eqb_spec name "") as [E|]; simpl in Hn; [|congruence].
    injection Hn as <-. rewrite E. unfold name in E. unfold converted_name in E.
    destruct (re_sub_nonword (path_name (cwd w))) as [|c r]; [done|].
    destruct (py_isdigit c); discriminate. }
  rewrite (config_flags_defaults _ _ F1 F2 F3 F4 F5 F6) in *.
  unfold destination, destination_free, dict_get in *. rewrite U in *.
  simpl in Hfree, Hlog, Hfiles. done.
Qed.

Lemma config_flags_prompts (config : gmap string value) a args :
  config !! "ci"
  = prompted (ask_confirm (ans_ci a) true) (Some (of_option_bool (arg_ci args))) ->
  config !! "devcontainer"
  = prompted (ask_confirm (ans_devcontainer a) true)
      (Some (of_option_bool (arg_devcontainer args))) ->
  config !! "precommit"
  = prompted (ask_confirm (ans_precommit a) true)
      (Some (of_option_bool (arg_precommit args))) ->
  config !! "docker"
  = prompted (ask_confirm (ans_docker a) true) (Some (of_option_bool (arg_docker args))) ->
  config !! "diagrams"
  = prompted (ask_confirm (ans_diagrams a) true)
      (Some (of_option_bool (arg_diagrams args))) ->
  config !! "continue" = Some (of_option_bool (arg_continue args)) ->
  config_flags config = interactive_flags a args.
Proof.
  intros F1 F2 F3 F4 F5 F6. rewrite prompted_flag_bool in F1, F2, F3, F4, F5.
  unfold config_flags, interactive_flags, dict_get.
  rewrite F1, F2, F3, F4, F5, F6. simpl. by destruct (arg_continue args).
Qed.

(** [new] without a name and without [--no-interactive] that gets as far
    as the file-tree display: the project is named as answered (the default
    name on an empty line), each flag is the one given on the command line
    or else the answer ([True] on an empty line), [continue] is off unless
    given, and the files of the table for these flags were written in this
    order below [cwd / name], which did not exist. *)
Theorem new_interactive (d : defaults) (stdlib_module_names : gset string)
    (render : string -> gmap string value -> string) (markup_ok : string -> bool)
    (a : answers) (args : arguments) (w : world) (paths : list path) (w' : world) :
  arg_name args = None ->
  arg_no_interactive args = false ->
  new d stdlib_module_names render markup_ok a args w = (inr paths, w') ->
  _validate_project_name stdlib_module_names
    (default (DEFAULT_PROJECT_NAME d) (ans_name a)) = inr tt
  ∧ tree w !! (cwd w ++ [default (DEFAULT_PROJECT_NAME d) (ans_name a)]) = None
  ∧ paths = expected_paths (default (DEFAULT_PROJECT_NAME d) (ans_name a))
              (interactive_flags a args)
  ∧ write_log w'
    = write_log w
      ++ (app (cwd w ++ [default (DEFAULT_PROJECT_NAME d) (ans_name a)]) <$> paths)
  ∧ Forall (fun rel =>
              is_file w' ((cwd w ++ [default (DEFAULT_PROJECT_NAME d) (ans_name a)]) ++ rel))
      paths.
Proof.
  intros Hnone Hy Hrun.
  apply new_returns in Hrun
    as (config & name' & Hc & Hread & Hvalid & _ & _ & Hfree & -> & Hlog & Hfiles).
  destruct (resolve_config_prompts d a args (path_name (cwd w)) Hy)
    as (config' & Hc' & N & _ & _ & _ & U & F1 & F2 & F3 & F4 & F5 & F6).
  assert (config' = config) as -> by congruence.
  unfold resolved_name in N. unfold use_cwd in U. rewrite Hnone in N, U.
  rewrite bool_decide_eq_false_2 in U by discriminate.
  set (name := default (DEFAULT_PROJECT_NAME d) (ans_name a)) in *.
  change (config !! "name" = Some (VStr name)) in N.
  assert (name' = name) as ->.
  { destruct Hread as (Hn & _). congruence. }
  rewrite (config_flags_prompts _ _ _ F1 F2 F3 F4 F5 F6) in *.
  unfold destination, destination_free, dict_get, pjoin in *. rewrite U in *.
  simpl in Hfree, Hlog, Hfiles. done.
Qed.

(** The configuration resolved for a name given on the command line. *)
Lemma resolve_config_named d a args base name :
  arg_name args = Some name -> name ≠ "." -> name ≠ "" ->
  ∃ config, resolve_config d a args base = inr config
    ∧ readable config name
    ∧ config !! "python" = Some (VStr (arg_python args))
    ∧ config !! "_use_cwd" = Some (VBool false).
Proof.
  intros Hname Hdot Hne.
  destruct (resolve_config_readable d a args base) as (config & name' & Hc & Hread & Hp).
  exists config. split; [done|].
  assert (config !! "name" = Some (VStr name) ∧ config !! "_use_cwd" = Some (VBool false))
    as [N U].
  { destruct (arg_no_interactive args) eqn:Hy.
    - destruct (resolve_config_defaults d a args base Hy)
        as (config' & Hc' & N & _ & _ & _ & U & _).
      assert (config' = config) as -> by congruence.
      unfold resolved_name in N. unfold use_cwd in U. rewrite Hname in N, U.
      rewrite decide_False in N by done.
      rewrite bool_decide_eq_false_2 in U by congruence.
      split; [|done]. rewrite N. unfold defaulted_text, py_or. simpl.
      by destruct (String.eqb_spec name "").
    - destruct (resolve_config_prompts d a args base Hy)
        as (config' & Hc' & N & _ & _ & _ & U & _).
      assert (config' = config) as -> by congruence.
      unfold resolved_name in N. unfold use_cwd in U. rewrite Hname in N, U.
      rewrite decide_False in N by done.
      rewrite bool_decide_eq_false_2 in U by congruence. done. }
  destruct Hread as (Hn & Hrest). assert (name' = name) as -> by congruence.
  done.
Qed.

(** When [cwd / name] exists, or the working directory is gone, the
    destination is refused with the world as it was. *)
Lemma resolve_destination_refused config name w :
  truthy (dict_get config "_use_cwd") = false ->
  is_Some (tree w !! (cwd w ++ [name])) ->
  ∃ e, resolve_destination config (VStr name) w = (inl e, w)
       ∧ ((∃ why, e = FileExistsError why) ∨ is_os_error e).
Proof.
  intros Hmode Hex.
  destruct (tree w !! cwd w) as [n|] eqn:Hcwd.
  - eexists. split; [apply resolve_destination_taken; rewrite ?Hcwd; eauto|].
    left. by eexists.
  - eexists. split.
    + unfold resolve_destination. rewrite Hmode, se_bind_run.
      by rewrite (get_cwd_gone _ Hcwd).
    + right. by eexists _, _.
Qed.

(** [new NAME], with or without [--no-interactive], where [cwd / NAME]
    exists and the name and the version are valid: the command raises and
    the file system is as it was; when the summary is shown, what it raises
    is the exit with code 1 that follows the message of the generator. *)
Theorem new_existing_directory (d : defaults) (stdlib_module_names : gset string)
    (render : string -> gmap string value -> string) (markup_ok : string -> bool)
    (a : answers) (args : arguments) (name : string) (w : world) :
  arg_name args = Some name ->
  name ≠ "." ->
  _validate_project_name stdlib_module_names name = inr tt ->
  _validate_python_version (arg_python args) = inr tt ->
  is_Some (tree w !! (cwd w ++ [name])) ->
  (∃ e, new d stdlib_module_names render markup_ok a args w = (inl e, w))
  ∧ ((∀ config, resolve_config d a args (path_name (cwd w)) = inr config →
                show_summary markup_ok config = inr tt) →
     new d stdlib_module_names render markup_ok a args w
     = (inl (Exit 1 GenerationFailed), w)).
Proof.
  intros Hname Hdot Hn Hv Hex.
  assert (name ≠ "") as Hne by (intros ->; discriminate).
  destruct (resolve_config_named d a args (path_name (cwd w)) name Hname Hdot Hne)
    as (config & Hc & Hread & P & U).
  assert (new d stdlib_module_names render markup_ok a args w
          = match show_summary markup_ok config with
            | inl e => (inl e, w)
            | inr _ => (inl (Exit 1 GenerationFailed), w)
            end) as Hrun.
  { rewrite new_run_eq. unfold cwd_gone.
    rewrite bool_decide_eq_false_2 by congruence. simpl andb. cbv iota.
    rewrite Hc, (validate_ok _ _ _ _ Hread P Hn Hv).
    destruct (show_summary markup_ok config) as [e|[]]; [reflexivity|].
    destruct (resolve_destination_refused config name w) as (e & Hdest & He);
      [unfold dict_get; by rewrite U | done |].
    unfold exit_on_os_error.
    rewrite (generate_project_stops_at_destination render config name w e);
      [|by destruct Hread|done].
    destruct He as [[why ->]|(en & q & ->)]; reflexivity. }
  rewrite Hrun. split.
  - destruct (show_summary markup_ok config); by eexists.
  - intros Hshown. by rewrite (Hshown config Hc).
Qed.

Lemma prompt_for_config_python_given d a reply (config : gmap string value) version :
  config !! "python" = Some (VStr version) ->
  prompt_for_config d (with_python_answer a reply) config = prompt_for_config d a config.
Proof.
  intros Hp. unfold prompt_for_config. cbv zeta.
  cbn [with_python_answer ans_name ans_description ans_author ans_python ans_ci
       ans_devcontainer ans_precommit ans_docker ans_diagrams].
  rewrite !(prompt_if_none_id "python" _ _ (VStr version));
    try done; by rewrite !prompt_if_none_other by discriminate.
Qed.

(** The question about the Python version is never asked by [new]:
    [--python] has a default, so the entry is always set, and whatever
    would be answered the run is the same. *)
Theorem new_never_asks_python (d : defaults) (stdlib_module_names : gset string)
    (render : string -> gmap string value -> string) (markup_ok : string -> bool)
    (a : answers) (reply : option string) (args : arguments) (w : world) :
  new d stdlib_module_names render markup_ok (with_python_answer a reply) args w
  = new d stdlib_module_names render markup_ok a args w.
Proof.
  rewrite !new_run_eq.
  assert (resolve_config d (with_python_answer a reply) args (path_name (cwd w))
          = resolve_config d a args (path_name (cwd w))) as ->; [|done].
  unfold resolve_config.
  destruct (resolve_name_initial d (path_name (cwd w)) args) as (c1 & -> & _ & _ & O1).
  destruct (arg_no_interactive args); [done|]. f_equal.
  apply (prompt_for_config_python_given _ _ _ _ (arg_python args)).
  rewrite O1 by discriminate. apply initial_config_lookup.
Qed.

Lemma new_non_interactive_witness :
  _validate_project_name ∅ "myapp" = inr tt
  ∧ tree empty_home !! (cwd empty_home ++ ["myapp"]) = None
  ∧ expected_paths "myapp" (Flags true false true true true true)
    = expected_paths "myapp" (default_flags (example_arguments "myapp" "3.13"))
  ∧ write_log (snd example_new)
    = write_log empty_home
      ++ (app (cwd empty_home ++ ["myapp"])
            <$> expected_paths "myapp" (Flags true false true true true true))
  ∧ Forall (fun rel => is_file (snd example_new) ((cwd empty_home ++ ["myapp"]) ++ rel))
      (expected_paths "myapp" (Flags true false true true true true)).
Proof.
  apply (new_non_interactive example_defaults ∅ example_render example_markup no_answers
           (example_arguments "myapp" "3.13") "myapp" empty_home
           (expected_paths "myapp" (Flags true false true true true true))
           (snd example_new)).
  - reflexivity.
  - reflexivity.
  - discriminate.
  - discriminate.
  - apply (run_returns example_new). vm_compute. reflexivity.
Defined.

Lemma new_in_current_directory_witness :
  _validate_project_name ∅ (converted_name example_defaults (path_name (cwd git_home)))
  = inr tt
  ∧ (∀ x, is_Some (tree git_home !! (cwd git_home ++ [x])) → x = ".git")
  ∧ expected_paths "dev" (Flags false true true true true true)
    = expected_paths (converted_name example_defaults (path_name (cwd git_home)))
        (default_flags dot_arguments)
  ∧ write_log (snd example_dot_new)
    = write_log git_home
      ++ (app (cwd git_home) <$> expected_paths "dev" (Flags false true true true true true))
  ∧ Forall (fun rel => is_file (snd example_dot_new) (cwd git_home ++ rel))
      (expected_paths "dev" (Flags false true true true true true)).
Proof.
  apply (new_in_current_directory example_defaults ∅ example_render example_markup
           no_answers dot_arguments git_home
           (expected_paths "dev" (Flags false true true true true true))
           (snd example_dot_new)).
  - reflexivity.
  - reflexivity.
  - apply (run_returns example_dot_new). vm_compute. reflexivity.
Defined.

Lemma new_interactive_witness :
  _validate_project_name ∅
    (default (DEFAULT_PROJECT_NAME example_defaults) (ans_name example_answers)) = inr tt
  ∧ tree empty_home
      !! (cwd empty_home
          ++ [default (DEFAULT_PROJECT_NAME example_defaults) (ans_name example_answers)])
    = None
  ∧ expected_paths "webshop" (Flags false true true false true false)
    = expected_paths
        (default (DEFAULT_PROJECT_NAME example_defaults) (ans_name example_answers))
        (interactive_flags example_answers bare_arguments)
  ∧ write_log (snd example_interactive_new)
    = write_log empty_home
      ++ (app (cwd empty_home
               ++ [default (DEFAULT_PROJECT_NAME example_defaults)
                     (ans_name example_answers)])
            <$> expected_paths "webshop" (Flags false true true false true false))
  ∧ Forall (fun rel =>
              is_file (snd example_interactive_new)
                ((cwd empty_home
                  ++ [default (DEFAULT_PROJECT_NAME example_defaults)
                        (ans_name example_answers)]) ++ rel))
      (expected_paths "webshop" (Flags false true true false true false)).
Proof.
  apply (new_interactive example_defaults ∅ example_render example_markup
           example_answers bare_arguments empty_home
           (expected_paths "webshop" (Flags false true true false true false))
           (snd example_interactive_new)).
  - reflexivity.
  - reflexivity.
  - apply (run_returns example_interactive_new). vm_compute. reflexivity.
Defined.

(** The summary of the example run renders. *)
Lemma example_summary_shown config :
  resolve_config example_defaults no_answers (example_arguments "testproject" "3.13")
    (path_name (cwd taken_home)) = inr config ->
  show_summary example_markup config = inr tt.
Proof.
  intros Hconfig.
  destruct (resolve_config_defaults example_defaults no_answers
              (example_arguments "testproject" "3.13") (path_name (cwd taken_home)) eq_refl)
    as (config' & Hc' & N & D & A & P & _ & F1 & F2 & F3 & F4 & F5 & F6).
  assert (config' = config) as -> by congruence.
  unfold show_summary, _print_config_summary, subscript.
  rewrite N, D, A, P, F1, F2, F3, F4, F5, F6. vm_compute. reflexivity.
Qed.

Lemma new_existing_directory_witness :
  (∃ e, new example_defaults ∅ example_render example_markup no_answers
          (example_arguments "testproject" "3.13") taken_home
        = (inl e, taken_home))
  ∧ new example_defaults ∅ example_render example_markup no_answers
      (example_arguments "testproject" "3.13") taken_home
    = (inl (Exit 1 GenerationFailed), taken_home).
Proof.
  destruct (new_existing_directory example_defaults ∅ example_render example_markup
              no_answers (example_arguments "testproject" "3.13") "testproject" taken_home)
    as [Hraises Hexit].
  - reflexivity.
  - discriminate.
  - vm_compute. reflexivity.
  - vm_compute. reflexivity.
  - eexists. vm_compute. reflexivity.
  - split; [exact Hraises|]. apply Hexit. exact example_summary_shown.
Defined.

(* ===================================================================== *)
(** * Escaping and validation: what is never let through *)
(* ===================================================================== *)

(** ** The reader never yields another string *)

(** Whatever the text, the reader of TOML basic strings either yields the
    original text and what follows the closing quote, or rejects the
    escaped text: it never yields a different string, so a description or
    an author cannot close the quotes early and add content of its own. *)
Theorem escape_never_misread (s rest : string) :
  toml_parse_basic_string (toml_quote (_escape_toml_string s) rest) = Some (s, rest)
  ∨ toml_parse_basic_string (toml_quote (_escape_toml_string s) rest) = None.
Proof.
  unfold toml_quote. induction s as [|c s IH].
  - left. reflexivity.
  - rewrite escape_cons.
    destruct (Ascii.eqb_spec c backslash) as [->|Hb].
    + simpl. simpl in IH. destruct IH as [->| ->]; [by left | by right].
    + destruct (Ascii.eqb_spec c dquote) as [->|Hq].
      * simpl. simpl in IH. destruct IH as [->| ->]; [by left | by right].
      * simpl. apply Ascii.eqb_neq in Hb, Hq. rewrite Hb, Hq.
        destruct (toml_illegal_char c); [by right|].
        simpl in IH. destruct IH as [->| ->]; [by left | by right].
Qed.

(** ** The hint of [_validate_project_name] *)

Lemma word_char_not_newline c : is_word_char c = true -> (c =? newline)%char = false.
Proof. destruct c as [[] [] [] [] [] [] [] []]; try reflexivity; discriminate. Qed.

Lemma word_char_not_separator c : is_word_char c = true -> (c =? "/")%char = false.
Proof. destruct c as [[] [] [] [] [] [] [] []]; try reflexivity; discriminate. Qed.

Lemma word_no_final_newline s :
  all_chars is_word_char s = true -> strip_final_newline s = None.
Proof.
  induction s as [|c s IH]; [reflexivity|]. simpl. intros H.
  apply andb_true_iff in H as [Hc Hs]. destruct s as [|c' s'].
  - by rewrite (word_char_not_newline _ Hc).
  - by rewrite (IH Hs).
Qed.

Lemma re_sub_nonword_length s : String.length (re_sub_nonword s) = String.length s.
Proof. unfold re_sub_nonword. induction s as [|c s IH]; simpl; congruence. Qed.

Lemma re_sub_nonword_digit c :
  is_ascii_digit (if is_word_char c then c else "_"%char) = is_ascii_digit c.
Proof. destruct c as [[] [] [] [] [] [] [] []]; reflexivity. Qed.

(** The hint printed with "Invalid project name" has the length of the
    name and is made of letters, digits and underscores; it is itself of
    the accepted shape exactly when the name is not empty and does not
    start with a digit.  For ["123bad"] the hint is ["123bad"]. *)
Theorem validate_project_name_hint (stdlib_module_names : gset string)
    (name hint : string) :
  _validate_project_name stdlib_module_names name = inl (Exit 1 (InvalidName hint)) ->
  String.length hint = String.length name
  ∧ all_chars is_word_char hint = true
  ∧ (re_match_identifier hint = true
     ↔ ∃ c r, name = String c r ∧ is_ascii_digit c = false).
Proof.
  unfold _validate_project_name. intros H.
  assert (hint = re_sub_nonword name) as ->.
  { repeat case_match; simplify_eq; done. }
  clear H. split; [apply re_sub_nonword_length|].
  pose proof (re_sub_nonword_word name) as Hw. split; [done|].
  rewrite (re_match_identifier_without_newline _ (word_no_final_newline _ Hw)).
  rewrite identifier_body_spec. unfold bare_identifier. rewrite Hw.
  unfold re_sub_nonword. destruct name as [|c r]; simpl.
  - split; [intros (_ & ? & ? & ? & _) | intros (? & ? & ? & _)]; discriminate.
  - split.
    + intros (_ & c' & r' & [= <- _] & Hd). rewrite re_sub_nonword_digit in Hd. eauto.
    + intros (c' & r' & [= <- <-] & Hd). split; [done|].
      eexists _, _. split; [done|]. by rewrite re_sub_nonword_digit.
Qed.

Lemma validate_project_name_hint_witness :
  String.length "my_project" = String.length "my-project"
  ∧ all_chars is_word_char "my_project" = true
  ∧ (re_match_identifier "my_project" = true
     ↔ ∃ c r, "my-project" = String c r ∧ is_ascii_digit c = false).
Proof.
  apply (validate_project_name_hint ∅ "my-project" "my_project").
  vm_compute. reflexivity.
Defined.

(** ** Accepted names are single path components *)

Lemma identifier_body_separator_free s :
  identifier_body s = true -> separator_free s = true ∧ s ≠ "" ∧ s ≠ "." ∧ s ≠ "..".
Proof.
  intros H. apply identifier_body_spec in H as (Hw & c & r & -> & Hd).
  split.
  - unfold separator_free. revert Hw. generalize (String c r). intros s.
    induction s as [|c' s IH]; simpl; [done|]. intros H.
    apply andb_true_iff in H as [Hc Hs].
    by rewrite (word_char_not_separator _ Hc), IH.
  - simpl in Hw. apply andb_true_iff in Hw as [Hc _].
    repeat split; intros [= -> _]; discriminate.
Qed.

Lemma separator_free_app a b :
  separator_free (a +:+ b) = separator_free a && separator_free b.
Proof. apply all_chars_app. Qed.

(** A name that [_validate_project_name] accepts is a single path
    component: it is not empty, it is neither ["."] nor [".."], and it
    holds no path separator; so [cwd / name] is a direct child of the
    working directory. *)
Theorem validate_project_name_single_component (stdlib_module_names : gset string)
    (name : string) :
  _validate_project_name stdlib_module_names name = inr tt ->
  name ≠ "" ∧ name ≠ "." ∧ name ≠ ".." ∧ separator_free name = true.
Proof.
  unfold _validate_project_name. intros H.
  destruct (re_match_identifier name) eqn:Hm; [clear H|discriminate].
  unfold re_match_identifier, re_match_anchored in Hm.
  apply orb_true_iff in Hm as [Hb|Hb].
  { apply identifier_body_separator_free in Hb. tauto. }
  destruct (strip_final_newline name) as [t|] eqn:Ht; [|discriminate].
  apply strip_final_newline_spec in Ht as ->.
  apply identifier_body_separator_free in Hb as (Hs & Hne & _).
  rewrite (separator_free_app t), Hs.
  destruct t as [|c [|c' t]]; [done|..];
    repeat split; try reflexivity; try (simpl; discriminate).
  simpl. intros [= _ _ H]. destruct t; discriminate.
Qed.

Lemma validate_project_name_single_component_witness :
  "my_app2" ≠ "" ∧ "my_app2" ≠ "." ∧ "my_app2" ≠ ".." ∧ separator_free "my_app2" = true.
Proof.
  apply (validate_project_name_single_component ∅ "my_app2").
  vm_compute. reflexivity.
Defined.

(** ** The name derived from the working directory *)

(** The name that ["."] stands for always has the accepted shape (when the
    directory name is empty, provided the default name has it): the first
    test of [_validate_project_name] never rejects it, so [new .] can only
    be refused for a keyword, a dunder name or a reserved name, such as in
    a directory called [class] or [tests]. *)
Theorem converted_name_has_shape (d : defaults) (stdlib_module_names : gset string)
    (base : string) :
  (base = "" → re_match_identifier (DEFAULT_PROJECT_NAME d) = true) ->
  re_match_identifier (converted_name d base) = true
  ∧ ∀ hint, _validate_project_name stdlib_module_names (converted_name d base)
            ≠ inl (Exit 1 (InvalidName hint)).
Proof.
  intros Hdef.
  assert (re_match_identifier (converted_name d base) = true) as Hm.
  { unfold converted_name. pose proof (re_sub_nonword_word base) as Hw.
    destruct (re_sub_nonword base) as [|c r] eqn:Hsub.
    - apply Hdef. destruct base; [done | discriminate].
    - unfold re_match_identifier, re_match_anchored. apply orb_true_iff. left.
      destruct (py_isdigit c) eqn:Hd.
      + simpl. exact Hw.
      + simpl in *. apply andb_true_iff in Hw as [Hc Hr].
        rewrite is_ident_start_spec, Hc, Hr.
        rewrite (is_word_char_isdigit _ Hc) in Hd. by rewrite Hd. }
  split; [done|]. intros hint. unfold _validate_project_name. rewrite Hm. simpl.
  repeat case_match; discriminate.
Qed.

Lemma converted_name_has_shape_witness :
  re_match_identifier (converted_name example_defaults "2 cool (v2)") = true
  ∧ ∀ hint, _validate_project_name ∅ (converted_name example_defaults "2 cool (v2)")
            ≠ inl (Exit 1 (InvalidName hint)).
Proof.
  apply (converted_name_has_shape example_defaults ∅ "2 cool (v2)").
  discriminate.
Defined.

(* ===================================================================== *)
(** * The configuration summary *)
(* ===================================================================== *)

(** ** The summary and the generation agree *)

Lemma elem_of_group_when {A} (b : bool) (g : list A) x :
  x ∈ group_when b g ↔ b = true ∧ x ∈ g.
Proof.
  destruct b; simpl.
  - split; [by intros ? | by intros [_ ?]].
  - split; [intros H; by apply elem_of_nil in H | intros [? _]; discriminate].
Qed.

Lemma expected_paths_elem name f x :
  x ∈ expected_paths name f
  ↔ x ∈ always_paths name
    ∨ (f_continue f = true ∧ x = continue_file)
    ∨ (f_docker f = true
       ∧ x ∈ [docker_file; ["docker"; "docker-compose.yml"]; [".dockerignore"]])
    ∨ (f_ci f = true ∧ x = ci_file)
    ∨ (f_devcontainer f = true ∧ x = devcontainer_file)
    ∨ (f_precommit f = true ∧ x = precommit_file)
    ∨ (f_diagrams f = true ∧ x = diagrams_file).
Proof.
  unfold expected_paths, optional_paths.
  rewrite !elem_of_app, !elem_of_group_when, !list_elem_of_singleton. reflexivity.
Qed.

Ltac not_listed H :=
  repeat (apply elem_of_cons in H as [H|H]; [discriminate H|]); by apply elem_of_nil in H.

Ltac listed := repeat first [apply list_elem_of_here | apply list_elem_of_further].

Ltac flag_iff :=
  rewrite expected_paths_elem;
  unfold continue_file, docker_file, ci_file, devcontainer_file, precommit_file,
    diagrams_file, always_paths;
  split;
  [ intros [H|[[? H]|[[? H]|[[? H]|[[? H]|[[? H]|[? H]]]]]]];
    first [assumption | discriminate H | exfalso; not_listed H]
  | intros Hf;
    repeat first [ left; split; [exact Hf | first [reflexivity | listed]]; fail
                 | split; [exact Hf | reflexivity]
                 | right ] ].

Lemma expected_paths_flags name f :
  (continue_file ∈ expected_paths name f ↔ f_continue f = true)
  ∧ (docker_file ∈ expected_paths name f ↔ f_docker f = true)
  ∧ (ci_file ∈ expected_paths name f ↔ f_ci f = true)
  ∧ (devcontainer_file ∈ expected_paths name f ↔ f_devcontainer f = true)
  ∧ (precommit_file ∈ expected_paths name f ↔ f_precommit f = true)
  ∧ (diagrams_file ∈ expected_paths name f ↔ f_diagrams f = true).
Proof.
  split; [flag_iff|]. split; [flag_iff|]. split; [flag_iff|].
  split; [flag_iff|]. split; flag_iff.
Qed.

Lemma yes_or_no_yes v : yes_or_no v = VStr _yes ↔ truthy v = true.
Proof. unfold yes_or_no. destruct (truthy v); split; (done || discriminate). Qed.

Ltac row_iff :=
  rewrite <- yes_or_no_yes; split;
  [ intros H;
    repeat (apply elem_of_cons in H as [H|H]; [by simplify_eq|]);
    by apply elem_of_nil in H
  | intros Hy; rewrite <- Hy; listed ].

Lemma print_config_summary_rows config rows :
  _print_config_summary config = inr rows ->
  (("CI", VStr _yes) ∈ rows ↔ truthy (dict_get config "ci") = true)
  ∧ (("Devcontainer", VStr _yes) ∈ rows ↔ truthy (dict_get config "devcontainer") = true)
  ∧ (("Pre-commit", VStr _yes) ∈ rows ↔ truthy (dict_get config "precommit") = true)
  ∧ (("Docker", VStr _yes) ∈ rows ↔ truthy (dict_get config "docker") = true)
  ∧ (("Diagrams", VStr _yes) ∈ rows ↔ truthy (dict_get config "diagrams") = true)
  ∧ (("Continue", VStr _yes) ∈ rows ↔ truthy (dict_get config "continue") = true).
Proof.
  unfold _print_config_summary, subscript, dict_get. intros H.
  repeat match type of H with
         | context [config !! ?key] =>
             destruct (config !! key) as [?|] eqn:?; simpl in H; [|discriminate H]
         end.
  injection H as <-. cbn [default].
  split; [row_iff|]. split; [row_iff|]. split; [row_iff|].
  split; [row_iff|]. split; row_iff.
Qed.

(** What the summary announces is what is generated: for each of the six
    features, the summary shows "yes" on its row exactly when the files of
    its group are among the paths that [generate_project] returns. *)
Theorem summary_announces_what_is_generated
    (render : string -> gmap string value -> string) (config : gmap string value)
    (rows : list (string * value)) (w : world) (paths : list path) (w' : world) :
  _print_config_summary config = inr rows ->
  generate_project render config w = (inr paths, w') ->
  (("CI", VStr _yes) ∈ rows ↔ ci_file ∈ paths)
  ∧ (("Devcontainer", VStr _yes) ∈ rows ↔ devcontainer_file ∈ paths)
  ∧ (("Pre-commit", VStr _yes) ∈ rows ↔ precommit_file ∈ paths)
  ∧ (("Docker", VStr _yes) ∈ rows ↔ docker_file ∈ paths)
  ∧ (("Diagrams", VStr _yes) ∈ rows ↔ diagrams_file ∈ paths)
  ∧ (("Continue", VStr _yes) ∈ rows ↔ continue_file ∈ paths).
Proof.
  intros Hrows Hrun.
  apply generate_project_returns in Hrun as (name & root & _ & -> & _).
  destruct (print_config_summary_rows _ _ Hrows) as (R1 & R2 & R3 & R4 & R5 & R6).
  destruct (expected_paths_flags name (config_flags config))
    as (E1 & E2 & E3 & E4 & E5 & E6).
  unfold config_flags in *. cbn [f_continue f_docker f_ci f_devcontainer f_precommit
                                  f_diagrams] in *.
  rewrite R1, R2, R3, R4, R5, R6, E1, E2, E3, E4, E5, E6. done.
Qed.

Lemma summary_announces_what_is_generated_witness :
  (("CI", VStr _yes) ∈ example_rows
   ↔ ci_file ∈ expected_paths "testproject" (Flags true false true false true true))
  ∧ (("Devcontainer", VStr _yes) ∈ example_rows
     ↔ devcontainer_file ∈ expected_paths "testproject" (Flags true false true false true true))
  ∧ (("Pre-commit", VStr _yes) ∈ example_rows
     ↔ precommit_file ∈ expected_paths "testproject" (Flags true false true false true true))
  ∧ (("Docker", VStr _yes) ∈ example_rows
     ↔ docker_file ∈ expected_paths "testproject" (Flags true false true false true true))
  ∧ (("Diagrams", VStr _yes) ∈ example_rows
     ↔ diagrams_file ∈ expected_paths "testproject" (Flags true false true false true true))
  ∧ (("Continue", VStr _yes) ∈ example_rows
     ↔ continue_file ∈ expected_paths "testproject" (Flags true false true false true true)).
Proof.
  apply (summary_announces_what_is_generated example_render
           (example_config "A test project" (VBool true) false) example_rows empty_home
           (expected_paths "testproject" (Flags true false true false true true))
           (snd example_run)).
  - vm_compute. reflexivity.
  - apply (run_returns example_run). vm_compute. reflexivity.
Defined.


(* ===================================================================== *)
(** * The file tree *)
(* ===================================================================== *)

Lemma show_path_parts_gen parts : ∀ rest seen d current,
  parts = seen ++ rest ->
  fst (foldl (fun st ip => show_part parts st ip.1 ip.2) (d, current)
         (imap (fun j part => (length seen + j, part)) rest))
  = show_parts seen rest current d.
Proof.
  induction rest as [|part rest IH]; intros seen d current Hparts; [reflexivity|].
  rewrite imap_cons. cbn [foldl show_parts].
  assert (take (length seen + 0 + 1) parts = seen ++ [part]) as Htake.
  { rewrite Hparts. replace (length seen + 0 + 1) with (length seen + 1) by lia.
    rewrite take_app_add'; [|done]. reflexivity. }
  unfold show_part at 2. cbn [fst snd]. rewrite Htake.
  assert (bool_decide (length seen + 0 = length parts - 1) = bool_decide (rest = []))
    as Hfile.
  { apply bool_decide_ext. rewrite Hparts, length_app. simpl.
    destruct rest; simpl; split; intros; try done; lia. }
  rewrite Hfile.
  rewrite (imap_ext _ (fun j part0 => (length (seen ++ [part]) + j, part0))).
  2:{ intros j x _. simpl. rewrite length_app. simpl. f_equal. lia. }
  destruct (nodes d !! join (seen ++ [part])) as [node|].
  - apply IH. by rewrite <- app_assoc.
  - unfold tree_add. cbn [fst snd]. apply IH. by rewrite <- app_assoc.
Qed.

Lemma show_path_parts d parts : show_path d parts = show_parts [] parts 0 d.
Proof. apply (show_path_parts_gen parts parts [] d 0). reflexivity. Qed.

(** Two files, given out of order: [README] comes first, then the
    directory [src] with the file [a] below it. *)
Example print_file_tree_example :
  store (_print_file_tree "p" [["src"; "a"]; ["README"]])
  = [ TreeNode "[bold bright_blue]p/[/bold bright_blue]" [1; 2];
      TreeNode "[green]README[/green]" [];
      TreeNode "[bold]src/[/bold]" [3];
      TreeNode "[green]a[/green]" [] ].
Proof. vm_compute. reflexivity. Qed.

(** ** Strings: keys and labels *)

Lemma str_app_cons c (a b : string) : String c a +:+ b = String c (a +:+ b).
Proof. reflexivity. Qed.

Lemma str_app_nil (b : string) : "" +:+ b = b.
Proof. reflexivity. Qed.

Lemma str_app_assoc (a b c : string) : (a +:+ b) +:+ c = a +:+ (b +:+ c).
Proof.
  induction a as [|x a IH]; [reflexivity|]. rewrite !str_app_cons. by rewrite IH.
Qed.

Lemma str_length_app (a b : string) :
  String.length (a +:+ b) = String.length a + String.length b.
Proof.
  induction a as [|x a IH]; [reflexivity|]. rewrite str_app_cons. simpl. by rewrite IH.
Qed.

Lemma str_app_inv_tail (a b c : string) : a +:+ c = b +:+ c -> a = b.
Proof.
  revert b. induction a as [|x a IH]; intros [|y b] H;
    rewrite ?str_app_cons, ?str_app_nil in H.
  - reflexivity.
  - apply (f_equal String.length) in H. simpl in H. rewrite str_length_app in H. lia.
  - apply (f_equal String.length) in H. simpl in H. rewrite str_length_app in H. lia.
  - injection H as -> H. f_equal. by apply IH.
Qed.

Lemma str_app_inv_head (a b c : string) : a +:+ b = a +:+ c -> b = c.
Proof.
  induction a as [|x a IH]; [done|]. rewrite !str_app_cons. intros [= H]. by apply IH.
Qed.

Lemma file_label_inj x y : file_label x = file_label y -> x = y.
Proof.
  unfold file_label. intros H. apply str_app_inv_head in H.
  by apply str_app_inv_tail in H.
Qed.

Lemma dir_label_inj x y : dir_label x = dir_label y -> x = y.
Proof.
  unfold dir_label. intros H. apply str_app_inv_head in H.
  by apply str_app_inv_tail in H.
Qed.

Lemma file_label_not_dir x y : file_label x ≠ dir_label y.
Proof. unfold file_label, dir_label. rewrite !str_app_cons. discriminate. Qed.

Lemma label_part n x y :
  label n = file_label x ∨ label n = dir_label x ->
  label n = file_label y ∨ label n = dir_label y -> x = y.
Proof.
  intros [Hx|Hx] [Hy|Hy]; rewrite Hx in Hy.
  - by apply file_label_inj.
  - by apply file_label_not_dir in Hy.
  - symmetry in Hy. by apply file_label_not_dir in Hy.
  - by apply dir_label_inj.
Qed.

Lemma join_cons x y l : join (x :: y :: l) = x +:+ "/" +:+ join (y :: l).
Proof. reflexivity. Qed.

Lemma separator_free_cons c s :
  separator_free (String c s) = negb (c =? "/")%char && separator_free s.
Proof. reflexivity. Qed.

(** The first part of a key ends at the first separator. *)
Lemma join_head_inj x x' r r' :
  separator_free x = true -> separator_free x' = true ->
  x +:+ "/" +:+ r = x' +:+ "/" +:+ r' -> x = x' ∧ r = r'.
Proof.
  revert x'. induction x as [|c x IH]; intros [|c' x'] Hx Hx' H;
    rewrite ?str_app_cons, ?str_app_nil in H.
  - by injection H.
  - injection H as <- _. rewrite separator_free_cons in Hx'. discriminate.
  - injection H as -> _. rewrite separator_free_cons in Hx. discriminate.
  - injection H as -> H. rewrite separator_free_cons in Hx, Hx'.
    apply andb_true_iff in Hx as [_ Hx]. apply andb_true_iff in Hx' as [_ Hx'].
    destruct (IH x' Hx Hx' H) as [-> ->]. done.
Qed.

Lemma separator_free_no_separator x a b :
  separator_free x = true -> x ≠ a +:+ "/" +:+ b.
Proof.
  intros Hx ->. rewrite (separator_free_app a) in Hx. simpl in Hx.
  apply andb_true_iff in Hx as [_ Hx]. discriminate.
Qed.

(** Keys name prefixes: two lists of parts with the same key are equal,
    when they are not empty and no part holds a separator. *)
Lemma join_inj (l l' : list string) :
  l ≠ [] -> l' ≠ [] ->
  Forall (fun part => separator_free part = true) l ->
  Forall (fun part => separator_free part = true) l' ->
  join l = join l' -> l = l'.
Proof.
  revert l'. induction l as [|x l IH]; intros [|x' l'] Hl Hl' Hs Hs' H; try done.
  apply Forall_cons in Hs as [Hx Hs]. apply Forall_cons in Hs' as [Hx' Hs'].
  destruct l as [|y l], l' as [|y' l'].
  - change (x = x') in H. by subst.
  - rewrite join_cons in H. change (join [x]) with x in H.
    by apply separator_free_no_separator in H.
  - rewrite join_cons in H. change (join [x']) with x' in H. symmetry in H.
    by apply separator_free_no_separator in H.
  - rewrite !join_cons in H. apply join_head_inj in H as [-> H]; [|done..].
    f_equal. by apply IH.
Qed.

(** ** The store *)

Lemma tree_add_length parent lbl objects :
  length (tree_add parent lbl objects).2 = S (length objects).
Proof. unfold tree_add. simpl. rewrite length_app, length_alter. simpl. lia. Qed.

Lemma tree_add_new parent lbl objects :
  (tree_add parent lbl objects).2 !! length objects = Some (TreeNode lbl []).
Proof.
  unfold tree_add. simpl. rewrite lookup_app_r; rewrite length_alter; [|done].
  by rewrite Nat.sub_diag.
Qed.

(** The objects that were there keep their label; their children are the
    same, but for [parent], which has the new object as one more child. *)
Lemma tree_add_old parent lbl objects id n :
  objects !! id = Some n ->
  ∃ n', (tree_add parent lbl objects).2 !! id = Some n'
        ∧ label n' = label n
        ∧ children n' = (if decide (id = parent) then children n ++ [length objects]
                         else children n).
Proof.
  intros Hn. unfold tree_add. simpl.
  rewrite lookup_app_l by (rewrite length_alter; by eapply lookup_lt_Some).
  rewrite list_lookup_alter. destruct (decide (parent = id)) as [->|Hne].
  - rewrite Hn. simpl. eexists. split; [done|]. split; [done|]. by rewrite decide_True.
  - exists n. split; [done|]. split; [done|]. by rewrite decide_False.
Qed.

Lemma tree_add_inv parent lbl objects id n' :
  (tree_add parent lbl objects).2 !! id = Some n' ->
  (id = length objects ∧ n' = TreeNode lbl [])
  ∨ ∃ n, objects !! id = Some n
         ∧ label n' = label n
         ∧ children n' = (if decide (id = parent) then children n ++ [length objects]
                          else children n).
Proof.
  intros H. destruct (decide (id = length objects)) as [->|Hne].
  - left. rewrite tree_add_new in H. by injection H.
  - right. pose proof (lookup_lt_Some _ _ _ H) as Hlt. rewrite tree_add_length in Hlt.
    destruct (lookup_lt_is_Some_2 objects id) as [n Hn]; [lia|].
    destruct (tree_add_old parent lbl objects id n Hn) as (n'' & H' & Hl & Hc).
    exists n. split; [done|]. rewrite H in H'. injection H' as <-. done.
Qed.

(** ** The invariant of the display *)

Lemma node_at_snoc d pre x : node_at d (pre ++ [x]) = nodes d !! join (pre ++ [x]).
Proof. unfold node_at. by destruct pre. Qed.

Lemma node_at_cov top C F d pre :
  tree_inv top C F d -> pre ∈ C -> node_at d pre = nodes d !! join pre.
Proof.
  intros Hinv Hpre. apply (ti_cov _ _ _ _ Hinv) in Hpre as (Hne & _).
  unfold node_at. by destruct pre.
Qed.

Lemma node_at_bound top C F d pre node :
  tree_inv top C F d -> node_at d pre = Some node -> node < length (store d).
Proof.
  intros Hinv. destruct pre as [|x pre]; simpl.
  - intros [= <-]. destruct (ti_root _ _ _ _ Hinv) as (rn & Hrn & _).
    by eapply lookup_lt_Some.
  - apply (ti_bound _ _ _ _ Hinv).
Qed.

(** A key is in [nodes] exactly when its prefix is in [C]. *)
Lemma tree_inv_lookup top C F d pre :
  tree_inv top C F d -> pre ≠ [] -> parts_ok pre ->
  is_Some (nodes d !! join pre) ↔ pre ∈ C.
Proof.
  intros Hinv Hne Hok. split.
  - intros [node Hnode].
    destruct (ti_dom _ _ _ _ Hinv _ _ Hnode) as (pre' & Hin & Hkey).
    destruct (ti_cov _ _ _ _ Hinv _ Hin) as (Hne' & Hok' & _).
    by rewrite (join_inj pre pre').
  - intros Hin. by apply (ti_cov _ _ _ _ Hinv).
Qed.

Lemma node_at_inj top C F d pre pre' node :
  tree_inv top C F d ->
  pre = [] ∨ pre ∈ C -> pre' = [] ∨ pre' ∈ C ->
  node_at d pre = Some node -> node_at d pre' = Some node -> pre = pre'.
Proof.
  intros Hinv Hpre Hpre' H H'.
  assert (∀ q, q ∈ C → node_at d q = Some 0 → False) as Hroot.
  { intros q Hq Hq0. rewrite (node_at_cov _ _ _ _ _ Hinv Hq) in Hq0.
    destruct (ti_cov _ _ _ _ Hinv _ Hq) as (Hne & _).
    destruct q as [|y q _] using rev_ind; [done|].
    destruct (ti_node _ _ _ _ Hinv _ _ _ Hq Hq0) as [Hlt _]. lia. }
  destruct Hpre as [->|Hpre], Hpre' as [->|Hpre'].
  - done.
  - simpl in H. injection H as <-. by destruct (Hroot _ Hpre' H').
  - simpl in H'. injection H' as <-. by destruct (Hroot _ Hpre H).
  - rewrite (node_at_cov _ _ _ _ _ Hinv Hpre) in H.
    rewrite (node_at_cov _ _ _ _ _ Hinv Hpre') in H'.
    by eapply (ti_inj _ _ _ _ Hinv).
Qed.

Lemma tree_inv_initial top :
  tree_inv top [] [] {| store := [TreeNode top []]; nodes := ∅ |}.
Proof.
  constructor; simpl.
  - by eexists.
  - intros key node H. by rewrite lookup_empty in H.
  - intros pre H. by apply elem_of_nil in H.
  - intros pre x H. by apply elem_of_nil in H.
  - intros pre x node H. by apply elem_of_nil in H.
  - intros [|parent] pn node H Hin; simpl in H; [|by rewrite lookup_nil in H].
    injection H as <-. by apply elem_of_nil in Hin.
  - intros pre pre' node H. by apply elem_of_nil in H.
  - intros key node H. by rewrite lookup_empty in H.
  - intros [|id] n H; simpl in H; [|by rewrite lookup_nil in H].
    injection H as <-. apply NoDup_nil_2.
  - intros q H. by apply elem_of_nil in H.
Qed.

(** A new object for the prefix [seen ++ [part]], below [current]. *)
Lemma tree_inv_add top C F d seen part current (is_file : bool) :
  tree_inv top C F d ->
  seen = [] ∨ seen ∈ C ->
  node_at d seen = Some current ->
  parts_ok (seen ++ [part]) ->
  seen ++ [part] ∉ C ->
  tree_inv top (C ++ [seen ++ [part]]) (if is_file then F ++ [seen ++ [part]] else F)
    {| store := (tree_add current (if is_file then file_label part else dir_label part)
                   (store d)).2;
       nodes := <[join (seen ++ [part]) := length (store d)]> (nodes d) |}.
Proof.
  intros Hinv Hseen Hcur Hok Hnew.
  set (q := seen ++ [part]) in *.
  set (lbl := if is_file then file_label part else dir_label part).
  set (F' := if is_file then F ++ [q] else F).
  assert (q ≠ []) as Hq by (unfold q; by destruct seen).
  assert (∀ pre, pre ∈ C → join pre ≠ join q) as Hkey.
  { intros pre Hpre Heq. destruct (ti_cov _ _ _ _ Hinv _ Hpre) as (Hne & Hpok & _).
    apply join_inj in Heq; [|done..]. by subst. }
  assert (current < length (store d)) as Hcurlt by (by eapply node_at_bound).
  assert (∀ pre, pre = [] ∨ pre ∈ C →
            node_at {| store := (tree_add current lbl (store d)).2;
                       nodes := <[join q := length (store d)]> (nodes d) |} pre
            = node_at d pre) as Hat.
  { intros pre [->|Hpre]; [done|].
    destruct (ti_cov _ _ _ _ Hinv _ Hpre) as (Hne & _).
    unfold node_at. destruct pre; [done|]. simpl.
    rewrite lookup_insert_ne; [done|]. intros Heq. by apply (Hkey _ Hpre). }
  assert (∀ pre, pre ∈ F' ↔ pre ∈ F ∨ (is_file = true ∧ pre = q)) as HF'.
  { intros pre. unfold F'. destruct is_file.
    - rewrite elem_of_app, list_elem_of_singleton. split.
      + intros [?|?]; [by left | by right].
      + intros [?|[_ ?]]; [by left | by right].
    - split; [by left|]. intros [?|[? _]]; done. }
  constructor; cbn [store nodes].
  - destruct (ti_root _ _ _ _ Hinv) as (rn & Hrn & Hl).
    destruct (tree_add_old current lbl _ _ _ Hrn) as (rn' & Hrn' & Hl' & _).
    exists rn'. split; [done | congruence].
  - intros key node H. destruct (decide (key = join q)) as [->|Hne].
    + exists q. split; [|done]. apply elem_of_app. right. by apply list_elem_of_singleton.
    + rewrite lookup_insert_ne in H by done.
      destruct (ti_dom _ _ _ _ Hinv _ _ H) as (pre & Hpre & ->).
      exists pre. split; [|done]. apply elem_of_app. by left.
  - intros pre Hpre. apply elem_of_app in Hpre as [Hpre|Hpre].
    + destruct (ti_cov _ _ _ _ Hinv _ Hpre) as (Hne & Hpok & Hsome).
      split; [done|]. split; [done|].
      rewrite lookup_insert_ne; [done|]. intros Heq. by apply (Hkey _ Hpre).
    + apply list_elem_of_singleton in Hpre as ->.
      split; [done|]. split; [done|]. rewrite lookup_insert_eq. eauto.
  - intros pre x Hpre. apply elem_of_app in Hpre as [Hpre|Hpre].
    + destruct (ti_closed _ _ _ _ Hinv _ _ Hpre) as [->|Hin]; [by left|].
      right. apply elem_of_app. by left.
    + apply list_elem_of_singleton in Hpre. unfold q in Hpre.
      apply app_inj_tail in Hpre as [-> _].
      destruct Hseen as [->|Hin]; [by left|]. right. apply elem_of_app. by left.
  - intros pre x node Hpre Hnode. apply elem_of_app in Hpre as [Hpre|Hpre].
    + rewrite lookup_insert_ne in Hnode by (intros Heq; by apply (Hkey _ Hpre)).
      destruct (ti_node _ _ _ _ Hinv _ _ _ Hpre Hnode)
        as (Hpos & n & parent & pn & Hn & Hl & Hp & Hpn & Hin).
      split; [done|].
      destruct (tree_add_old current lbl _ _ _ Hn) as (n' & Hn' & Hl' & _).
      destruct (tree_add_old current lbl _ _ _ Hpn) as (pn' & Hpn' & _ & Hc').
      exists n', parent, pn'. split; [done|]. split.
      { rewrite Hl', Hl.
        destruct (bool_decide (pre ++ [x] ∈ F)) eqn:Hb.
        - apply bool_decide_eq_true in Hb. rewrite bool_decide_eq_true_2; [done|].
          apply HF'. by left.
        - apply bool_decide_eq_false in Hb. rewrite bool_decide_eq_false_2; [done|].
          intros Hin'. apply HF' in Hin' as [?|[_ Heq]]; [done|].
          rewrite Heq in Hpre. done. }
      split; [rewrite Hat; [done|]; by apply (ti_closed _ _ _ _ Hinv _ x)|].
      split; [done|]. rewrite Hc'. case_decide; [|done]. apply elem_of_app. by left.
    + apply list_elem_of_singleton in Hpre. unfold q in Hpre.
      apply app_inj_tail in Hpre as [-> ->].
      fold q in Hnode. rewrite lookup_insert_eq in Hnode. injection Hnode as <-.
      split; [lia|].
      destruct (lookup_lt_is_Some_2 (store d) current Hcurlt) as [pn Hpn].
      destruct (tree_add_old current lbl _ _ _ Hpn) as (pn' & Hpn' & _ & Hc').
      exists (TreeNode lbl []), current, pn'.
      split; [apply tree_add_new|]. split.
      { simpl. unfold lbl. fold q. destruct is_file.
        - rewrite bool_decide_eq_true_2; [done|]. apply HF'. by right.
        - rewrite bool_decide_eq_false_2; [done|]. intros Hin.
          apply HF' in Hin as [Hin|[? _]]; [|done].
          by apply (ti_files _ _ _ _ Hinv) in Hin. }
      split; [by rewrite Hat|]. split; [done|].
      rewrite Hc', decide_True by done. apply elem_of_app. right.
      by apply list_elem_of_singleton.
  - intros parent pn' node Hpn' Hin.
    apply tree_add_inv in Hpn' as [[-> ->]|(pn & Hpn & _ & Hc)];
      [by apply elem_of_nil in Hin|].
    assert (node ∈ children pn ∨ (parent = current ∧ node = length (store d))) as [Hold|[-> ->]].
    { rewrite Hc in Hin. case_decide; [|by left].
      apply elem_of_app in Hin as [?|Hin]; [by left|].
      apply list_elem_of_singleton in Hin. by right. }
    + destruct (ti_child _ _ _ _ Hinv _ _ _ Hpn Hold) as (pre & x & Hpre & Hp & Hnode).
      exists pre, x. split; [apply elem_of_app; by left|].
      split; [rewrite Hat; [done|]; by apply (ti_closed _ _ _ _ Hinv _ x)|].
      rewrite lookup_insert_ne; [done|]. intros Heq. by apply (Hkey _ Hpre).
    + exists seen, part. fold q.
      split; [apply elem_of_app; right; by apply list_elem_of_singleton|].
      split; [by rewrite Hat|]. by rewrite lookup_insert_eq.
  - intros pre pre' node Hpre Hpre' H H'.
    apply elem_of_app in Hpre as [Hpre|Hpre], Hpre' as [Hpre'|Hpre'].
    + rewrite lookup_insert_ne in H by (intros Heq; by apply (Hkey _ Hpre)).
      rewrite lookup_insert_ne in H' by (intros Heq; by apply (Hkey _ Hpre')).
      by eapply (ti_inj _ _ _ _ Hinv).
    + apply list_elem_of_singleton in Hpre' as ->.
      rewrite lookup_insert_ne in H by (intros Heq; by apply (Hkey _ Hpre)).
      rewrite lookup_insert_eq in H'. injection H' as <-.
      apply (ti_bound _ _ _ _ Hinv) in H. lia.
    + apply list_elem_of_singleton in Hpre as ->.
      rewrite lookup_insert_ne in H' by (intros Heq; by apply (Hkey _ Hpre')).
      rewrite lookup_insert_eq in H. injection H as <-.
      apply (ti_bound _ _ _ _ Hinv) in H'. lia.
    + apply list_elem_of_singleton in Hpre as ->.
      by apply list_elem_of_singleton in Hpre' as ->.
  - intros key node H. rewrite tree_add_length.
    destruct (decide (key = join q)) as [->|Hne].
    + rewrite lookup_insert_eq in H. injection H as <-. lia.
    + rewrite lookup_insert_ne in H by done.
      apply (ti_bound _ _ _ _ Hinv) in H. lia.
  - intros id n' Hn'.
    apply tree_add_inv in Hn' as [[-> ->]|(n & Hn & _ & Hc)]; [apply NoDup_nil_2|].
    rewrite Hc. pose proof (ti_nodup _ _ _ _ Hinv _ _ Hn) as Hnd.
    case_decide; [|done]. apply NoDup_app. split; [done|].
    split; [|apply NoDup_singleton].
    intros c Hc1 Hc2. apply list_elem_of_singleton in Hc2 as ->.
    destruct (ti_child _ _ _ _ Hinv _ _ _ Hn Hc1) as (pre & x & _ & _ & Hnode).
    apply (ti_bound _ _ _ _ Hinv) in Hnode. lia.
  - intros pre Hpre. apply HF' in Hpre as [Hpre|[_ ->]].
    + apply elem_of_app. left. by apply (ti_files _ _ _ _ Hinv).
    + apply elem_of_app. right. by apply list_elem_of_singleton.
Qed.

(** The inner loop, from any point of a path: it adds the prefixes between
    [seen] and the whole path that had no object, and labels the whole
    path as a file if it had none. *)
Lemma show_parts_inv top : ∀ rest seen current C F d,
  tree_inv top C F d ->
  seen = [] ∨ seen ∈ C ->
  node_at d seen = Some current ->
  parts_ok (seen ++ rest) ->
  ∃ C' F', tree_inv top C' F' (show_parts seen rest current d)
    ∧ (∀ q, q ∈ C' ↔ q ∈ C ∨ ∃ k, k < length rest ∧ q = seen ++ take (S k) rest)
    ∧ (∀ q, q ∈ F' ↔ q ∈ F ∨ (rest ≠ [] ∧ q = seen ++ rest ∧ q ∉ C)).
Proof.
  induction rest as [|part rest IH]; intros seen current C F d Hinv Hseen Hcur Hok.
  { exists C, F. split; [done|]. split; intros q.
    - split; [by left|]. intros [?|(k & Hk & _)]; [done|]. simpl in Hk. lia.
    - split; [by left|]. intros [?|(? & _)]; done. }
  assert (parts_ok (seen ++ [part])) as Hok1.
  { apply Forall_app in Hok as [Hs Hr]. apply Forall_cons in Hr as [Hp _].
    apply Forall_app. split; [done|]. by apply Forall_singleton. }
  assert (seen ++ [part] ≠ []) as Hne1 by (by destruct seen).
  assert (parts_ok ((seen ++ [part]) ++ rest)) as Hok2 by (by rewrite <- app_assoc).
  assert (∀ k, (seen ++ [part]) ++ take (S k) rest = seen ++ take (S (S k)) (part :: rest))
    as Htake by (intros k; by rewrite <- app_assoc).
  cbn [show_parts].
  destruct (nodes d !! join (seen ++ [part])) as [node|] eqn:Hnode.
  - assert (seen ++ [part] ∈ C) as Hin.
    { apply (tree_inv_lookup _ _ _ _ _ Hinv); [done | done | by rewrite Hnode]. }
    destruct (IH (seen ++ [part]) node C F d Hinv) as (C' & F' & Hinv' & HC' & HF');
      [by right | by rewrite node_at_snoc | done |].
    exists C', F'. split; [done|]. split; intros q.
    + rewrite HC'. split.
      * intros [?|(k & Hk & ->)]; [by left|]. right. exists (S k).
        split; [simpl; lia | apply Htake].
      * intros [?|(k & Hk & ->)]; [by left|]. destruct k as [|k].
        -- left. simpl. done.
        -- right. exists k. split; [simpl in Hk; lia | by rewrite Htake].
    + rewrite HF'. rewrite <- app_assoc. simpl. split.
      * intros [?|(_ & -> & ?)]; [by left|]. by right.
      * intros [?|(_ & -> & Hq)]; [by left|]. right. split; [|done].
        intros ->. by apply Hq.
  - assert (seen ++ [part] ∉ C) as Hnot.
    { intros Hin. apply (tree_inv_lookup _ _ _ _ _ Hinv) in Hin as [? Hin]; [|done..].
      congruence. }
    pose proof (tree_inv_add top C F d seen part current (bool_decide (rest = []))
                  Hinv Hseen Hcur Hok1 Hnot) as Hinv1.
    match type of Hinv1 with tree_inv _ ?C1 ?F1 ?d1 =>
      destruct (IH (seen ++ [part]) (length (store d)) C1 F1 d1 Hinv1)
        as (C' & F' & Hinv' & HC' & HF')
    end.
    { right. apply elem_of_app. right. by apply list_elem_of_singleton. }
    { rewrite node_at_snoc. cbn [nodes]. by rewrite lookup_insert_eq. }
    { done. }
    exists C', F'. split; [done|]. split; intros q.
    + rewrite HC', elem_of_app, list_elem_of_singleton. split.
      * intros [[?| ->]|(k & Hk & ->)]; [by left|..].
        -- right. exists 0. split; [simpl; lia | done].
        -- right. exists (S k). split; [simpl; lia | apply Htake].
      * intros [?|(k & Hk & ->)]; [left; by left|]. destruct k as [|k].
        -- left. right. done.
        -- right. exists k. split; [simpl in Hk; lia | by rewrite Htake].
    + rewrite HF'. destruct rest as [|part' rest'].
      * rewrite bool_decide_eq_true_2 by done.
        rewrite elem_of_app, list_elem_of_singleton. split.
        -- intros [[?| ->]|(? & _)]; [by left | | done]. right. done.
        -- intros [?|(_ & -> & _)]; [left; by left | left; by right].
      * rewrite bool_decide_eq_false_2 by done. rewrite <- app_assoc. simpl. split.
        -- intros [?|(_ & -> & Hq)]; [by left|]. right. split; [done|]. split; [done|].
           intros Hin. apply Hq. apply elem_of_app. by left.
        -- intros [?|(_ & -> & Hq)]; [by left|]. right. split; [done|]. split; [done|].
           rewrite elem_of_app, list_elem_of_singleton. intros [?|Heq]; [done|].
           apply (f_equal length) in Heq. rewrite !length_app in Heq. simpl in Heq. lia.
Qed.

(** ** What is shown *)

(** The objects shown are the objects that [nodes] holds, each at the
    position of its prefix. *)
Lemma shown_node_at top C F d pre node :
  tree_inv top C F d ->
  shown (store d) pre node ↔ (pre = [] ∨ pre ∈ C) ∧ node_at d pre = Some node.
Proof.
  intros Hinv. split.
  - induction 1 as [|pre part parent pn node n Hsh [Hpre Hparent] Hpn Hin Hn Hl].
    { split; [by left | done]. }
    destruct (ti_child _ _ _ _ Hinv _ _ _ Hpn Hin) as (pre' & x & Hc & Hp' & Hnode).
    assert (pre' = pre) as ->.
    { eapply (node_at_inj _ _ _ _ _ _ _ Hinv); [| |exact Hp'|exact Hparent]; [|done].
      by apply (ti_closed _ _ _ _ Hinv _ x). }
    destruct (ti_node _ _ _ _ Hinv _ _ _ Hc Hnode) as (_ & n' & _ & _ & Hn' & Hl' & _).
    assert (n' = n) as -> by congruence.
    assert (x = part) as ->.
    { eapply label_part; [|exact Hl]. rewrite Hl'. case_bool_decide; [by left | by right]. }
    split; [by right|]. by rewrite node_at_snoc.
  - revert node. induction pre as [|x pre IH] using rev_ind; intros node [Hpre Hnode].
    { simpl in Hnode. injection Hnode as <-. constructor. }
    destruct Hpre as [?|Hpre]; [by destruct pre|].
    rewrite node_at_snoc in Hnode.
    destruct (ti_node _ _ _ _ Hinv _ _ _ Hpre Hnode)
      as (_ & n & parent & pn & Hn & Hl & Hp & Hpn & Hin).
    eapply shown_child; [|exact Hpn|exact Hin|exact Hn|].
    + apply IH. split; [|done]. by apply (ti_closed _ _ _ _ Hinv _ x).
    + rewrite Hl. case_bool_decide; [by left | by right].
Qed.

Lemma prefix_take_length (q p : path) : q `prefix_of` p -> q = take (length q) p.
Proof. intros [k ->]. by rewrite take_app_length. Qed.

Lemma show_path_inv top created P C F d p :
  file_paths created ->
  (∀ p', p' ∈ P → p' ∈ created) -> p ∈ created ->
  tree_inv top C F d ->
  (∀ q, q ∈ C ↔ covers P q) -> (∀ q, q ∈ F ↔ q ∈ P) ->
  ∃ C' F', tree_inv top C' F' (show_path d p)
    ∧ (∀ q, q ∈ C' ↔ covers (P ++ [p]) q)
    ∧ (∀ q, q ∈ F' ↔ q ∈ P ++ [p]).
Proof.
  intros [Hparts Hfree] HP Hp Hinv HC HF.
  destruct (Hparts _ Hp) as [Hne Hok].
  rewrite show_path_parts.
  destruct (show_parts_inv top p [] 0 C F d Hinv) as (C' & F' & Hinv' & HC' & HF');
    [by left | done | done |].
  exists C', F'. split; [done|]. split; intros q.
  - rewrite HC', HC. simpl. unfold covers. split.
    + intros [(Hq & p' & Hp' & Hpre)|(k & Hk & ->)].
      * split; [done|]. exists p'. split; [|done]. apply elem_of_app. by left.
      * split; [destruct p; [simpl in Hk; lia | done]|].
        exists p. split; [apply elem_of_app; right; by apply list_elem_of_singleton|].
        exists (drop (S k) p). by rewrite take_drop.
    + intros (Hq & p' & Hp' & Hpre). apply elem_of_app in Hp' as [Hp'|Hp'].
      * left. split; [done|]. by exists p'.
      * apply list_elem_of_singleton in Hp' as ->. right.
        destruct q as [|x q]; [done|]. exists (length q). split.
        -- apply prefix_length in Hpre. simpl in Hpre. lia.
        -- by apply (prefix_take_length (x :: q)).
  - rewrite HF', HF, elem_of_app, list_elem_of_singleton. simpl. split.
    + intros [?|(_ & -> & _)]; [by left | by right].
    + intros [?| ->]; [by left|]. destruct (decide (p ∈ C)) as [Hin|Hout].
      * left. apply HC in Hin as (_ & p' & Hp' & Hpre).
        rewrite (Hfree p p'); auto.
      * right. done.
Qed.

Lemma show_paths_inv top created : ∀ l P C F d,
  file_paths created ->
  (∀ p, p ∈ P ++ l → p ∈ created) ->
  tree_inv top C F d ->
  (∀ q, q ∈ C ↔ covers P q) -> (∀ q, q ∈ F ↔ q ∈ P) ->
  ∃ C' F', tree_inv top C' F' (foldl show_path d l)
    ∧ (∀ q, q ∈ C' ↔ covers (P ++ l) q)
    ∧ (∀ q, q ∈ F' ↔ q ∈ P ++ l).
Proof.
  induction l as [|p l IH]; intros P C F d Hfiles Hall Hinv HC HF.
  { exists C, F. rewrite app_nil_r. done. }
  destruct (show_path_inv top created P C F d p) as (C1 & F1 & Hinv1 & HC1 & HF1);
    try done.
  { intros p' Hp'. apply Hall, elem_of_app. by left. }
  { apply Hall, elem_of_app. right. apply list_elem_of_here. }
  destruct (IH (P ++ [p]) C1 F1 (show_path d p)) as (C' & F' & Hinv' & HC' & HF');
    try done.
  { intros p' Hp'. apply Hall. by rewrite <- app_assoc in Hp'. }
  exists C', F'. rewrite <- app_assoc in HC', HF'. done.
Qed.

Lemma elem_of_insert_sorted (q p : path) l : q ∈ insert_sorted p l ↔ q = p ∨ q ∈ l.
Proof.
  induction l as [|x l IH]; simpl.
  - rewrite list_elem_of_singleton. split; [by left|]. intros [?|H]; [done|].
    by apply elem_of_nil in H.
  - destruct (path_ltb x p); rewrite !elem_of_cons; [|done].
    rewrite IH. tauto.
Qed.

(** Sorting keeps the paths. *)
Lemma elem_of_sorted (q : path) l : q ∈ sorted l ↔ q ∈ l.
Proof.
  unfold sorted. induction l as [|x l IH]; simpl; [done|].
  rewrite elem_of_insert_sorted, elem_of_cons, IH. done.
Qed.

Lemma print_file_tree_inv project_name created :
  file_paths created ->
  ∃ C F, tree_inv (root_label project_name) C F (_print_file_tree project_name created)
    ∧ (∀ q, q ∈ C ↔ covers created q)
    ∧ (∀ q, q ∈ F ↔ q ∈ created).
Proof.
  intros Hfiles. unfold _print_file_tree.
  destruct (show_paths_inv (root_label project_name) created (sorted created) [] [] []
              {| store := [TreeNode (root_label project_name) []]; nodes := ∅ |})
    as (C & F & Hinv & HC & HF); try done.
  - intros p Hp. by apply elem_of_sorted.
  - apply tree_inv_initial.
  - intros q. split; [intros H; by apply elem_of_nil in H|].
    intros (_ & p & Hp & _). by apply elem_of_nil in Hp.
  - exists C, F. split; [done|]. simpl in HC, HF. split; intros q.
    + rewrite HC. unfold covers. split; intros (Hq & p & Hp & Hpre);
        (split; [done|]); exists p; (split; [|done]); by apply elem_of_sorted.
    + rewrite HF. apply elem_of_sorted.
Qed.

Lemma file_pathsb_spec created : file_pathsb created = true -> file_paths created.
Proof.
  intros H. apply bool_decide_eq_true in H as [H1 H2]. split.
  - intros p Hp. by apply (proj1 (Forall_forall _ _) H1).
  - intros p q Hp Hq.
    apply (proj1 (Forall_forall _ _) (proj1 (Forall_forall _ _) H2 p Hp) q Hq).
Qed.

(** The display of [_print_file_tree] is the tree of the created files.
    When the created paths are paths of files (not empty, none a strict
    prefix of another, no separator inside a part): the root carries the
    project name; the positions shown are exactly the prefixes of the
    created paths, each shown once; the object at a created path is
    labelled as a file and has no children, the object at any other prefix
    is labelled as a directory and has children; and no object is listed
    twice among the children of another. *)
Theorem print_file_tree_shows_created (project_name : string) (created : list path) :
  file_paths created ->
  (∃ root, store (_print_file_tree project_name created) !! 0 = Some root
           ∧ label root = root_label project_name)
  ∧ (∀ pre, (∃ node, shown (store (_print_file_tree project_name created)) pre node)
            ↔ pre = [] ∨ ∃ p, p ∈ created ∧ pre `prefix_of` p)
  ∧ (∀ pre node node',
       shown (store (_print_file_tree project_name created)) pre node →
       shown (store (_print_file_tree project_name created)) pre node' → node = node')
  ∧ (∀ pre part node n,
       shown (store (_print_file_tree project_name created)) (pre ++ [part]) node →
       store (_print_file_tree project_name created) !! node = Some n →
       if decide (pre ++ [part] ∈ created)
       then label n = file_label part ∧ children n = []
       else label n = dir_label part ∧ children n ≠ [])
  ∧ (∀ node n, store (_print_file_tree project_name created) !! node = Some n →
               NoDup (children n)).
Proof.
  intros Hfiles.
  destruct (print_file_tree_inv project_name created Hfiles) as (C & F & Hinv & HC & HF).
  destruct Hfiles as [Hparts Hfree].
  set (d := _print_file_tree project_name created) in *.
  assert (∀ pre, pre = [] ∨ pre ∈ C ↔ pre = [] ∨ ∃ p, p ∈ created ∧ pre `prefix_of` p)
    as Hpos.
  { intros pre. rewrite HC. unfold covers. split.
    - intros [?|(_ & ?)]; [by left | by right].
    - intros [?|?]; [by left|]. destruct pre; [by left | right; done]. }
  split; [apply (ti_root _ _ _ _ Hinv)|]. split; [|split; [|split]].
  - intros pre. rewrite <- Hpos. split.
    + intros [node Hsh]. by apply (shown_node_at _ _ _ _ _ _ Hinv) in Hsh as [? _].
    + intros Hpre. destruct Hpre as [->|Hpre]; [exists 0; constructor|].
      destruct (ti_cov _ _ _ _ Hinv _ Hpre) as (_ & _ & [node Hnode]).
      exists node. apply (shown_node_at _ _ _ _ _ _ Hinv). split; [by right|].
      by rewrite (node_at_cov _ _ _ _ _ Hinv Hpre).
  - intros pre node node' H H'.
    apply (shown_node_at _ _ _ _ _ _ Hinv) in H as [_ H], H' as [_ H']. congruence.
  - intros pre part node n Hsh Hn.
    apply (shown_node_at _ _ _ _ _ _ Hinv) in Hsh as [Hpre Hnode].
    destruct Hpre as [?|Hpre]; [by destruct pre|].
    rewrite node_at_snoc in Hnode.
    destruct (ti_node _ _ _ _ Hinv _ _ _ Hpre Hnode) as (_ & n' & _ & _ & Hn' & Hl & _).
    assert (n' = n) as -> by congruence.
    destruct (decide (pre ++ [part] ∈ created)) as [Hin|Hout].
    + rewrite bool_decide_eq_true_2 in Hl by (by apply HF). split; [done|].
      destruct (children n) as [|c cs] eqn:Hcs; [done|]. exfalso.
      destruct (ti_child _ _ _ _ Hinv node n c Hn) as (pre' & x & Hc & Hp' & _).
      { rewrite Hcs. apply list_elem_of_here. }
      assert (pre' = pre ++ [part]) as ->.
      { eapply (node_at_inj _ _ _ _ _ _ _ Hinv); [| |exact Hp'|]; [|by right|].
        - by apply (ti_closed _ _ _ _ Hinv _ x).
        - by rewrite node_at_snoc. }
      apply HC in Hc as (_ & p & Hp & Hpre').
      assert (pre ++ [part] = p) as <-.
      { apply Hfree; [done | done|]. by eapply prefix_app_l. }
      by apply prefix_snoc_not in Hpre'.
    + rewrite bool_decide_eq_false_2 in Hl by (intros Hin; by apply HF in Hin).
      split; [done|].
      pose proof Hpre as Hcov. apply HC in Hcov as (_ & p & Hp & [k ->]).
      destruct k as [|y k]; [by rewrite app_nil_r in Hp|].
      assert ((pre ++ [part]) ++ [y] ∈ C) as Hnext.
      { apply HC. split; [by destruct pre|]. exists ((pre ++ [part]) ++ y :: k).
        split; [done|]. exists k. rewrite <- !app_assoc. done. }
      destruct (ti_cov _ _ _ _ Hinv _ Hnext) as (_ & _ & [c Hc]).
      destruct (ti_node _ _ _ _ Hinv _ _ _ Hnext Hc)
        as (_ & _ & parent & pn & _ & _ & Hparent & Hpn & Hin).
      rewrite node_at_snoc, Hnode in Hparent. injection Hparent as <-.
      assert (pn = n) as -> by congruence.
      intros Hnil. rewrite Hnil in Hin. by apply elem_of_nil in Hin.
  - intros node n Hn. by apply (ti_nodup _ _ _ _ Hinv _ _ Hn).
Qed.

Lemma fits_all_apart l : ∀ ws,
  fits_all ws l ->
  ∀ p q, p ∈ l → q ∈ ws ++ l → ¬ strict_prefix p q ∧ ¬ strict_prefix q p.
Proof.
  induction l as [|rel rels IH]; intros ws Hfits p q Hp Hq.
  { by apply elem_of_nil in Hp. }
  destruct Hfits as [(_ & _ & Hrel) Hrest].
  assert (q ∈ (ws ++ [rel]) ++ rels) as Hq' by (by rewrite <- app_assoc).
  apply elem_of_cons in Hp as [->|Hp]; [|by apply (IH _ Hrest)].
  apply elem_of_app in Hq as [Hq|Hq].
  { destruct (Hrel _ Hq). done. }
  apply elem_of_cons in Hq as [->|Hq].
  { split; intros [_ ?]; done. }
  destruct (IH _ Hrest q rel Hq) as [? ?]; [|done].
  apply elem_of_app. left. apply elem_of_app. right. by apply list_elem_of_singleton.
Qed.

(** The lists that [generate_project] returns are lists of file paths, for
    a project name without a separator. *)
Lemma expected_paths_file_paths name f :
  separator_free name = true -> file_paths (expected_paths name f).
Proof.
  intros Hname. split.
  - apply Forall_forall.
    destruct f as [[] [] [] [] [] []];
      unfold expected_paths, always_paths, optional_paths, group_when; simpl;
      repeat (apply Forall_cons; split;
              [split; [discriminate | repeat constructor; exact Hname]|]);
      apply Forall_nil_2.
  - intros p q Hp Hq Hpre. destruct (decide (p = q)) as [|Hne]; [done|].
    destruct (fits_all_apart _ [] (expected_paths_fit name f) p q Hp Hq) as [H _].
    destruct H. done.
Qed.

Lemma print_file_tree_shows_created_witness :
  (∃ root, store (_print_file_tree "testproject"
                    (expected_paths "testproject" (Flags false true true false false true)))
             !! 0 = Some root
           ∧ label root = root_label "testproject")
  ∧ (∀ pre, (∃ node, shown (store (_print_file_tree "testproject"
                       (expected_paths "testproject" (Flags false true true false false true))))
                       pre node)
            ↔ pre = [] ∨ ∃ p, p ∈ expected_paths "testproject"
                                    (Flags false true true false false true)
                              ∧ pre `prefix_of` p)
  ∧ (∀ pre node node',
       shown (store (_print_file_tree "testproject"
                (expected_paths "testproject" (Flags false true true false false true))))
         pre node →
       shown (store (_print_file_tree "testproject"
                (expected_paths "testproject" (Flags false true true false false true))))
         pre node' → node = node')
  ∧ (∀ pre part node n,
       shown (store (_print_file_tree "testproject"
                (expected_paths "testproject" (Flags false true true false false true))))
         (pre ++ [part]) node →
       store (_print_file_tree "testproject"
                (expected_paths "testproject" (Flags false true true false false true)))
         !! node = Some n →
       if decide (pre ++ [part] ∈ expected_paths "testproject"
                                    (Flags false true true false false true))
       then label n = file_label part ∧ children n = []
       else label n = dir_label part ∧ children n ≠ [])
  ∧ (∀ node n, store (_print_file_tree "testproject"
                        (expected_paths "testproject"
                           (Flags false true true false false true))) !! node = Some n →
               NoDup (children n)).
Proof.
  apply (print_file_tree_shows_created "testproject"
           (expected_paths "testproject" (Flags false true true false false true))).
  apply file_pathsb_spec. vm_compute. reflexivity.
Defined.

Lemma accepted_name_separator_free stdlib_module_names name :
  _validate_project_name stdlib_module_names name = inr tt -> separator_free name = true.
Proof.
  unfold _validate_project_name. intros H.
  destruct (re_match_identifier name) eqn:Hm; [clear H|discriminate].
  unfold re_match_identifier, re_match_anchored in Hm.
  apply orb_true_iff in Hm as [Hb|Hb].
  { by apply identifier_body_separator_free in Hb as [? _]. }
  destruct (strip_final_newline name) as [t|] eqn:Ht; [|discriminate].
  apply strip_final_newline_spec in Ht as ->.
  apply identifier_body_separator_free in Hb as (Hs & _).
  by rewrite (separator_free_app t), Hs.
Qed.

(** The list that [new] hands to [_print_file_tree] is always a list of
    file paths: no path is empty or a strict prefix of another, and no
    part holds a separator; so the display shows the created files, each
    once and as a file, below their directories. *)
Theorem new_lists_file_paths (d : defaults) (stdlib_module_names : gset string)
    (render : string -> gmap string value -> string) (markup_ok : string -> bool)
    (a : answers) (args : arguments) (w : world) (paths : list path) (w' : world) :
  new d stdlib_module_names render markup_ok a args w = (inr paths, w') ->
  file_paths paths
  ∧ ∀ project_name pre part node n,
      shown (store (_print_file_tree project_name paths)) (pre ++ [part]) node →
      store (_print_file_tree project_name paths) !! node = Some n →
      label n = (if decide (pre ++ [part] ∈ paths) then file_label part
                 else dir_label part).
Proof.
  intros Hrun.
  apply new_returns in Hrun as (config & name & _ & _ & Hname & _ & _ & _ & -> & _).
  apply accepted_name_separator_free in Hname.
  pose proof (expected_paths_file_paths name (config_flags config) Hname) as Hfiles.
  split; [done|]. intros project_name pre part node n Hsh Hnode.
  destruct (print_file_tree_inv project_name _ Hfiles) as (C & F & Hinv & HC & HF).
  apply (shown_node_at _ _ _ _ _ _ Hinv) in Hsh as [Hpre Hat].
  destruct Hpre as [?|Hpre]; [by destruct pre|].
  rewrite node_at_snoc in Hat.
  destruct (ti_node _ _ _ _ Hinv _ _ _ Hpre Hat) as (_ & n' & _ & _ & Hn' & Hl & _).
  assert (n' = n) as -> by congruence. rewrite Hl.
  destruct (decide (pre ++ [part] ∈ expected_paths name (config_flags config)))
    as [Hin|Hout].
  - rewrite bool_decide_eq_true_2; [done|]. by apply HF.
  - rewrite bool_decide_eq_false_2; [done|]. intros Hin. by apply HF in Hin.
Qed.

Lemma new_lists_file_paths_witness :
  file_paths (expected_paths "myapp" (Flags true false true true true true))
  ∧ ∀ project_name pre part node n,
      shown (store (_print_file_tree project_name
                      (expected_paths "myapp" (Flags true false true true true true))))
        (pre ++ [part]) node →
      store (_print_file_tree project_name
               (expected_paths "myapp" (Flags true false true true true true)))
        !! node = Some n →
      label n = (if decide (pre ++ [part]
                            ∈ expected_paths "myapp" (Flags true false true true true true))
                 then file_label part else dir_label part).
Proof.
  apply (new_lists_file_paths example_defaults ∅ example_render example_markup no_answers
           (example_arguments "myapp" "3.13") empty_home
           (expected_paths "myapp" (Flags true false true true true true))
           (snd example_new)).
  apply (run_returns example_new). vm_compute. reflexivity.
Defined.


(* ===================================================================== *)
(** * The next steps, and the defaults against the prompts *)
(* ===================================================================== *)

(** ** The next steps and the destination *)

(** The next steps lead to the project: whenever [generate_project]
    returns, either the files were written below [cwd / name] and the steps
    start with [cd name], or they were written into the working directory
    and the steps have no [cd]. *)
Theorem success_steps_lead_to_project (render : string -> gmap string value -> string)
    (config : gmap string value) (name : string) (w : world)
    (paths : list path) (w' : world) :
  config !! "name" = Some (VStr name) ->
  generate_project render config w = (inr paths, w') ->
  (write_log w' = write_log w ++ (app (cwd w ++ [name]) <$> paths)
   ∧ _print_success name config
     = [ "  [bold]$[/bold] cd " +:+ name;
         "  [bold]$[/bold] make setup";
         "  [bold]$[/bold] uv run python -m " +:+ name ])
  ∨ (write_log w' = write_log w ++ (app (cwd w) <$> paths)
     ∧ _print_success name config
       = [ "  [bold]$[/bold] make setup";
           "  [bold]$[/bold] uv run python -m " +:+ name ]).
Proof.
  intros Hname Hrun.
  apply generate_project_inv in Hrun
    as [(e & ? & _)|(name' & context & r0 & s' & Hname' & _ & _ & Hrun & -> & Hr)];
    [discriminate|].
  assert (name' = name) as -> by congruence.
  destruct r0 as [e|[]]; [discriminate|]. injection Hr as ->.
  assert (tracks (destination config name w) (write_log w)
            {| gs_world := w; created := [] |}) as Htr.
  { split; [by rewrite app_nil_r | constructor]. }
  destruct (write_all_tracks _ _ _ _ _ _ Htr Hrun) as ([Hlog _] & _).
  unfold destination, pjoin in Hlog. unfold _print_success.
  destruct (truthy (dict_get config "_use_cwd")); simpl negb; cbv iota.
  - right. split; [done|]. reflexivity.
  - left. split; [done|]. reflexivity.
Qed.

(** ** The defaults and the prompts compared *)

Lemma defaulted_text_prompted d o :
  o ≠ Some "" ->
  Some (defaulted_text d (of_option_str o))
  = prompted (ask_text None d) (Some (of_option_str o)).
Proof.
  intros Ho. destruct o as [s|]; [|reflexivity].
  unfold defaulted_text, py_or, prompted. simpl.
  destruct (String.eqb_spec s "") as [->|]; [done | reflexivity].
Qed.

Lemma defaulted_flag_prompted o :
  Some (defaulted_flag (of_option_bool o))
  = prompted (ask_confirm None true) (Some (of_option_bool o)).
Proof. by destruct o. Qed.

Lemma resolved_name_prompted d base args :
  arg_name args ≠ Some "" ->
  Some (defaulted_text (DEFAULT_PROJECT_NAME d) (resolved_name d base args))
  = prompted (ask_text None (DEFAULT_PROJECT_NAME d)) (Some (resolved_name d base args)).
Proof.
  intros Hn. unfold resolved_name. destruct (arg_name args) as [n|]; [|reflexivity].
  destruct (decide (n = ".")) as [->|Hdot].
  - unfold defaulted_text, py_or, prompted, converted_name. simpl.
    destruct (re_sub_nonword base) as [|c r] eqn:Hsub.
    + destruct (String.eqb_spec (DEFAULT_PROJECT_NAME d) "") as [->|]; reflexivity.
    + destruct (py_isdigit c); reflexivity.
  - unfold defaulted_text, py_or, prompted. simpl.
    destruct (String.eqb_spec n "") as [->|]; [done | reflexivity].
Qed.

(** Outside the keys that [new] sets, the resolved configuration has
    nothing. *)
Lemma resolve_config_other_keys d a args base config k :
  resolve_config d a args base = inr config -> k ∉ config_keys -> config !! k = None.
Proof.
  intros Hc Hk. unfold config_keys in Hk. rewrite !not_elem_of_cons in Hk.
  destruct Hk as (K1 & K2 & K3 & K4 & K5 & K6 & K7 & K8 & K9 & K10 & K11 & _).
  unfold resolve_config in Hc.
  destruct (resolve_name_initial d base args) as (c1 & Hres & _ & _ & O1).
  rewrite Hres in Hc.
  assert (c1 !! k = None) as Hc1.
  { rewrite O1 by done. unfold initial_config. by rewrite !lookup_insert_ne by done. }
  destruct (arg_no_interactive args).
  - destruct (apply_defaults_lookup _ _ _ Hc) as (_ & _ & _ & _ & Lo & _).
    rewrite Lo; [done|]. unfold default_keys, text_keys, flag_keys. simpl.
    rewrite !not_elem_of_cons. repeat split; try done. apply not_elem_of_nil.
  - injection Hc as <-.
    destruct (prompt_for_config_lookup d a c1) as (_ & _ & _ & _ & _ & _ & _ & _ & _ & Lo).
    rewrite Lo; [done|]. unfold prompt_keys. rewrite !not_elem_of_cons.
    repeat split; try done. apply not_elem_of_nil.
Qed.

(** Pressing Enter at every prompt is [--no-interactive], but for
    [continue]: when no text given on the command line is empty, the two
    configurations agree on every key other than [continue], which the
    defaults turn on and the prompts leave as given, [None] if it was not. *)
Theorem enter_everywhere_is_yes_but_continue (d : defaults) (a : answers)
    (args : arguments) (base : string) :
  no_empty_text args ->
  ∃ yes entered,
    resolve_config d a (with_no_interactive args true) base = inr yes
    ∧ resolve_config d no_answers (with_no_interactive args false) base = inr entered
    ∧ (∀ k, k ≠ "continue" → yes !! k = entered !! k)
    ∧ yes !! "continue" = Some (VBool (default true (arg_continue args)))
    ∧ entered !! "continue" = Some (of_option_bool (arg_continue args)).
Proof.
  intros (Hn & Hd & Ha).
  destruct (resolve_config_defaults d a (with_no_interactive args true) base eq_refl)
    as (yes & Hy & N & D & A & P & U & F1 & F2 & F3 & F4 & F5 & F6).
  destruct (resolve_config_prompts d no_answers (with_no_interactive args false) base
              eq_refl)
    as (entered & He & N' & D' & A' & P' & U' & F1' & F2' & F3' & F4' & F5' & F6').
  exists yes, entered. split; [done|]. split; [done|].
  cbn [with_no_interactive arg_name arg_description arg_author arg_python arg_ci
       arg_devcontainer arg_precommit arg_docker arg_diagrams arg_continue
       no_answers ans_name ans_description ans_author ans_python ans_ci
       ans_devcontainer ans_precommit ans_docker ans_diagrams] in *.
  change (resolved_name d base (with_no_interactive args true))
    with (resolved_name d base args) in N.
  change (resolved_name d base (with_no_interactive args false))
    with (resolved_name d base args) in N'.
  change (use_cwd (with_no_interactive args true)) with (use_cwd args) in U.
  change (use_cwd (with_no_interactive args false)) with (use_cwd args) in U'.
  split; [|split].
  - intros k Hk. destruct (decide (k ∈ config_keys)) as [Hin|Hout].
    2:{ rewrite (resolve_config_other_keys _ _ _ _ _ _ Hy Hout).
        by rewrite (resolve_config_other_keys _ _ _ _ _ _ He Hout). }
    unfold config_keys in Hin. rewrite !elem_of_cons in Hin.
    destruct Hin as [->|[->|[->|[->|[->|[->|[->|[->|[->|[->|[->|Hin]]]]]]]]]]];
      [..|by apply elem_of_nil in Hin].
    + rewrite N, N'. by apply resolved_name_prompted.
    + rewrite D, D'. by apply defaulted_text_prompted.
    + rewrite A, A'. by apply defaulted_text_prompted.
    + by rewrite P, P'.
    + rewrite F1, F1'. apply defaulted_flag_prompted.
    + rewrite F2, F2'. apply defaulted_flag_prompted.
    + rewrite F3, F3'. apply defaulted_flag_prompted.
    + rewrite F4, F4'. apply defaulted_flag_prompted.
    + rewrite F5, F5'. apply defaulted_flag_prompted.
    + done.
    + by rewrite U, U'.
  - rewrite F6. by destruct (arg_continue args).
  - done.
Qed.

Lemma success_steps_lead_to_project_witness :
  (write_log (snd example_run)
   = write_log empty_home
     ++ (app (cwd empty_home ++ ["testproject"])
           <$> expected_paths "testproject" (Flags true false true false true true))
   ∧ _print_success "testproject" (example_config "A test project" (VBool true) false)
     = [ "  [bold]$[/bold] cd " +:+ "testproject";
         "  [bold]$[/bold] make setup";
         "  [bold]$[/bold] uv run python -m " +:+ "testproject" ])
  ∨ (write_log (snd example_run)
     = write_log empty_home
       ++ (app (cwd empty_home)
             <$> expected_paths "testproject" (Flags true false true false true true))
     ∧ _print_success "testproject" (example_config "A test project" (VBool true) false)
       = [ "  [bold]$[/bold] make setup";
           "  [bold]$[/bold] uv run python -m " +:+ "testproject" ]).
Proof.
  apply (success_steps_lead_to_project example_render
           (example_config "A test project" (VBool true) false) "testproject" empty_home
           (expected_paths "testproject" (Flags true false true false true true))
           (snd example_run)).
  - vm_compute. reflexivity.
  - apply (run_returns example_run). vm_compute. reflexivity.
Defined.

Lemma enter_everywhere_is_yes_but_continue_witness :
  ∃ yes entered,
    resolve_config example_defaults example_answers
      (with_no_interactive bare_arguments true) "dev" = inr yes
    ∧ resolve_config example_defaults no_answers
        (with_no_interactive bare_arguments false) "dev" = inr entered
    ∧ (∀ k, k ≠ "continue" → yes !! k = entered !! k)
    ∧ yes !! "continue" = Some (VBool (default true (arg_continue bare_arguments)))
    ∧ entered !! "continue" = Some (of_option_bool (arg_continue bare_arguments)).
Proof.
  apply (enter_everywhere_is_yes_but_continue example_defaults example_answers
           bare_arguments "dev").
  repeat split; discriminate.
Defined.
